(** * PowerAdvisor: timing reconstruction and hint-session negotiation

    A shallow embedding of
    [services/surfaceflinger/DisplayHardware/PowerAdvisor.cpp]
    (namespace [android::Hwc2::impl]) together with the properties its
    design document states about it and further properties of the code:
    what it reads and when that is defined, the invariants of the timing
    records, and the discipline of its calls on the power HAL.

    Conventions of the embedding.

    - [TimePoint] and [Duration] are [std::chrono] nanosecond counts over a
      signed 64-bit representation.  They are embedded as [Z].  Sums and
      differences of steady-clock timestamps stay inside the 64-bit range
      for any uptime below 292 years and are written with the operations of
      [Z]; the one product the file computes
      ([combineTimingEstimates]) squares magnitudes, so its range check is
      written out.
    - Behaviour that C++ leaves undefined (reading an empty
      [std::optional], signed overflow, division by zero) and the process
      abort of [LOG_ALWAYS_FATAL_IF] are results of their own
      ([Undefined], [Fatal]): the embedding never invents a value for them.
    - The power HAL is an oracle: its reply to a call is an arbitrary
      function of the calls made so far and their replies.  Every call the
      class makes on the HAL or on a session is appended, with its reply,
      to a log kept in the state.
    - A member function runs to completion before the next one starts:
      the setters and the estimator are called from one thread, the session
      calls are serialised by [mHintSessionMutex], and the flags other
      threads touch are atomics.
    - Logging and ATRACE calls have no effect on the state and are left
      out. *)

From Stdlib Require Import ZArith List Bool Lia Sorted.
From stdpp Require Import gmap list.

Open Scope Z_scope.

(** ** Results of partial code *)

Inductive result (A : Type) : Type :=
| Done (a : A)
| Undefined
| Fatal.

Arguments Done {A} a.
Arguments Undefined {A}.
Arguments Fatal {A}.

Definition rbind {A B} (r : result A) (k : A -> result B) : result B :=
  match r with
  | Done a => k a
  | Undefined => Undefined
  | Fatal => Fatal
  end.

Notation "x <- r ;; k" := (rbind r (fun x => k))
  (at level 100, r at next level, right associativity).

(** [*o] on a [std::optional]. *)
Definition deref {A} (o : option A) : result A :=
  match o with
  | Some a => Done a
  | None => Undefined
  end.

(** [o.has_value()]. *)
Definition has_value {A} (o : option A) : bool :=
  match o with
  | Some _ => true
  | None => false
  end.

(** [o.value_or(d)]. *)
Definition value_or {A} (o : option A) (d : A) : A :=
  match o with
  | Some a => a
  | None => d
  end.

(** ** Scalars *)

Definition nsecs_t : Type := Z.
Definition TimePoint : Type := Z.
Definition Duration : Type := Z.
Abbreviation DisplayId := N.

Definition INT64_MIN : Z := - 2 ^ 63.
Definition INT64_MAX : Z := 2 ^ 63 - 1.

Definition in_int64 (z : Z) : bool := (INT64_MIN <=? z) && (z <=? INT64_MAX).

(** The two sentinels of [Fence::getSignalTime()], declared in [ui/Fence.h]. *)
Definition SIGNAL_TIME_PENDING : nsecs_t := INT64_MAX.
Definition SIGNAL_TIME_INVALID : nsecs_t := -1.

(** [signalTime != Fence::SIGNAL_TIME_INVALID &&
     signalTime != Fence::SIGNAL_TIME_PENDING] *)
Definition signaled (signalTime : nsecs_t) : bool :=
  negb (signalTime =? SIGNAL_TIME_INVALID) && negb (signalTime =? SIGNAL_TIME_PENDING).

(** ** Process-wide configuration

    Flags and constants the file reads but does not define: the two
    [FlagManager] flags, the system properties cached in static members, the
    two fence-wait constants of [PowerAdvisor.h], the capacity of the two
    ring buffers and whether the constructor created the screen-update
    timer ([getUpdateTimeout() > 0ms]). *)

Record Config : Type := {
  adpf_use_fmq_channel : bool;
  adpf_gpu_sf : bool;
  sUseReportActualDuration : bool;
  sTargetSafetyMargin : Duration;
  kFenceWaitStartDelayValidated : Duration;
  kFenceWaitStartDelaySkippedValidate : Duration;
  kRingCapacity : nat;
  hasScreenUpdateTimer : bool
}.

(** ** Per-display timing record *)

(** [gpuEndFenceTime] holds what [getSignalTime()] returns for the fence
    when polled; [None] is the null pointer. *)
Record DisplayTimingData : Type := {
  gpuEndFenceTime : option nsecs_t;
  gpuStartTime : option TimePoint;
  lastValidGpuEndTime : option TimePoint;
  lastValidGpuStartTime : option TimePoint;
  hwcPresentStartTime : option TimePoint;
  hwcPresentEndTime : option TimePoint;
  hwcValidateStartTime : option TimePoint;
  hwcValidateEndTime : option TimePoint;
  hwcPresentDelayedTime : option TimePoint;
  requiresRenderEngine : bool;
  skippedValidate : bool
}.

Module Timeline.
Record t : Type := {
  hwcPresentStartTime : TimePoint;
  hwcPresentEndTime : TimePoint;
  hwcPresentDelayDuration : Duration;
  presentFenceWaitStartTime : TimePoint;
  probablyWaitsForPresentFence : bool;
  postPresentFenceHwcPresentDuration : Duration
}.
End Timeline.

Module Gpu.
Record t : Type := {
  duration : Duration;
  startTime : TimePoint
}.
End Gpu.

Section DisplayTiming.

Variable cfg : Config.

(** [DisplayTimingData::calculateDisplayTimeline] *)
Definition calculateDisplayTimeline (d : DisplayTimingData) (fenceTime : TimePoint)
  : result Timeline.t :=
  let fenceWaitStartDelay :=
    if skippedValidate d then kFenceWaitStartDelaySkippedValidate cfg
    else kFenceWaitStartDelayValidated cfg in
  waitedOnHwcPresentTime <-
    (match hwcPresentDelayedTime d with
     | None => Done false
     | Some delayed =>
         start <- deref (hwcPresentStartTime d) ;;
         if delayed >? start then
           finish <- deref (hwcPresentEndTime d) ;;
           Done (delayed <? finish)
         else Done false
     end) ;;
  presentStart <-
    (if skippedValidate d then deref (hwcValidateStartTime d)
     else deref (hwcPresentStartTime d)) ;;
  presentEnd <-
    (if skippedValidate d then deref (hwcValidateEndTime d)
     else deref (hwcPresentEndTime d)) ;;
  delayDuration <-
    (if waitedOnHwcPresentTime : bool then
       delayed <- deref (hwcPresentDelayedTime d) ;;
       start <- deref (hwcPresentStartTime d) ;;
       Done (delayed - start)
     else Done 0) ;;
  let waitStart := presentStart + delayDuration + fenceWaitStartDelay in
  let waits := (fenceTime >? waitStart) && (fenceTime <? presentEnd) in
  Done {| Timeline.hwcPresentStartTime := presentStart;
          Timeline.hwcPresentEndTime := presentEnd;
          Timeline.hwcPresentDelayDuration := delayDuration;
          Timeline.presentFenceWaitStartTime := waitStart;
          Timeline.probablyWaitsForPresentFence := waits;
          Timeline.postPresentFenceHwcPresentDuration :=
            presentEnd - (if waits then fenceTime else waitStart) |}.

(** [DisplayTimingData::estimateGpuTiming]; [now] is the value
    [TimePoint::now()] has when the call is made. *)
Definition estimateGpuTiming (d : DisplayTimingData)
    (previousEndTime : option TimePoint) (now : TimePoint)
  : result (option Gpu.t) :=
  if negb (requiresRenderEngine d && has_value (lastValidGpuStartTime d)
           && has_value (gpuEndFenceTime d))
  then Done None
  else
    start <- deref (gpuStartTime d) ;;
    let latestGpuStartTime := Z.max (value_or previousEndTime 0) start in
    gpuEndFenceSignal <- deref (gpuEndFenceTime d) ;;
    gpuDuration <-
      (if signaled gpuEndFenceSignal then
         Done (gpuEndFenceSignal - latestGpuStartTime)
       else
         match lastValidGpuEndTime d with
         | Some lastEnd =>
             lastStart <- deref (lastValidGpuStartTime d) ;;
             let fallback := lastEnd - lastStart in
             if gpuEndFenceSignal =? SIGNAL_TIME_PENDING
             then Done (Z.max fallback (now - latestGpuStartTime))
             else Done fallback
         | None => Done 0
         end) ;;
    Done (Some {| Gpu.duration := gpuDuration;
                  Gpu.startTime := latestGpuStartTime |}).

End DisplayTiming.

(** ** Field updates of the display record *)

Definition set_gpuEndFenceTime v (s : DisplayTimingData) : DisplayTimingData :=
  {| gpuEndFenceTime := v; gpuStartTime := gpuStartTime s;
     lastValidGpuEndTime := lastValidGpuEndTime s;
     lastValidGpuStartTime := lastValidGpuStartTime s;
     hwcPresentStartTime := hwcPresentStartTime s;
     hwcPresentEndTime := hwcPresentEndTime s;
     hwcValidateStartTime := hwcValidateStartTime s;
     hwcValidateEndTime := hwcValidateEndTime s;
     hwcPresentDelayedTime := hwcPresentDelayedTime s;
     requiresRenderEngine := requiresRenderEngine s;
     skippedValidate := skippedValidate s |}.

Definition set_gpuStartTime v (s : DisplayTimingData) : DisplayTimingData :=
  {| gpuEndFenceTime := gpuEndFenceTime s; gpuStartTime := v;
     lastValidGpuEndTime := lastValidGpuEndTime s;
     lastValidGpuStartTime := lastValidGpuStartTime s;
     hwcPresentStartTime := hwcPresentStartTime s;
     hwcPresentEndTime := hwcPresentEndTime s;
     hwcValidateStartTime := hwcValidateStartTime s;
     hwcValidateEndTime := hwcValidateEndTime s;
     hwcPresentDelayedTime := hwcPresentDelayedTime s;
     requiresRenderEngine := requiresRenderEngine s;
     skippedValidate := skippedValidate s |}.

Definition set_lastValidGpuEndTime v (s : DisplayTimingData) : DisplayTimingData :=
  {| gpuEndFenceTime := gpuEndFenceTime s; gpuStartTime := gpuStartTime s;
     lastValidGpuEndTime := v; lastValidGpuStartTime := lastValidGpuStartTime s;
     hwcPresentStartTime := hwcPresentStartTime s;
     hwcPresentEndTime := hwcPresentEndTime s;
     hwcValidateStartTime := hwcValidateStartTime s;
     hwcValidateEndTime := hwcValidateEndTime s;
     hwcPresentDelayedTime := hwcPresentDelayedTime s;
     requiresRenderEngine := requiresRenderEngine s;
     skippedValidate := skippedValidate s |}.

Definition set_lastValidGpuStartTime v (s : DisplayTimingData) : DisplayTimingData :=
  {| gpuEndFenceTime := gpuEndFenceTime s; gpuStartTime := gpuStartTime s;
     lastValidGpuEndTime := lastValidGpuEndTime s; lastValidGpuStartTime := v;
     hwcPresentStartTime := hwcPresentStartTime s;
     hwcPresentEndTime := hwcPresentEndTime s;
     hwcValidateStartTime := hwcValidateStartTime s;
     hwcValidateEndTime := hwcValidateEndTime s;
     hwcPresentDelayedTime := hwcPresentDelayedTime s;
     requiresRenderEngine := requiresRenderEngine s;
     skippedValidate := skippedValidate s |}.

Definition set_hwcPresentStartTime v (s : DisplayTimingData) : DisplayTimingData :=
  {| gpuEndFenceTime := gpuEndFenceTime s; gpuStartTime := gpuStartTime s;
     lastValidGpuEndTime := lastValidGpuEndTime s;
     lastValidGpuStartTime := lastValidGpuStartTime s; hwcPresentStartTime := v;
     hwcPresentEndTime := hwcPresentEndTime s;
     hwcValidateStartTime := hwcValidateStartTime s;
     hwcValidateEndTime := hwcValidateEndTime s;
     hwcPresentDelayedTime := hwcPresentDelayedTime s;
     requiresRenderEngine := requiresRenderEngine s;
     skippedValidate := skippedValidate s |}.

Definition set_hwcPresentEndTime v (s : DisplayTimingData) : DisplayTimingData :=
  {| gpuEndFenceTime := gpuEndFenceTime s; gpuStartTime := gpuStartTime s;
     lastValidGpuEndTime := lastValidGpuEndTime s;
     lastValidGpuStartTime := lastValidGpuStartTime s;
     hwcPresentStartTime := hwcPresentStartTime s; hwcPresentEndTime := v;
     hwcValidateStartTime := hwcValidateStartTime s;
     hwcValidateEndTime := hwcValidateEndTime s;
     hwcPresentDelayedTime := hwcPresentDelayedTime s;
     requiresRenderEngine := requiresRenderEngine s;
     skippedValidate := skippedValidate s |}.

Definition set_hwcValidateStartTime v (s : DisplayTimingData) : DisplayTimingData :=
  {| gpuEndFenceTime := gpuEndFenceTime s; gpuStartTime := gpuStartTime s;
     lastValidGpuEndTime := lastValidGpuEndTime s;
     lastValidGpuStartTime := lastValidGpuStartTime s;
     hwcPresentStartTime := hwcPresentStartTime s;
     hwcPresentEndTime := hwcPresentEndTime s; hwcValidateStartTime := v;
     hwcValidateEndTime := hwcValidateEndTime s;
     hwcPresentDelayedTime := hwcPresentDelayedTime s;
     requiresRenderEngine := requiresRenderEngine s;
     skippedValidate := skippedValidate s |}.

Definition set_hwcValidateEndTime v (s : DisplayTimingData) : DisplayTimingData :=
  {| gpuEndFenceTime := gpuEndFenceTime s; gpuStartTime := gpuStartTime s;
     lastValidGpuEndTime := lastValidGpuEndTime s;
     lastValidGpuStartTime := lastValidGpuStartTime s;
     hwcPresentStartTime := hwcPresentStartTime s;
     hwcPresentEndTime := hwcPresentEndTime s;
     hwcValidateStartTime := hwcValidateStartTime s; hwcValidateEndTime := v;
     hwcPresentDelayedTime := hwcPresentDelayedTime s;
     requiresRenderEngine := requiresRenderEngine s;
     skippedValidate := skippedValidate s |}.

Definition set_hwcPresentDelayedTime v (s : DisplayTimingData) : DisplayTimingData :=
  {| gpuEndFenceTime := gpuEndFenceTime s; gpuStartTime := gpuStartTime s;
     lastValidGpuEndTime := lastValidGpuEndTime s;
     lastValidGpuStartTime := lastValidGpuStartTime s;
     hwcPresentStartTime := hwcPresentStartTime s;
     hwcPresentEndTime := hwcPresentEndTime s;
     hwcValidateStartTime := hwcValidateStartTime s;
     hwcValidateEndTime := hwcValidateEndTime s; hwcPresentDelayedTime := v;
     requiresRenderEngine := requiresRenderEngine s;
     skippedValidate := skippedValidate s |}.

Definition set_requiresRenderEngine v (s : DisplayTimingData) : DisplayTimingData :=
  {| gpuEndFenceTime := gpuEndFenceTime s; gpuStartTime := gpuStartTime s;
     lastValidGpuEndTime := lastValidGpuEndTime s;
     lastValidGpuStartTime := lastValidGpuStartTime s;
     hwcPresentStartTime := hwcPresentStartTime s;
     hwcPresentEndTime := hwcPresentEndTime s;
     hwcValidateStartTime := hwcValidateStartTime s;
     hwcValidateEndTime := hwcValidateEndTime s;
     hwcPresentDelayedTime := hwcPresentDelayedTime s; requiresRenderEngine := v;
     skippedValidate := skippedValidate s |}.

Definition set_skippedValidate v (s : DisplayTimingData) : DisplayTimingData :=
  {| gpuEndFenceTime := gpuEndFenceTime s; gpuStartTime := gpuStartTime s;
     lastValidGpuEndTime := lastValidGpuEndTime s;
     lastValidGpuStartTime := lastValidGpuStartTime s;
     hwcPresentStartTime := hwcPresentStartTime s;
     hwcPresentEndTime := hwcPresentEndTime s;
     hwcValidateStartTime := hwcValidateStartTime s;
     hwcValidateEndTime := hwcValidateEndTime s;
     hwcPresentDelayedTime := hwcPresentDelayedTime s;
     requiresRenderEngine := requiresRenderEngine s; skippedValidate := v |}.

(** Modelled from the spec: the record [operator[]] creates for a display
    seen for the first time.  The struct and its in-class initialisers are
    declared in [PowerAdvisor.h], which is not among the sources.  The
    design document has the record "created on first use" with every
    timestamp not yet known: every optional is empty, the fence pointer is
    null, and the two flags are off until their setters are called. *)
Definition defaultDisplayTimingData : DisplayTimingData :=
  {| gpuEndFenceTime := None; gpuStartTime := None;
     lastValidGpuEndTime := None; lastValidGpuStartTime := None;
     hwcPresentStartTime := None; hwcPresentEndTime := None;
     hwcValidateStartTime := None; hwcValidateEndTime := None;
     hwcPresentDelayedTime := None;
     requiresRenderEngine := false; skippedValidate := false |}.

(** ** The power HAL *)

(** [aidl::android::hardware::power::WorkDuration] *)
Record WorkDuration : Type := {
  timeStampNanos : Z;
  durationNanos : Z;
  workPeriodStartTimestampNanos : Z;
  cpuDurationNanos : Z;
  gpuDurationNanos : Z
}.

Definition set_durationNanos v (w : WorkDuration) : WorkDuration :=
  {| timeStampNanos := timeStampNanos w; durationNanos := v;
     workPeriodStartTimestampNanos := workPeriodStartTimestampNanos w;
     cpuDurationNanos := cpuDurationNanos w; gpuDurationNanos := gpuDurationNanos w |}.

Inductive SessionHint : Type := CPU_LOAD_UP | CPU_LOAD_RESET.

(** A session is known to this class only as the pointer the HAL returned. *)
Definition SessionHandle : Type := Z.

(** Every call that leaves the class for the power HAL or for a session
    obtained from it, with the arguments that vary. *)
Inductive HalCall : Type :=
| GetHintSessionPreferredRate
| CreateHintSessionWithConfig (threadIds : list Z) (targetNs : Z)
| CreateHintSession (threadIds : list Z) (targetNs : Z)
| SessionUpdateTargetWorkDuration (session : SessionHandle) (targetNs : Z)
| SessionSendHint (session : SessionHandle) (h : SessionHint)
| SessionReportActualWorkDuration (session : SessionHandle) (queue : list WorkDuration)
| SetModeExpensiveRendering (enabled : bool)
| SetBoostDisplayUpdateImminent.

(** [power::HalResult]: the payload of [HalOk] is the session pointer for
    the two creation calls and is not looked at for the others. *)
Inductive HalResult : Type :=
| HalOk (v : Z)
| HalFailed
| HalUnsupported.

Definition isOk (r : HalResult) : bool :=
  match r with HalOk _ => true | _ => false end.

Definition isUnsupported (r : HalResult) : bool :=
  match r with HalUnsupported => true | _ => false end.

(** The HAL as the class sees it: the reply to a call, given the calls
    made before it and the replies they got. *)
Definition PowerHal : Type := list (HalCall * HalResult) -> HalCall -> HalResult.

(** ** State of the class *)

(** Members that take part in hint-session negotiation. *)
Record HintState : Type := {
  mBootFinished : bool;
  mHintSessionEnabled : option bool;
  mSupportsHintSession : option bool;
  mSessionConfigSupported : bool;
  mFirstConfigSupportCheck : bool;
  mHintSession : option SessionHandle;
  mHintSessionThreadIds : list Z;
  mTargetDuration : Duration;
  mLastTargetDurationSent : Duration;
  mHintSessionQueue : list WorkDuration
}.

(** Members written by the timing setters and read by the estimator. *)
Record FrameState : Type := {
  mDisplayTimingData : gmap DisplayId DisplayTimingData;
  mDisplayIds : list DisplayId;
  mExpectedPresentTimes : list TimePoint;
  mCommitStartTimes : list TimePoint;
  mLastPresentFenceTime : TimePoint;
  mLastSfPresentEndTime : TimePoint;
  mLastPostcompDuration : Duration;
  mFrameDelayDuration : Duration;
  mTotalFrameTargetDuration : option Duration
}.

(** Members behind the expensive-rendering mode and the
    display-update-imminent boost. *)
Record BoostState : Type := {
  mHasExpensiveRendering : bool;
  mNotifiedExpensiveRendering : bool;
  mExpensiveDisplays : gset DisplayId;
  mHasDisplayUpdateImminent : bool;
  mSendUpdateImminent : bool;
  mLastScreenUpdatedTime : nsecs_t
}.

(** The object: its members and the calls it has made so far with their
    replies, oldest first. *)
Record PowerAdvisor : Type := {
  hint : HintState;
  frame : FrameState;
  boost : BoostState;
  halLog : list (HalCall * HalResult)
}.

Definition set_mBootFinished v (s : HintState) : HintState :=
  {| mBootFinished := v; mHintSessionEnabled := mHintSessionEnabled s;
     mSupportsHintSession := mSupportsHintSession s;
     mSessionConfigSupported := mSessionConfigSupported s;
     mFirstConfigSupportCheck := mFirstConfigSupportCheck s;
     mHintSession := mHintSession s; mHintSessionThreadIds := mHintSessionThreadIds s;
     mTargetDuration := mTargetDuration s;
     mLastTargetDurationSent := mLastTargetDurationSent s;
     mHintSessionQueue := mHintSessionQueue s |}.

Definition set_mHintSessionEnabled v (s : HintState) : HintState :=
  {| mBootFinished := mBootFinished s; mHintSessionEnabled := v;
     mSupportsHintSession := mSupportsHintSession s;
     mSessionConfigSupported := mSessionConfigSupported s;
     mFirstConfigSupportCheck := mFirstConfigSupportCheck s;
     mHintSession := mHintSession s; mHintSessionThreadIds := mHintSessionThreadIds s;
     mTargetDuration := mTargetDuration s;
     mLastTargetDurationSent := mLastTargetDurationSent s;
     mHintSessionQueue := mHintSessionQueue s |}.

Definition set_mSupportsHintSession v (s : HintState) : HintState :=
  {| mBootFinished := mBootFinished s; mHintSessionEnabled := mHintSessionEnabled s;
     mSupportsHintSession := v; mSessionConfigSupported := mSessionConfigSupported s;
     mFirstConfigSupportCheck := mFirstConfigSupportCheck s;
     mHintSession := mHintSession s; mHintSessionThreadIds := mHintSessionThreadIds s;
     mTargetDuration := mTargetDuration s;
     mLastTargetDurationSent := mLastTargetDurationSent s;
     mHintSessionQueue := mHintSessionQueue s |}.

Definition set_mSessionConfigSupported v (s : HintState) : HintState :=
  {| mBootFinished := mBootFinished s; mHintSessionEnabled := mHintSessionEnabled s;
     mSupportsHintSession := mSupportsHintSession s; mSessionConfigSupported := v;
     mFirstConfigSupportCheck := mFirstConfigSupportCheck s;
     mHintSession := mHintSession s; mHintSessionThreadIds := mHintSessionThreadIds s;
     mTargetDuration := mTargetDuration s;
     mLastTargetDurationSent := mLastTargetDurationSent s;
     mHintSessionQueue := mHintSessionQueue s |}.

Definition set_mFirstConfigSupportCheck v (s : HintState) : HintState :=
  {| mBootFinished := mBootFinished s; mHintSessionEnabled := mHintSessionEnabled s;
     mSupportsHintSession := mSupportsHintSession s;
     mSessionConfigSupported := mSessionConfigSupported s;
     mFirstConfigSupportCheck := v; mHintSession := mHintSession s;
     mHintSessionThreadIds := mHintSessionThreadIds s;
     mTargetDuration := mTargetDuration s;
     mLastTargetDurationSent := mLastTargetDurationSent s;
     mHintSessionQueue := mHintSessionQueue s |}.

Definition set_mHintSession v (s : HintState) : HintState :=
  {| mBootFinished := mBootFinished s; mHintSessionEnabled := mHintSessionEnabled s;
     mSupportsHintSession := mSupportsHintSession s;
     mSessionConfigSupported := mSessionConfigSupported s;
     mFirstConfigSupportCheck := mFirstConfigSupportCheck s; mHintSession := v;
     mHintSessionThreadIds := mHintSessionThreadIds s;
     mTargetDuration := mTargetDuration s;
     mLastTargetDurationSent := mLastTargetDurationSent s;
     mHintSessionQueue := mHintSessionQueue s |}.

Definition set_mHintSessionThreadIds v (s : HintState) : HintState :=
  {| mBootFinished := mBootFinished s; mHintSessionEnabled := mHintSessionEnabled s;
     mSupportsHintSession := mSupportsHintSession s;
     mSessionConfigSupported := mSessionConfigSupported s;
     mFirstConfigSupportCheck := mFirstConfigSupportCheck s;
     mHintSession := mHintSession s; mHintSessionThreadIds := v;
     mTargetDuration := mTargetDuration s;
     mLastTargetDurationSent := mLastTargetDurationSent s;
     mHintSessionQueue := mHintSessionQueue s |}.

Definition set_mTargetDuration v (s : HintState) : HintState :=
  {| mBootFinished := mBootFinished s; mHintSessionEnabled := mHintSessionEnabled s;
     mSupportsHintSession := mSupportsHintSession s;
     mSessionConfigSupported := mSessionConfigSupported s;
     mFirstConfigSupportCheck := mFirstConfigSupportCheck s;
     mHintSession := mHintSession s; mHintSessionThreadIds := mHintSessionThreadIds s;
     mTargetDuration := v; mLastTargetDurationSent := mLastTargetDurationSent s;
     mHintSessionQueue := mHintSessionQueue s |}.

Definition set_mLastTargetDurationSent v (s : HintState) : HintState :=
  {| mBootFinished := mBootFinished s; mHintSessionEnabled := mHintSessionEnabled s;
     mSupportsHintSession := mSupportsHintSession s;
     mSessionConfigSupported := mSessionConfigSupported s;
     mFirstConfigSupportCheck := mFirstConfigSupportCheck s;
     mHintSession := mHintSession s; mHintSessionThreadIds := mHintSessionThreadIds s;
     mTargetDuration := mTargetDuration s; mLastTargetDurationSent := v;
     mHintSessionQueue := mHintSessionQueue s |}.

Definition set_mHintSessionQueue v (s : HintState) : HintState :=
  {| mBootFinished := mBootFinished s; mHintSessionEnabled := mHintSessionEnabled s;
     mSupportsHintSession := mSupportsHintSession s;
     mSessionConfigSupported := mSessionConfigSupported s;
     mFirstConfigSupportCheck := mFirstConfigSupportCheck s;
     mHintSession := mHintSession s; mHintSessionThreadIds := mHintSessionThreadIds s;
     mTargetDuration := mTargetDuration s;
     mLastTargetDurationSent := mLastTargetDurationSent s; mHintSessionQueue := v |}.

Definition set_mDisplayTimingData v (s : FrameState) : FrameState :=
  {| mDisplayTimingData := v; mDisplayIds := mDisplayIds s;
     mExpectedPresentTimes := mExpectedPresentTimes s;
     mCommitStartTimes := mCommitStartTimes s;
     mLastPresentFenceTime := mLastPresentFenceTime s;
     mLastSfPresentEndTime := mLastSfPresentEndTime s;
     mLastPostcompDuration := mLastPostcompDuration s;
     mFrameDelayDuration := mFrameDelayDuration s;
     mTotalFrameTargetDuration := mTotalFrameTargetDuration s |}.

Definition set_mDisplayIds v (s : FrameState) : FrameState :=
  {| mDisplayTimingData := mDisplayTimingData s; mDisplayIds := v;
     mExpectedPresentTimes := mExpectedPresentTimes s;
     mCommitStartTimes := mCommitStartTimes s;
     mLastPresentFenceTime := mLastPresentFenceTime s;
     mLastSfPresentEndTime := mLastSfPresentEndTime s;
     mLastPostcompDuration := mLastPostcompDuration s;
     mFrameDelayDuration := mFrameDelayDuration s;
     mTotalFrameTargetDuration := mTotalFrameTargetDuration s |}.

Definition set_mExpectedPresentTimes v (s : FrameState) : FrameState :=
  {| mDisplayTimingData := mDisplayTimingData s; mDisplayIds := mDisplayIds s;
     mExpectedPresentTimes := v; mCommitStartTimes := mCommitStartTimes s;
     mLastPresentFenceTime := mLastPresentFenceTime s;
     mLastSfPresentEndTime := mLastSfPresentEndTime s;
     mLastPostcompDuration := mLastPostcompDuration s;
     mFrameDelayDuration := mFrameDelayDuration s;
     mTotalFrameTargetDuration := mTotalFrameTargetDuration s |}.

Definition set_mCommitStartTimes v (s : FrameState) : FrameState :=
  {| mDisplayTimingData := mDisplayTimingData s; mDisplayIds := mDisplayIds s;
     mExpectedPresentTimes := mExpectedPresentTimes s; mCommitStartTimes := v;
     mLastPresentFenceTime := mLastPresentFenceTime s;
     mLastSfPresentEndTime := mLastSfPresentEndTime s;
     mLastPostcompDuration := mLastPostcompDuration s;
     mFrameDelayDuration := mFrameDelayDuration s;
     mTotalFrameTargetDuration := mTotalFrameTargetDuration s |}.

Definition set_mLastPresentFenceTime v (s : FrameState) : FrameState :=
  {| mDisplayTimingData := mDisplayTimingData s; mDisplayIds := mDisplayIds s;
     mExpectedPresentTimes := mExpectedPresentTimes s;
     mCommitStartTimes := mCommitStartTimes s; mLastPresentFenceTime := v;
     mLastSfPresentEndTime := mLastSfPresentEndTime s;
     mLastPostcompDuration := mLastPostcompDuration s;
     mFrameDelayDuration := mFrameDelayDuration s;
     mTotalFrameTargetDuration := mTotalFrameTargetDuration s |}.

Definition set_mLastSfPresentEndTime v (s : FrameState) : FrameState :=
  {| mDisplayTimingData := mDisplayTimingData s; mDisplayIds := mDisplayIds s;
     mExpectedPresentTimes := mExpectedPresentTimes s;
     mCommitStartTimes := mCommitStartTimes s;
     mLastPresentFenceTime := mLastPresentFenceTime s; mLastSfPresentEndTime := v;
     mLastPostcompDuration := mLastPostcompDuration s;
     mFrameDelayDuration := mFrameDelayDuration s;
     mTotalFrameTargetDuration := mTotalFrameTargetDuration s |}.

Definition set_mLastPostcompDuration v (s : FrameState) : FrameState :=
  {| mDisplayTimingData := mDisplayTimingData s; mDisplayIds := mDisplayIds s;
     mExpectedPresentTimes := mExpectedPresentTimes s;
     mCommitStartTimes := mCommitStartTimes s;
     mLastPresentFenceTime := mLastPresentFenceTime s;
     mLastSfPresentEndTime := mLastSfPresentEndTime s; mLastPostcompDuration := v;
     mFrameDelayDuration := mFrameDelayDuration s;
     mTotalFrameTargetDuration := mTotalFrameTargetDuration s |}.

Definition set_mFrameDelayDuration v (s : FrameState) : FrameState :=
  {| mDisplayTimingData := mDisplayTimingData s; mDisplayIds := mDisplayIds s;
     mExpectedPresentTimes := mExpectedPresentTimes s;
     mCommitStartTimes := mCommitStartTimes s;
     mLastPresentFenceTime := mLastPresentFenceTime s;
     mLastSfPresentEndTime := mLastSfPresentEndTime s;
     mLastPostcompDuration := mLastPostcompDuration s; mFrameDelayDuration := v;
     mTotalFrameTargetDuration := mTotalFrameTargetDuration s |}.

Definition set_mTotalFrameTargetDuration v (s : FrameState) : FrameState :=
  {| mDisplayTimingData := mDisplayTimingData s; mDisplayIds := mDisplayIds s;
     mExpectedPresentTimes := mExpectedPresentTimes s;
     mCommitStartTimes := mCommitStartTimes s;
     mLastPresentFenceTime := mLastPresentFenceTime s;
     mLastSfPresentEndTime := mLastSfPresentEndTime s;
     mLastPostcompDuration := mLastPostcompDuration s;
     mFrameDelayDuration := mFrameDelayDuration s; mTotalFrameTargetDuration := v |}.

Definition set_mHasExpensiveRendering v (s : BoostState) : BoostState :=
  {| mHasExpensiveRendering := v;
     mNotifiedExpensiveRendering := mNotifiedExpensiveRendering s;
     mExpensiveDisplays := mExpensiveDisplays s;
     mHasDisplayUpdateImminent := mHasDisplayUpdateImminent s;
     mSendUpdateImminent := mSendUpdateImminent s;
     mLastScreenUpdatedTime := mLastScreenUpdatedTime s |}.

Definition set_mNotifiedExpensiveRendering v (s : BoostState) : BoostState :=
  {| mHasExpensiveRendering := mHasExpensiveRendering s;
     mNotifiedExpensiveRendering := v; mExpensiveDisplays := mExpensiveDisplays s;
     mHasDisplayUpdateImminent := mHasDisplayUpdateImminent s;
     mSendUpdateImminent := mSendUpdateImminent s;
     mLastScreenUpdatedTime := mLastScreenUpdatedTime s |}.

Definition set_mExpensiveDisplays v (s : BoostState) : BoostState :=
  {| mHasExpensiveRendering := mHasExpensiveRendering s;
     mNotifiedExpensiveRendering := mNotifiedExpensiveRendering s;
     mExpensiveDisplays := v; mHasDisplayUpdateImminent := mHasDisplayUpdateImminent s;
     mSendUpdateImminent := mSendUpdateImminent s;
     mLastScreenUpdatedTime := mLastScreenUpdatedTime s |}.

Definition set_mHasDisplayUpdateImminent v (s : BoostState) : BoostState :=
  {| mHasExpensiveRendering := mHasExpensiveRendering s;
     mNotifiedExpensiveRendering := mNotifiedExpensiveRendering s;
     mExpensiveDisplays := mExpensiveDisplays s; mHasDisplayUpdateImminent := v;
     mSendUpdateImminent := mSendUpdateImminent s;
     mLastScreenUpdatedTime := mLastScreenUpdatedTime s |}.

Definition set_mSendUpdateImminent v (s : BoostState) : BoostState :=
  {| mHasExpensiveRendering := mHasExpensiveRendering s;
     mNotifiedExpensiveRendering := mNotifiedExpensiveRendering s;
     mExpensiveDisplays := mExpensiveDisplays s;
     mHasDisplayUpdateImminent := mHasDisplayUpdateImminent s;
     mSendUpdateImminent := v; mLastScreenUpdatedTime := mLastScreenUpdatedTime s |}.

Definition set_mLastScreenUpdatedTime v (s : BoostState) : BoostState :=
  {| mHasExpensiveRendering := mHasExpensiveRendering s;
     mNotifiedExpensiveRendering := mNotifiedExpensiveRendering s;
     mExpensiveDisplays := mExpensiveDisplays s;
     mHasDisplayUpdateImminent := mHasDisplayUpdateImminent s;
     mSendUpdateImminent := mSendUpdateImminent s; mLastScreenUpdatedTime := v |}.

Definition set_hint v (s : PowerAdvisor) : PowerAdvisor :=
  {| hint := v; frame := frame s; boost := boost s; halLog := halLog s |}.

Definition set_frame v (s : PowerAdvisor) : PowerAdvisor :=
  {| hint := hint s; frame := v; boost := boost s; halLog := halLog s |}.

Definition set_boost v (s : PowerAdvisor) : PowerAdvisor :=
  {| hint := hint s; frame := frame s; boost := v; halLog := halLog s |}.

Definition set_halLog v (s : PowerAdvisor) : PowerAdvisor :=
  {| hint := hint s; frame := frame s; boost := boost s; halLog := v |}.

(** ** Ring buffers *)

Module RingBuffer.

(** Modelled from the spec: the class template [RingBuffer<T, N>] is
    declared in [PowerAdvisor.h], which is not among the sources.  The
    design document gives its contract: fixed capacity; [append]
    overwrites the oldest element once the buffer is at capacity;
    [isFull] holds once as many elements as the capacity were appended;
    reads are by age, index 0 being the oldest.  The buffer is the list of
    the elements it holds, oldest first. *)
Definition append (capacity : nat) (v : TimePoint) (b : list TimePoint) : list TimePoint :=
  let b' := b ++ [v] in
  if (capacity <? length b')%nat then drop (length b' - capacity) b' else b'.

(** Modelled from the spec: [isFull] of the same template. *)
Definition isFull (capacity : nat) (b : list TimePoint) : bool :=
  (length b =? capacity)%nat.

(** Modelled from the spec: [b[i]] of the same template; reading a slot
    that holds nothing is a precondition violation. *)
Definition get (b : list TimePoint) (i : nat) : result TimePoint :=
  deref (b !! i).

End RingBuffer.

(** ** The estimator *)

Section Estimator.

Variable cfg : Config.

(** [std::sort] with the comparator [key a < key b], as an insertion sort.
    [std::sort] leaves the relative order of elements with equal keys
    unspecified; here they keep the order of [mDisplayIds]. *)
Fixpoint insertByKey (x : TimePoint * DisplayId) (l : list (TimePoint * DisplayId))
  : list (TimePoint * DisplayId) :=
  match l with
  | [] => [x]
  | y :: rest => if fst y <? fst x then y :: insertByKey x rest else x :: y :: rest
  end.

Definition sortByKey (l : list (TimePoint * DisplayId)) : list (TimePoint * DisplayId) :=
  foldr insertByKey [] l.

(** [PowerAdvisor::getOrderedDisplayIds]: the ids of [mDisplayIds] that
    have a record in which the chosen timestamp is set ([std::copy_if]),
    each paired with that timestamp, sorted by it. *)
Definition getOrderedDisplayIds (sortBy : DisplayTimingData -> option TimePoint)
    (f : FrameState) : list DisplayId :=
  let keyed :=
    omap (fun id =>
            match mDisplayTimingData f !! id with
            | Some d => match sortBy d with
                        | Some key => Some (key, id)
                        | None => None
                        end
            | None => None
            end) (mDisplayIds f) in
  map snd (sortByKey keyed).

(** [PowerAdvisor::combineTimingEstimates].  The product
    [targetDuration.ns() * totalDuration.ns()] and the quotient are
    computed on [int64_t]: a product outside the range, a zero divisor and
    [INT64_MIN / -1] have no defined result; [/] truncates toward zero. *)
Definition combineTimingEstimates (targetDuration : Duration)
    (totalFrameTargetDuration : option Duration)
    (totalDuration flingerDuration : Duration) : result Duration :=
  match totalFrameTargetDuration with
  | None => Done flingerDuration
  | Some totalFrameTarget =>
      let product := targetDuration * totalDuration in
      if negb (in_int64 product) then Undefined
      else if totalFrameTarget =? 0 then Undefined
      else if (product =? INT64_MIN) && (totalFrameTarget =? -1) then Undefined
      else Done (Z.max flingerDuration (product ÷ totalFrameTarget))
  end.

(** The variables the loop of [estimateWorkDuration] carries from one
    display to the next. *)
Record Walk : Type := {
  estimatedHwcEndTime : TimePoint;
  idleDuration : Duration;
  previousValidGpuEndTime : option TimePoint;
  estimatedGpuEndTime : option TimePoint;
  firstGpuTimeline : option Gpu.t
}.

(** One iteration of the loop for [displayId]; [now] is the clock reading
    [estimateGpuTiming] takes in this iteration. *)
Definition walkStep (f : FrameState) (now : TimePoint) (acc : Walk) (displayId : DisplayId)
  : result Walk :=
  match mDisplayTimingData f !! displayId with
  | None => Done acc
  | Some displayData =>
      displayTiming <- calculateDisplayTimeline cfg displayData (mLastPresentFenceTime f) ;;
      let idle :=
        idleDuration acc
        + (if Timeline.probablyWaitsForPresentFence displayTiming
           then mLastPresentFenceTime f - Timeline.presentFenceWaitStartTime displayTiming
           else 0)
        + Timeline.hwcPresentDelayDuration displayTiming in
      gpuTiming <- estimateGpuTiming displayData (previousValidGpuEndTime acc) now ;;
      match gpuTiming with
      | Some g =>
          Done {| estimatedHwcEndTime := Timeline.hwcPresentEndTime displayTiming;
                  idleDuration := idle;
                  previousValidGpuEndTime := Some (Gpu.startTime g + Gpu.duration g);
                  estimatedGpuEndTime :=
                    Some (Z.max (Timeline.hwcPresentStartTime displayTiming)
                                (value_or (estimatedGpuEndTime acc) 0)
                          + Gpu.duration g);
                  firstGpuTimeline :=
                    if has_value (firstGpuTimeline acc) then firstGpuTimeline acc
                    else Some g |}
      | None =>
          Done {| estimatedHwcEndTime := Timeline.hwcPresentEndTime displayTiming;
                  idleDuration := idle;
                  previousValidGpuEndTime := previousValidGpuEndTime acc;
                  estimatedGpuEndTime := estimatedGpuEndTime acc;
                  firstGpuTimeline := firstGpuTimeline acc |}
      end
  end.

(** The loop over the ordered displays.  [clock k] is the reading
    [TimePoint::now()] returns in iteration [k]. *)
Fixpoint walkDisplays (f : FrameState) (clock : nat -> TimePoint) (k : nat)
    (acc : Walk) (displayIds : list DisplayId) : result Walk :=
  match displayIds with
  | [] => Done acc
  | displayId :: rest =>
      acc' <- walkStep f (clock k) acc displayId ;;
      walkDisplays f clock (S k) acc' rest
  end.

(** [PowerAdvisor::estimateWorkDuration]; the last reading of the clock,
    for the time stamp of the result, is [clock (length displayIds)]. *)
Definition estimateWorkDuration (h : HintState) (f : FrameState) (clock : nat -> TimePoint)
  : result (option WorkDuration) :=
  if negb (RingBuffer.isFull (kRingCapacity cfg) (mExpectedPresentTimes f))
     || negb (RingBuffer.isFull (kRingCapacity cfg) (mCommitStartTimes f))
  then Done None
  else
    commitStart <- RingBuffer.get (mCommitStartTimes f) 0 ;;
    let displayIds := getOrderedDisplayIds hwcPresentStartTime f in
    acc <- walkDisplays f clock 0
             {| estimatedHwcEndTime := commitStart; idleDuration := 0;
                previousValidGpuEndTime := None; estimatedGpuEndTime := None;
                firstGpuTimeline := None |} displayIds ;;
    let estimatedFlingerEndTime := mLastSfPresentEndTime f - idleDuration acc in
    let estimatedHwcEnd := estimatedHwcEndTime acc - idleDuration acc in
    let totalDuration :=
      mFrameDelayDuration f
      + Z.max estimatedHwcEnd (value_or (estimatedGpuEndTime acc) 0) - commitStart in
    let totalDurationWithoutGpu := mFrameDelayDuration f + estimatedHwcEnd - commitStart in
    let flingerDuration :=
      estimatedFlingerEndTime + mLastPostcompDuration f - commitStart in
    let estimatedGpuDuration :=
      match firstGpuTimeline acc with
      | Some first => value_or (estimatedGpuEndTime acc) 0 - Gpu.startTime first
      | None => 0
      end in
    combinedDuration <-
      combineTimingEstimates (mTargetDuration h) (mTotalFrameTargetDuration f)
        totalDuration flingerDuration ;;
    cpuDuration <-
      combineTimingEstimates (mTargetDuration h) (mTotalFrameTargetDuration f)
        totalDurationWithoutGpu flingerDuration ;;
    Done (Some {| timeStampNanos := clock (length displayIds);
                  durationNanos := combinedDuration;
                  workPeriodStartTimestampNanos := commitStart;
                  cpuDurationNanos := if adpf_gpu_sf cfg then cpuDuration else 0;
                  gpuDurationNanos :=
                    if adpf_gpu_sf cfg then estimatedGpuDuration else 0 |}).

End Estimator.

(** ** Member functions as state transformers *)

(** A member function takes the object to a result and the object it
    leaves behind, or ends in undefined behaviour or an abort. *)
Definition M (A : Type) : Type := PowerAdvisor -> result (A * PowerAdvisor).

Definition ret {A} (a : A) : M A := fun s => Done (a, s).

Definition bind {A B} (m : M A) (k : A -> M B) : M B :=
  fun s => match m s with
           | Done (a, s') => k a s'
           | Undefined => Undefined
           | Fatal => Fatal
           end.

Notation "x <~ m ;; k" := (bind m (fun x => k))
  (at level 100, m at next level, right associativity).
Notation "m ;;; k" := (bind m (fun _ => k))
  (at level 100, right associativity).

Definition gets {A} (p : PowerAdvisor -> A) : M A := fun s => Done (p s, s).
Definition modify (u : PowerAdvisor -> PowerAdvisor) : M unit := fun s => Done (tt, u s).
Definition liftR {A} (r : result A) : M A :=
  fun s => match r with
           | Done a => Done (a, s)
           | Undefined => Undefined
           | Fatal => Fatal
           end.
Definition when (b : bool) (m : M unit) : M unit := if b then m else ret tt.

Definition onHint (u : HintState -> HintState) : PowerAdvisor -> PowerAdvisor :=
  fun s => set_hint (u (hint s)) s.
Definition onFrame (u : FrameState -> FrameState) : PowerAdvisor -> PowerAdvisor :=
  fun s => set_frame (u (frame s)) s.
Definition onBoost (u : BoostState -> BoostState) : PowerAdvisor -> PowerAdvisor :=
  fun s => set_boost (u (boost s)) s.

Section Engine.

Variable cfg : Config.
Variable hal : PowerHal.

(** A call on the HAL or on a session: the oracle gives the reply, and
    both are appended to the log.  The one-time [init()] of the controller
    in [getPowerHal] is not a call of its own. *)
Definition halCall (c : HalCall) : M HalResult :=
  fun s => let r := hal (halLog s) c in
           Done (r, set_halLog (halLog s ++ [(c, r)]) s).

(** [PowerAdvisor::onBootFinished] *)
Definition onBootFinished : M unit :=
  modify (onHint (set_mBootFinished true)).

(** [PowerAdvisor::supportsPowerHintSession] *)
Definition supportsPowerHintSession : M bool :=
  cached <~ gets (fun s => mSupportsHintSession (hint s)) ;;
  match cached with
  | Some b => ret b
  | None =>
      r <~ halCall GetHintSessionPreferredRate ;;
      modify (onHint (set_mSupportsHintSession (Some (isOk r)))) ;;;
      ret (isOk r)
  end.

(** [PowerAdvisor::usePowerHintSession] *)
Definition usePowerHintSession : M bool :=
  enabled <~ gets (fun s => mHintSessionEnabled (hint s)) ;;
  if value_or enabled false then supportsPowerHintSession else ret false.

(** [PowerAdvisor::shouldCreateSessionWithConfig] *)
Definition shouldCreateSessionWithConfig : M bool :=
  gets (fun s => mSessionConfigSupported (hint s) && adpf_use_fmq_channel cfg).

(** [PowerAdvisor::ensurePowerHintSessionRunning] *)
Definition ensurePowerHintSessionRunning : M bool :=
  session <~ gets (fun s => mHintSession (hint s)) ;;
  threadIds <~ gets (fun s => mHintSessionThreadIds (hint s)) ;;
  enter <~ (if negb (has_value session) && negb (bool_decide (threadIds = []))
            then usePowerHintSession else ret false) ;;
  when enter
    (withConfig <~ shouldCreateSessionWithConfig ;;
     when withConfig
       (target <~ gets (fun s => mTargetDuration (hint s)) ;;
        r <~ halCall (CreateHintSessionWithConfig threadIds target) ;;
        match r with
        | HalOk session => modify (onHint (set_mHintSession (Some session)))
        | _ =>
            first <~ gets (fun s => mFirstConfigSupportCheck (hint s)) ;;
            when (first || isUnsupported r)
              (modify (onHint (set_mSessionConfigSupported false)))
        end ;;;
        modify (onHint (set_mFirstConfigSupportCheck false))) ;;;
     session <~ gets (fun s => mHintSession (hint s)) ;;
     withConfig <~ shouldCreateSessionWithConfig ;;
     when (negb (has_value session) && negb withConfig)
       (target <~ gets (fun s => mTargetDuration (hint s)) ;;
        r <~ halCall (CreateHintSession threadIds target) ;;
        match r with
        | HalOk session => modify (onHint (set_mHintSession (Some session)))
        | _ => ret tt
        end)) ;;;
  session <~ gets (fun s => mHintSession (hint s)) ;;
  ret (has_value session).

(** A call through [mHintSession->]; the pointer is read when the call is
    made. *)
Definition onSession (call : SessionHandle -> HalCall) : M HalResult :=
  session <~ gets (fun s => mHintSession (hint s)) ;;
  handle <~ liftR (deref session) ;;
  halCall (call handle).

Definition dropSessionUnlessOk (r : HalResult) : M unit :=
  when (negb (isOk r)) (modify (onHint (set_mHintSession None))).

(** [PowerAdvisor::notifyCpuLoadUp] *)
Definition notifyCpuLoadUp : M unit :=
  booted <~ gets (fun s => mBootFinished (hint s)) ;;
  if negb booted then ret tt
  else
    use <~ usePowerHintSession ;;
    when use
      (running <~ ensurePowerHintSessionRunning ;;
       when running
         (r <~ onSession (fun h => SessionSendHint h CPU_LOAD_UP) ;;
          dropSessionUnlessOk r)).

(** [PowerAdvisor::notifyDisplayUpdateImminentAndCpuReset]; [now] is the
    reading of [systemTime()]. *)
Definition notifyDisplayUpdateImminentAndCpuReset (now : nsecs_t) : M unit :=
  booted <~ gets (fun s => mBootFinished (hint s)) ;;
  if negb booted then ret tt
  else
    send <~ gets (fun s => mSendUpdateImminent (boost s)) ;;
    modify (onBoost (set_mSendUpdateImminent false)) ;;;
    when send
      (use <~ usePowerHintSession ;;
       when use
         (running <~ ensurePowerHintSessionRunning ;;
          when running
            (r <~ onSession (fun h => SessionSendHint h CPU_LOAD_RESET) ;;
             dropSessionUnlessOk r)) ;;;
       supported <~ gets (fun s => mHasDisplayUpdateImminent (boost s)) ;;
       when supported
         (r <~ halCall SetBoostDisplayUpdateImminent ;;
          when (isUnsupported r)
            (modify (onBoost (set_mHasDisplayUpdateImminent false)))) ;;;
       when (negb (hasScreenUpdateTimer cfg))
         (modify (onBoost (set_mSendUpdateImminent true)))) ;;;
    when (hasScreenUpdateTimer cfg)
      (modify (onBoost (set_mLastScreenUpdatedTime now))).

(** The two callbacks the constructor hands to the screen-update timer.
    They run on the timer's thread, after [reset()] and after the timeout
    has elapsed without a newer update; there they are operations of
    their own.  The call back into SurfaceFlinger
    ([disableExpensiveRendering]) leaves this object as it is. *)
Definition timerResetCallback : M unit :=
  when (hasScreenUpdateTimer cfg) (modify (onBoost (set_mSendUpdateImminent false))).

Definition timerTimeoutCallback : M unit :=
  when (hasScreenUpdateTimer cfg) (modify (onBoost (set_mSendUpdateImminent true))).

(** [PowerAdvisor::setExpensiveRenderingExpected] *)
Definition setExpensiveRenderingExpected (displayId : DisplayId) (expected : bool) : M unit :=
  supported <~ gets (fun s => mHasExpensiveRendering (boost s)) ;;
  if negb supported then ret tt
  else
    modify (onBoost (fun b =>
      set_mExpensiveDisplays
        (if expected then {[displayId]} ∪ mExpensiveDisplays b
         else mExpensiveDisplays b ∖ {[displayId]}) b)) ;;;
    expects <~ gets (fun s => negb (bool_decide (mExpensiveDisplays (boost s) = ∅))) ;;
    notified <~ gets (fun s => mNotifiedExpensiveRendering (boost s)) ;;
    if eqb notified expects then ret tt
    else
      r <~ halCall (SetModeExpensiveRendering expects) ;;
      if negb (isOk r) then
        when (isUnsupported r) (modify (onBoost (set_mHasExpensiveRendering false)))
      else modify (onBoost (set_mNotifiedExpensiveRendering expects)).

(** [PowerAdvisor::updateTargetWorkDuration] *)
Definition updateTargetWorkDuration (targetDuration : Duration) : M unit :=
  use <~ usePowerHintSession ;;
  if negb use then ret tt
  else
    modify (onHint (set_mTargetDuration targetDuration)) ;;;
    lastSent <~ gets (fun s => mLastTargetDurationSent (hint s)) ;;
    if targetDuration =? lastSent then ret tt
    else
      running <~ ensurePowerHintSessionRunning ;;
      when running
        (modify (onHint (set_mLastTargetDurationSent targetDuration)) ;;;
         r <~ onSession (fun h => SessionUpdateTargetWorkDuration h targetDuration) ;;
         dropSessionUnlessOk r).

(** [PowerAdvisor::reportActualWorkDuration].  The wait on
    [mDelayReportActualMutexAcquisitonPromise] is a hook for tests
    ([mTimingTestingMode]) that only delays the call. *)
Definition reportActualWorkDuration (clock : nat -> TimePoint) : M unit :=
  booted <~ gets (fun s => mBootFinished (hint s)) ;;
  proceed <~ (if booted && sUseReportActualDuration cfg then usePowerHintSession
              else ret false) ;;
  if negb proceed then ret tt
  else
    estimate <~ (fun s => liftR (estimateWorkDuration cfg (hint s) (frame s) clock) s) ;;
    match estimate with
    | None => ret tt
    | Some actual =>
        if durationNanos actual <? 0 then ret tt
        else
          let actualDuration :=
            set_durationNanos (durationNanos actual + sTargetSafetyMargin cfg) actual in
          running <~ ensurePowerHintSessionRunning ;;
          if negb running then ret tt
          else
            modify (onHint (fun h =>
              set_mHintSessionQueue (mHintSessionQueue h ++ [actualDuration]) h)) ;;;
            queue <~ gets (fun s => mHintSessionQueue (hint s)) ;;
            r <~ onSession (fun h => SessionReportActualWorkDuration h queue) ;;
            if negb (isOk r) then modify (onHint (set_mHintSession None))
            else modify (onHint (set_mHintSessionQueue []))
    end.

(** [PowerAdvisor::enablePowerHintSession] *)
Definition enablePowerHintSession (enabled : bool) : M unit :=
  modify (onHint (set_mHintSessionEnabled (Some enabled))).

(** [PowerAdvisor::startPowerHintSession] *)
Definition startPowerHintSession (threadIds : list Z) : M bool :=
  modify (onHint (set_mHintSessionThreadIds threadIds)) ;;;
  booted <~ gets (fun s => mBootFinished (hint s)) ;;
  if negb booted then ret false
  else
    use <~ usePowerHintSession ;;
    if negb use then ret false
    else if bool_decide (threadIds = []) then liftR Fatal
    else
      session <~ gets (fun s => mHintSession (hint s)) ;;
      if has_value session then ret false
      else ensurePowerHintSessionRunning.

(** *** Timing setters *)

(** [mDisplayTimingData[displayId]]: the record of the display, created
    with the default values when the display has none yet. *)
Definition displayData (f : FrameState) (displayId : DisplayId) : DisplayTimingData :=
  default defaultDisplayTimingData (mDisplayTimingData f !! displayId).

Definition storeDisplayData (displayId : DisplayId) (d : DisplayTimingData)
    (f : FrameState) : FrameState :=
  set_mDisplayTimingData (<[displayId := d]> (mDisplayTimingData f)) f.

(** The loop over [mDisplayTimingData] that [setGpuStartTime] and
    [setGpuFenceTime] share: the end time of the first record whose
    last-valid interval contains [gpuStart], if there is one.  The loop of
    [setGpuStartTime] skips a record when either of its last-valid times
    is missing ([checksEnd = true]); the loop of [setGpuFenceTime] only
    looks at the start time ([checksEnd = false]) and reads the end time
    whatever it holds. *)
Fixpoint overlappingGpuEnd (checksEnd : bool) (gpuStart : option TimePoint)
    (others : list DisplayTimingData) : result (option TimePoint) :=
  match others with
  | [] => Done None
  | other :: rest =>
      if negb (has_value (lastValidGpuStartTime other))
         || (checksEnd && negb (has_value (lastValidGpuEndTime other)))
      then overlappingGpuEnd checksEnd gpuStart rest
      else
        otherStart <- deref (lastValidGpuStartTime other) ;;
        start <- deref gpuStart ;;
        if otherStart <? start then
          otherEnd <- deref (lastValidGpuEndTime other) ;;
          if otherEnd >? start then Done (Some otherEnd)
          else overlappingGpuEnd checksEnd gpuStart rest
        else overlappingGpuEnd checksEnd gpuStart rest
  end.

(** The block both setters run when the fence of the previous frame has
    signaled: the previous frame becomes the last valid one, and its
    start is moved to the end of another display's last valid interval
    that contains it.  The record is an element of the map, so the loop
    sees it with the new last-valid times. *)
Definition promoteLastValid (checksEnd : bool) (f : FrameState) (displayId : DisplayId)
    (d : DisplayTimingData) (signalTime : nsecs_t) : result DisplayTimingData :=
  let d1 := set_lastValidGpuEndTime (Some signalTime)
              (set_lastValidGpuStartTime (gpuStartTime d) d) in
  let records := (map_to_list (<[displayId := d1]> (mDisplayTimingData f))).*2 in
  found <- overlappingGpuEnd checksEnd (gpuStartTime d1) records ;;
  match found with
  | Some otherEnd => Done (set_lastValidGpuStartTime (Some otherEnd) d1)
  | None => Done d1
  end.

(** [PowerAdvisor::setGpuStartTime] *)
Definition setGpuStartTime (displayId : DisplayId) (startTime : TimePoint) : M unit :=
  f <~ gets frame ;;
  let d := displayData f displayId in
  d' <~ liftR
    (match gpuEndFenceTime d with
     | Some signalTime =>
         d1 <- (if signaled signalTime
                then promoteLastValid true f displayId d signalTime
                else Done d) ;;
         Done (set_gpuEndFenceTime None d1)
     | None => Done d
     end) ;;
  modify (onFrame (storeDisplayData displayId (set_gpuStartTime (Some startTime) d'))).

(** [PowerAdvisor::setGpuFenceTime]; [fenceTime] is the fence handed
    over (null, or what polling it returns) and [now] the reading of
    [TimePoint::now()]. *)
Definition setGpuFenceTime (displayId : DisplayId) (fenceTime : option nsecs_t)
    (now : TimePoint) : M unit :=
  f <~ gets frame ;;
  let d := displayData f displayId in
  d' <~ liftR
    (match gpuEndFenceTime d with
     | Some signalTime =>
         if negb (adpf_gpu_sf cfg) && signaled signalTime
         then promoteLastValid false f displayId d signalTime
         else Done d
     | None => Done d
     end) ;;
  let d'' := set_gpuEndFenceTime fenceTime d' in
  modify (onFrame (storeDisplayData displayId
    (if negb (adpf_gpu_sf cfg) then set_gpuStartTime (Some now) d'' else d''))).

(** A pending fence resolves between two calls: from then on polling it
    returns [signalTime]. *)
Definition gpuFenceResolves (displayId : DisplayId) (signalTime : nsecs_t) : M unit :=
  f <~ gets frame ;;
  match mDisplayTimingData f !! displayId with
  | Some d =>
      when (bool_decide (gpuEndFenceTime d = Some SIGNAL_TIME_PENDING))
        (modify (onFrame (storeDisplayData displayId
                            (set_gpuEndFenceTime (Some signalTime) d))))
  | None => ret tt
  end.

Definition updateDisplay (displayId : DisplayId)
    (u : DisplayTimingData -> DisplayTimingData) : M unit :=
  modify (onFrame (fun f => storeDisplayData displayId (u (displayData f displayId)) f)).

(** [PowerAdvisor::setHwcValidateTiming] *)
Definition setHwcValidateTiming (displayId : DisplayId)
    (validateStartTime validateEndTime : TimePoint) : M unit :=
  updateDisplay displayId (fun d =>
    set_hwcValidateEndTime (Some validateEndTime)
      (set_hwcValidateStartTime (Some validateStartTime) d)).

(** [PowerAdvisor::setHwcPresentTiming] *)
Definition setHwcPresentTiming (displayId : DisplayId)
    (presentStartTime presentEndTime : TimePoint) : M unit :=
  updateDisplay displayId (fun d =>
    set_hwcPresentEndTime (Some presentEndTime)
      (set_hwcPresentStartTime (Some presentStartTime) d)).

(** [PowerAdvisor::setSkippedValidate] *)
Definition setSkippedValidate (displayId : DisplayId) (skipped : bool) : M unit :=
  updateDisplay displayId (set_skippedValidate skipped).

(** [PowerAdvisor::setRequiresRenderEngine] *)
Definition setRequiresRenderEngine (displayId : DisplayId) (requires : bool) : M unit :=
  updateDisplay displayId (set_requiresRenderEngine requires).

(** [PowerAdvisor::setHwcPresentDelayedTime] *)
Definition setHwcPresentDelayedTime (displayId : DisplayId)
    (earliestFrameStartTime : TimePoint) : M unit :=
  updateDisplay displayId (set_hwcPresentDelayedTime (Some earliestFrameStartTime)).

(** [PowerAdvisor::setExpectedPresentTime] *)
Definition setExpectedPresentTime (expectedPresentTime : TimePoint) : M unit :=
  modify (onFrame (fun f =>
    set_mExpectedPresentTimes
      (RingBuffer.append (kRingCapacity cfg) expectedPresentTime (mExpectedPresentTimes f)) f)).

(** [PowerAdvisor::setSfPresentTiming] *)
Definition setSfPresentTiming (presentFenceTime presentEndTime : TimePoint) : M unit :=
  modify (onFrame (fun f =>
    set_mLastSfPresentEndTime presentEndTime
      (set_mLastPresentFenceTime presentFenceTime f))).

(** [PowerAdvisor::setFrameDelay] *)
Definition setFrameDelay (frameDelayDuration : Duration) : M unit :=
  modify (onFrame (set_mFrameDelayDuration frameDelayDuration)).

(** [PowerAdvisor::setCommitStart] *)
Definition setCommitStart (commitStartTime : TimePoint) : M unit :=
  modify (onFrame (fun f =>
    set_mCommitStartTimes
      (RingBuffer.append (kRingCapacity cfg) commitStartTime (mCommitStartTimes f)) f)).

(** [PowerAdvisor::setCompositeEnd] *)
Definition setCompositeEnd (compositeEndTime : TimePoint) : M unit :=
  modify (onFrame (fun f =>
    set_mLastPostcompDuration (compositeEndTime - mLastSfPresentEndTime f) f)).

(** [PowerAdvisor::setDisplays] *)
Definition setDisplays (displayIds : list DisplayId) : M unit :=
  modify (onFrame (set_mDisplayIds displayIds)).

(** [PowerAdvisor::setTotalFrameTargetWorkDuration] *)
Definition setTotalFrameTargetWorkDuration (targetDuration : Duration) : M unit :=
  modify (onFrame (set_mTotalFrameTargetDuration (Some targetDuration))).

(** *** Operations

    What can happen to the object: a call of one of its public member
    functions with its arguments and the clock readings it takes, a
    callback of the screen-update timer, or a pending GPU fence
    resolving. *)
Inductive Op : Type :=
| OnBootFinished
| EnablePowerHintSession (enabled : bool)
| StartPowerHintSession (threadIds : list Z)
| UpdateTargetWorkDuration (targetDuration : Duration)
| ReportActualWorkDuration (clock : nat -> TimePoint)
| NotifyCpuLoadUp
| NotifyDisplayUpdateImminentAndCpuReset (now : nsecs_t)
| SetExpensiveRenderingExpected (displayId : DisplayId) (expected : bool)
| TimerResetCallback
| TimerTimeoutCallback
| SetGpuStartTime (displayId : DisplayId) (startTime : TimePoint)
| SetGpuFenceTime (displayId : DisplayId) (fenceTime : option nsecs_t) (now : TimePoint)
| GpuFenceResolves (displayId : DisplayId) (signalTime : nsecs_t)
| SetHwcValidateTiming (displayId : DisplayId) (validateStartTime validateEndTime : TimePoint)
| SetHwcPresentTiming (displayId : DisplayId) (presentStartTime presentEndTime : TimePoint)
| SetSkippedValidate (displayId : DisplayId) (skipped : bool)
| SetRequiresRenderEngine (displayId : DisplayId) (requires : bool)
| SetHwcPresentDelayedTime (displayId : DisplayId) (earliestFrameStartTime : TimePoint)
| SetExpectedPresentTime (expectedPresentTime : TimePoint)
| SetSfPresentTiming (presentFenceTime presentEndTime : TimePoint)
| SetFrameDelay (frameDelayDuration : Duration)
| SetCommitStart (commitStartTime : TimePoint)
| SetCompositeEnd (compositeEndTime : TimePoint)
| SetDisplays (displayIds : list DisplayId)
| SetTotalFrameTargetWorkDuration (targetDuration : Duration).

Definition discard {A} (m : M A) : M unit := m ;;; ret tt.

Definition step (op : Op) : M unit :=
  match op with
  | OnBootFinished => onBootFinished
  | EnablePowerHintSession enabled => enablePowerHintSession enabled
  | StartPowerHintSession threadIds => discard (startPowerHintSession threadIds)
  | UpdateTargetWorkDuration targetDuration => updateTargetWorkDuration targetDuration
  | ReportActualWorkDuration clock => reportActualWorkDuration clock
  | NotifyCpuLoadUp => notifyCpuLoadUp
  | NotifyDisplayUpdateImminentAndCpuReset now => notifyDisplayUpdateImminentAndCpuReset now
  | SetExpensiveRenderingExpected displayId expected =>
      setExpensiveRenderingExpected displayId expected
  | TimerResetCallback => timerResetCallback
  | TimerTimeoutCallback => timerTimeoutCallback
  | SetGpuStartTime displayId startTime => setGpuStartTime displayId startTime
  | SetGpuFenceTime displayId fenceTime now => setGpuFenceTime displayId fenceTime now
  | GpuFenceResolves displayId signalTime => gpuFenceResolves displayId signalTime
  | SetHwcValidateTiming displayId validateStartTime validateEndTime =>
      setHwcValidateTiming displayId validateStartTime validateEndTime
  | SetHwcPresentTiming displayId presentStartTime presentEndTime =>
      setHwcPresentTiming displayId presentStartTime presentEndTime
  | SetSkippedValidate displayId skipped => setSkippedValidate displayId skipped
  | SetRequiresRenderEngine displayId requires => setRequiresRenderEngine displayId requires
  | SetHwcPresentDelayedTime displayId earliestFrameStartTime =>
      setHwcPresentDelayedTime displayId earliestFrameStartTime
  | SetExpectedPresentTime expectedPresentTime => setExpectedPresentTime expectedPresentTime
  | SetSfPresentTiming presentFenceTime presentEndTime =>
      setSfPresentTiming presentFenceTime presentEndTime
  | SetFrameDelay frameDelayDuration => setFrameDelay frameDelayDuration
  | SetCommitStart commitStartTime => setCommitStart commitStartTime
  | SetCompositeEnd compositeEndTime => setCompositeEnd compositeEndTime
  | SetDisplays displayIds => setDisplays displayIds
  | SetTotalFrameTargetWorkDuration targetDuration =>
      setTotalFrameTargetWorkDuration targetDuration
  end.

(** The object after a sequence of operations. *)
Fixpoint run (ops : list Op) (s : PowerAdvisor) : result PowerAdvisor :=
  match ops with
  | [] => Done s
  | op :: rest =>
      match step op s with
      | Done (_, s') => run rest s'
      | Undefined => Undefined
      | Fatal => Fatal
      end
  end.

End Engine.

(** ** A newly constructed object *)

(** Modelled from the spec: the object as constructed.  The constructor
    in this file sets no member that takes part in the properties below,
    and the in-class initialisers are declared in [PowerAdvisor.h], which
    is not among the sources.  The design document has the session state
    machine start disabled: the boot gate is closed, the feature has not
    been switched on, no support probe is cached, the configuration path
    has not been tried, there is no session and no thread id, and no timing
    has been recorded.  [target] is the default target duration both
    duration members start from. *)
Definition initial (target : Duration) : PowerAdvisor :=
  {| hint := {| mBootFinished := false;
                mHintSessionEnabled := None;
                mSupportsHintSession := None;
                mSessionConfigSupported := true;
                mFirstConfigSupportCheck := true;
                mHintSession := None;
                mHintSessionThreadIds := [];
                mTargetDuration := target;
                mLastTargetDurationSent := target;
                mHintSessionQueue := [] |};
     frame := {| mDisplayTimingData := ∅;
                 mDisplayIds := [];
                 mExpectedPresentTimes := [];
                 mCommitStartTimes := [];
                 mLastPresentFenceTime := 0;
                 mLastSfPresentEndTime := 0;
                 mLastPostcompDuration := 0;
                 mFrameDelayDuration := 0;
                 mTotalFrameTargetDuration := None |};
     boost := {| mHasExpensiveRendering := true;
                 mNotifiedExpensiveRendering := false;
                 mExpensiveDisplays := ∅;
                 mHasDisplayUpdateImminent := true;
                 mSendUpdateImminent := true;
                 mLastScreenUpdatedTime := 0 |};
     halLog := [] |}.


(** * Properties *)

(** ** Vocabulary of the statements *)

(** The timestamps [calculateDisplayTimeline] reads are set. *)
Definition timestampsSet (d : DisplayTimingData) : Prop :=
  is_Some (hwcPresentStartTime d) /\ is_Some (hwcPresentEndTime d) /\
  (skippedValidate d = true ->
   is_Some (hwcValidateStartTime d) /\ is_Some (hwcValidateEndTime d)).

(** The guard at the head of [estimateGpuTiming]. *)
Definition gpuTimingGuard (d : DisplayTimingData) : bool :=
  requiresRenderEngine d && has_value (lastValidGpuStartTime d)
  && has_value (gpuEndFenceTime d).

(** The design document on [estimateGpuTiming]: a value is produced exactly
    when the display needs the render engine, has a GPU start time recorded
    and has its end fence set. *)
Definition gpuTimingIffStartRecorded : Prop :=
  forall d previousEndTime now,
    (exists g, estimateGpuTiming d previousEndTime now = Done (Some g)) <->
    (requiresRenderEngine d = true /\ is_Some (gpuStartTime d) /\
     is_Some (gpuEndFenceTime d)).

(** The values the loop of [estimateWorkDuration] starts from. *)
Definition startOfWalk (commitStart : TimePoint) : Walk :=
  {| estimatedHwcEndTime := commitStart; idleDuration := 0;
     previousValidGpuEndTime := None; estimatedGpuEndTime := None;
     firstGpuTimeline := None |}.

(** The predicted hwc present end times of the displays the loop walks, in
    the order it walks them. *)
Definition predictedEnds (cfg : Config) (f : FrameState) (displayIds : list DisplayId)
  : list TimePoint :=
  omap (fun id =>
          match mDisplayTimingData f !! id with
          | Some d =>
              match calculateDisplayTimeline cfg d (mLastPresentFenceTime f) with
              | Done tl => Some (Timeline.hwcPresentEndTime tl)
              | _ => None
              end
          | None => None
          end) displayIds.

Fixpoint maximum (l : list TimePoint) : option TimePoint :=
  match l with
  | [] => None
  | x :: rest => Some (match maximum rest with
                       | Some m => Z.max x m
                       | None => x
                       end)
  end.

(** Every record the loop reads can be read: its timestamps are set, and
    its GPU start is recorded when the guard of [estimateGpuTiming]
    holds. *)
Definition walkable (f : FrameState) (displayIds : list DisplayId) : Prop :=
  forall id d, id ∈ displayIds -> mDisplayTimingData f !! id = Some d ->
    timestampsSet d /\ (gpuTimingGuard d = true -> is_Some (gpuStartTime d)).

(** The design document on the walk: the accumulated hwc end time is the
    maximum of the predicted end times. *)
Definition hwcEndIsMaximum : Prop :=
  forall cfg f clock commitStart acc latest,
    let displayIds := getOrderedDisplayIds hwcPresentStartTime f in
    walkDisplays cfg f clock 0 (startOfWalk commitStart) displayIds = Done acc ->
    maximum (predictedEnds cfg f displayIds) = Some latest ->
    estimatedHwcEndTime acc = latest.

(** The design document on [combineTimingEstimates], for every input. *)
Definition combineIsExact : Prop :=
  forall target totalFrameTarget total flinger,
    combineTimingEstimates target totalFrameTarget total flinger =
    Done (match totalFrameTarget with
          | None => flinger
          | Some t => Z.max flinger ((target * total) ÷ t)
          end).

(** The last-valid GPU times of a display, and the fence it has recorded;
    a display without a record has neither. *)
Definition lastValidPair (f : FrameState) (displayId : DisplayId)
  : option TimePoint * option TimePoint :=
  match mDisplayTimingData f !! displayId with
  | Some d => (lastValidGpuStartTime d, lastValidGpuEndTime d)
  | None => (None, None)
  end.

Definition recordedFence (f : FrameState) (displayId : DisplayId) : option nsecs_t :=
  match mDisplayTimingData f !! displayId with
  | Some d => gpuEndFenceTime d
  | None => None
  end.

Definition fenceHasSignaled (f : FrameState) (displayId : DisplayId) : Prop :=
  exists signalTime, recordedFence f displayId = Some signalTime /\
                     signaled signalTime = true.

(** In every record, a last-valid GPU start time comes with a recorded GPU
    start time. *)
Definition recordsConsistent (f : FrameState) : Prop :=
  forall displayId d,
    mDisplayTimingData f !! displayId = Some d ->
    is_Some (lastValidGpuStartTime d) -> is_Some (gpuStartTime d).

(** Kinds of calls. *)
Definition isConfigCreation (c : HalCall) : bool :=
  match c with CreateHintSessionWithConfig _ _ => true | _ => false end.

Definition isCreation (c : HalCall) : bool :=
  match c with
  | CreateHintSessionWithConfig _ _ | CreateHintSession _ _ => true
  | _ => false
  end.

Definition isTargetUpdate (c : HalCall) : bool :=
  match c with SessionUpdateTargetWorkDuration _ _ => true | _ => false end.

Definition creationThreadIds (c : HalCall) : list Z :=
  match c with
  | CreateHintSessionWithConfig threadIds _ | CreateHintSession threadIds _ => threadIds
  | _ => []
  end.

(** The calls made on the way from [s] to [s'], with their replies. *)
Definition callsBetween (s s' : PowerAdvisor) : list (HalCall * HalResult) :=
  drop (length (halLog s)) (halLog s').

(** The creations with configuration among a list of calls. *)
Definition configAttempts (l : list (HalCall * HalResult)) : list (HalCall * HalResult) :=
  filter (fun e => isConfigCreation e.1 = true) l.
Arguments configAttempts : simpl never.

(** [s] is reached from a newly constructed object without any creation
    with configuration: the next one is the first attempt. *)
Definition firstAttemptFrom (cfg : Config) (hal : PowerHal) (s : PowerAdvisor) : Prop :=
  exists target ops,
    run cfg hal ops (initial target) = Done s /\ configAttempts (halLog s) = [].

(** The [updateTargetWorkDuration] calls among them. *)
Definition targetUpdates (l : list (HalCall * HalResult)) : list (HalCall * HalResult) :=
  filter (fun e => isTargetUpdate e.1 = true) l.

(** Every [updateTargetWorkDuration] among the operations asks for [t]. *)
Definition sameTargetOnly (t : Duration) (op : Op) : Prop :=
  forall t', op = UpdateTargetWorkDuration t' -> t' = t.


(** What [usePowerHintSession] and [ensurePowerHintSessionRunning] may
    change: four members and the log. *)
Definition withSession (supports : option bool) (configSupported firstCheck : bool)
    (session : option SessionHandle) (l : list (HalCall * HalResult))
    (s : PowerAdvisor) : PowerAdvisor :=
  set_halLog (halLog s ++ l)
    (onHint (fun h => set_mSupportsHintSession supports
                        (set_mSessionConfigSupported configSupported
                           (set_mFirstConfigSupportCheck firstCheck
                              (set_mHintSession session h)))) s).

(** The calls [ensurePowerHintSessionRunning] may make from [s]. *)
Definition creationEntry (s : PowerAdvisor) (e : HalCall * HalResult) : Prop :=
  match e.1 with
  | GetHintSessionPreferredRate => True
  | CreateHintSessionWithConfig threadIds target =>
      threadIds = mHintSessionThreadIds (hint s) /\ threadIds <> [] /\
      target = mTargetDuration (hint s) /\
      mSessionConfigSupported (hint s) = true
  | CreateHintSession threadIds target =>
      threadIds = mHintSessionThreadIds (hint s) /\ threadIds <> [] /\
      target = mTargetDuration (hint s)
  | _ => False
  end.

(** The gate in front of session creation: every operation but
    [updateTargetWorkDuration] reads [mBootFinished] first. *)
Definition creationGate (op : Op) (s : PowerAdvisor) : Prop :=
  mBootFinished (hint s) = true \/ exists t, op = UpdateTargetWorkDuration t.

(** What one operation may call from [s]. *)
Definition allowedEntry (op : Op) (s : PowerAdvisor) (e : HalCall * HalResult) : Prop :=
  match e.1 with
  | CreateHintSessionWithConfig threadIds _ =>
      threadIds <> [] /\ mSessionConfigSupported (hint s) = true /\ creationGate op s
  | CreateHintSession threadIds _ => threadIds <> [] /\ creationGate op s
  | SessionUpdateTargetWorkDuration _ t =>
      op = UpdateTargetWorkDuration t /\ t <> mLastTargetDurationSent (hint s)
  | _ => True
  end.

(** The operations that write timing data. *)
Definition touchesFrame (op : Op) : bool :=
  match op with
  | OnBootFinished | EnablePowerHintSession _ | StartPowerHintSession _
  | UpdateTargetWorkDuration _ | ReportActualWorkDuration _ | NotifyCpuLoadUp
  | NotifyDisplayUpdateImminentAndCpuReset _ | SetExpensiveRenderingExpected _ _
  | TimerResetCallback | TimerTimeoutCallback => false
  | _ => true
  end.

(** What one operation does to the log and to the members the session
    properties depend on. *)
Definition stepFacts (op : Op) (s s' : PowerAdvisor) : Prop :=
  exists l,
    halLog s' = halLog s ++ l /\
    Forall (allowedEntry op s) l /\
    (mSessionConfigSupported (hint s) = false ->
     mSessionConfigSupported (hint s') = false) /\
    (forall threadIds target r,
       (CreateHintSessionWithConfig threadIds target, r) ∈ l ->
       isOk r = false ->
       mFirstConfigSupportCheck (hint s) = true \/ r = HalUnsupported ->
       mSessionConfigSupported (hint s') = false) /\
    (mFirstConfigSupportCheck (hint s) = true ->
     mFirstConfigSupportCheck (hint s') = true \/ configAttempts l <> []) /\
    (length (configAttempts l) <= 1)%nat /\
    (mLastTargetDurationSent (hint s') = mLastTargetDurationSent (hint s) \/
     op = UpdateTargetWorkDuration (mLastTargetDurationSent (hint s'))) /\
    (touchesFrame op = true \/ frame s' = frame s).

(** ** Vocabulary of the further properties *)

(** The optionals [calculateDisplayTimeline] dereferences hold a value:
    the pair of timestamps chosen by [skippedValidate], the present start
    when a delayed time is recorded, and the present end when that delayed
    time is later than the present start. *)
Definition timelineReadable (d : DisplayTimingData) : bool :=
  (if skippedValidate d
   then has_value (hwcValidateStartTime d) && has_value (hwcValidateEndTime d)
   else has_value (hwcPresentStartTime d) && has_value (hwcPresentEndTime d))
  && match hwcPresentDelayedTime d with
     | None => true
     | Some delayed =>
         match hwcPresentStartTime d with
         | None => false
         | Some start =>
             if delayed >? start then has_value (hwcPresentEndTime d) else true
         end
     end.

(** The timestamp [getOrderedDisplayIds] orders a display by: the chosen
    member of the display's record, when the display has a record and the
    member is set. *)
Definition sortKey (sortBy : DisplayTimingData -> option TimePoint) (f : FrameState)
    (id : DisplayId) : option TimePoint :=
  mDisplayTimingData f !! id ≫= sortBy.

(** The displays [std::copy_if] keeps in [getOrderedDisplayIds], each with
    the timestamp it is ordered by. *)
Definition keyedDisplays (sortBy : DisplayTimingData -> option TimePoint)
    (f : FrameState) (displayIds : list DisplayId) : list (TimePoint * DisplayId) :=
  omap (fun id =>
          match mDisplayTimingData f !! id with
          | Some d => match sortBy d with
                      | Some key => Some (key, id)
                      | None => None
                      end
          | None => None
          end) displayIds.

(** The display whose record a timing setter writes through
    [mDisplayTimingData[displayId]]. *)
Definition recordWritten (op : Op) : option DisplayId :=
  match op with
  | SetGpuStartTime displayId _ | SetGpuFenceTime displayId _ _
  | SetHwcValidateTiming displayId _ _ | SetHwcPresentTiming displayId _ _
  | SetSkippedValidate displayId _ | SetRequiresRenderEngine displayId _
  | SetHwcPresentDelayedTime displayId _ => Some displayId
  | _ => None
  end.

(** The display whose record an operation may change: the one a setter
    writes, or the one whose pending fence resolves. *)
Definition recordTouched (op : Op) : option DisplayId :=
  match op with
  | GpuFenceResolves displayId _ => Some displayId
  | _ => recordWritten op
  end.

(** In every record, a fence comes with a recorded GPU start time and a
    last-valid GPU start time comes with a last-valid GPU end time. *)
Definition gpuRecordsReady (f : FrameState) : Prop :=
  forall displayId d,
    mDisplayTimingData f !! displayId = Some d ->
    (is_Some (gpuEndFenceTime d) -> is_Some (gpuStartTime d)) /\
    (is_Some (lastValidGpuStartTime d) -> is_Some (lastValidGpuEndTime d)).

(** The order of calls the GPU setters rely on when [adpf_gpu_sf] is on:
    a fence is handed over for a display whose GPU start time is recorded.
    With the flag off [setGpuFenceTime] records the start time itself. *)
Definition fenceAfterStart (cfg : Config) (s : PowerAdvisor) (op : Op) : Prop :=
  match op with
  | SetGpuFenceTime displayId _ _ =>
      adpf_gpu_sf cfg = true ->
      is_Some (gpuStartTime (displayData (frame s) displayId))
  | _ => True
  end.

(** The operations that run the promotion of the previous frame for a
    display: [setGpuStartTime], and [setGpuFenceTime] when [adpf_gpu_sf] is
    off. *)
Definition promotes (cfg : Config) (op : Op) (displayId : DisplayId) : Prop :=
  match op with
  | SetGpuStartTime id _ => id = displayId
  | SetGpuFenceTime id _ _ => id = displayId /\ adpf_gpu_sf cfg = false
  | _ => False
  end.

(** The support probes among a list of calls. *)
Definition isProbe (c : HalCall) : bool :=
  match c with GetHintSessionPreferredRate => true | _ => false end.

Definition probes (l : list (HalCall * HalResult)) : list (HalCall * HalResult) :=
  filter (fun e => isProbe e.1 = true) l.
Arguments probes : simpl never.

(** Whether the answer of the support probe is cached, as a number. *)
Definition cachedAnswers (supports : option bool) : nat :=
  match supports with Some _ => 1 | None => 0 end.

(** The session a call is made on. *)
Definition sessionOf (c : HalCall) : option SessionHandle :=
  match c with
  | SessionUpdateTargetWorkDuration session _ | SessionSendHint session _
  | SessionReportActualWorkDuration session _ => Some session
  | _ => None
  end.

(** What one operation does to the session: the calls it makes on a
    session are made on the session held before it or on one a creation
    call of the operation has returned; a session held before it is still
    held after it unless a call on it failed; the session held after it was
    held before it or has been returned by a creation call; a creation call
    is made only when no session is held; and after a call on a session
    that session is held if the call succeeded and none if it failed. *)
Definition sessionFacts (s s' : PowerAdvisor) : Prop :=
  exists l,
    halLog s' = halLog s ++ l /\
    (forall c r h,
       (c, r) ∈ l -> sessionOf c = Some h ->
       mHintSession (hint s) = Some h \/
       (mHintSession (hint s) = None /\
        exists c', isCreation c' = true /\ (c', HalOk h) ∈ l)) /\
    (forall h,
       mHintSession (hint s) = Some h ->
       mHintSession (hint s') = Some h \/
       (mHintSession (hint s') = None /\
        exists c r, (c, r) ∈ l /\ sessionOf c = Some h /\ isOk r = false)) /\
    (forall v,
       mHintSession (hint s') = Some v ->
       mHintSession (hint s) = Some v \/
       exists c, isCreation c = true /\ (c, HalOk v) ∈ l) /\
    (forall c r,
       (c, r) ∈ l -> isCreation c = true -> mHintSession (hint s) = None) /\
    (forall c r h,
       (c, r) ∈ l -> sessionOf c = Some h ->
       mHintSession (hint s') = (if isOk r then Some h else None)).

(** Every call on a session among the calls succeeded. *)
Definition sessionCallsSucceed (l : list (HalCall * HalResult)) : Prop :=
  Forall (fun e => is_Some (sessionOf e.1) -> isOk e.2 = true) l.

(** The calls of hint-session negotiation: the support probe and the two
    creation calls. *)
Definition isNegotiation (c : HalCall) : bool :=
  isProbe c || isCreation c.

(** The [setMode(EXPENSIVE_RENDERING, _)] calls among a list of calls. *)
Definition isModeCall (c : HalCall) : bool :=
  match c with SetModeExpensiveRendering _ => true | _ => false end.

Definition modeCalls (l : list (HalCall * HalResult)) : list (HalCall * HalResult) :=
  filter (fun e => isModeCall e.1 = true) l.
Arguments modeCalls : simpl never.

(** The [setBoost(DISPLAY_UPDATE_IMMINENT)] calls among them. *)
Definition isBoostCall (c : HalCall) : bool :=
  match c with SetBoostDisplayUpdateImminent => true | _ => false end.

Definition boostCalls (l : list (HalCall * HalResult)) : list (HalCall * HalResult) :=
  filter (fun e => isBoostCall e.1 = true) l.
Arguments boostCalls : simpl never.

(** The [CPU_LOAD_RESET] hints among them. *)
Definition isResetHint (c : HalCall) : bool :=
  match c with SessionSendHint _ CPU_LOAD_RESET => true | _ => false end.

Definition resetHints (l : list (HalCall * HalResult)) : list (HalCall * HalResult) :=
  filter (fun e => isResetHint e.1 = true) l.
Arguments resetHints : simpl never.

(** The mode the HAL has acknowledged after a list of calls, when it had
    acknowledged [notified] before them and every [setMode] call of the
    list asks for the opposite of the mode acknowledged when it is made;
    [None] when one of them repeats that mode. *)
Fixpoint modeAfter (notified : bool) (l : list (HalCall * HalResult)) : option bool :=
  match l with
  | [] => Some notified
  | (SetModeExpensiveRendering enabled, r) :: rest =>
      if eqb enabled notified then None
      else modeAfter (if isOk r then enabled else notified) rest
  | _ :: rest => modeAfter notified rest
  end.

(** Whether an update-imminent notification may be sent, as a number. *)
Definition pendingNotifications (s : PowerAdvisor) : nat :=
  if mSendUpdateImminent (boost s) then 1 else 0.

(** What one operation does to the members behind the expensive-rendering
    mode and the update-imminent boost. *)
Definition boostFacts (cfg : Config) (op : Op) (s s' : PowerAdvisor) : Prop :=
  exists l,
    halLog s' = halLog s ++ l /\
    (mHasExpensiveRendering (boost s) = false ->
     mHasExpensiveRendering (boost s') = false /\
     mExpensiveDisplays (boost s') = mExpensiveDisplays (boost s) /\
     modeCalls l = []) /\
    (forall enabled r,
       (SetModeExpensiveRendering enabled, r) ∈ l -> isUnsupported r = true ->
       mHasExpensiveRendering (boost s') = false) /\
    modeAfter (mNotifiedExpensiveRendering (boost s)) l =
      Some (mNotifiedExpensiveRendering (boost s')) /\
    (mHasDisplayUpdateImminent (boost s) = false ->
     mHasDisplayUpdateImminent (boost s') = false /\ boostCalls l = []) /\
    (forall r,
       (SetBoostDisplayUpdateImminent, r) ∈ l -> isUnsupported r = true ->
       mHasDisplayUpdateImminent (boost s') = false) /\
    (hasScreenUpdateTimer cfg = true -> op <> TimerTimeoutCallback ->
     (length (boostCalls l) + pendingNotifications s' <= pendingNotifications s)%nat /\
     (length (resetHints l) + pendingNotifications s' <= pendingNotifications s)%nat) /\
    (hasScreenUpdateTimer cfg = false ->
     mSendUpdateImminent (boost s) = true -> mSendUpdateImminent (boost s') = true).

(** The [reportActualWorkDuration] calls among a list of calls. *)
Definition isReport (c : HalCall) : bool :=
  match c with SessionReportActualWorkDuration _ _ => true | _ => false end.

Definition reportCalls (l : list (HalCall * HalResult)) : list (HalCall * HalResult) :=
  filter (fun e => isReport e.1 = true) l.
Arguments reportCalls : simpl never.

(** The duration [reportActualWorkDuration] queues for an estimate: the
    estimate with the safety margin added. *)
Definition withSafetyMargin (cfg : Config) (w : WorkDuration) : WorkDuration :=
  set_durationNanos (durationNanos w + sTargetSafetyMargin cfg) w.

(** What one operation does to the queue of durations and what it
    reports. *)
Definition reportFacts (cfg : Config) (op : Op) (s s' : PowerAdvisor) : Prop :=
  exists l,
    halLog s' = halLog s ++ l /\
    (length (reportCalls l) <= 1)%nat /\
    (reportCalls l = [] ->
     mHintSessionQueue (hint s') = mHintSessionQueue (hint s)) /\
    (forall h queue r,
       (SessionReportActualWorkDuration h queue, r) ∈ l ->
       mBootFinished (hint s) = true /\
       sUseReportActualDuration cfg = true /\
       (exists clock w,
          op = ReportActualWorkDuration clock /\
          estimateWorkDuration cfg (hint s) (frame s) clock = Done (Some w) /\
          0 <= durationNanos w /\
          queue = mHintSessionQueue (hint s) ++ [withSafetyMargin cfg w]) /\
       mHintSessionQueue (hint s') = (if isOk r then [] else queue)).

(** The operations that read optionals which may be empty: the estimator
    behind [reportActualWorkDuration] and the two GPU setters. *)
Definition readsOptionals (op : Op) : bool :=
  match op with
  | ReportActualWorkDuration _ | SetGpuStartTime _ _ | SetGpuFenceTime _ _ _ => true
  | _ => false
  end.

(** Hint sessions are in use on the object: the feature is switched on
    and the HAL supports it, by the cached answer or by the answer the
    probe gets now. *)
Definition sessionsInUse (hal : PowerHal) (s : PowerAdvisor) : Prop :=
  mHintSessionEnabled (hint s) = Some true /\
  match mSupportsHintSession (hint s) with
  | Some supported => supported = true
  | None => isOk (hal (halLog s) GetHintSessionPreferredRate) = true
  end.

(** The operations that read the boot gate before anything else. *)
Definition bootGated (op : Op) : bool :=
  match op with
  | ReportActualWorkDuration _ | NotifyCpuLoadUp
  | NotifyDisplayUpdateImminentAndCpuReset _ => true
  | _ => false
  end.

(** The calls that do not belong to hint sessions: the mode and the
    boost. *)
Definition isPowerHint (c : HalCall) : bool :=
  isModeCall c || isBoostCall c.

(** The target a creation call passes. *)
Definition creationTarget (c : HalCall) : option Z :=
  match c with
  | CreateHintSessionWithConfig _ target | CreateHintSession _ target => Some target
  | _ => None
  end.

(** What the creation calls of one operation carry, and how the legacy
    call follows the call with configuration. *)
Definition creationFacts (cfg : Config) (s s' : PowerAdvisor) : Prop :=
  exists l,
    halLog s' = halLog s ++ l /\
    (forall c r,
       (c, r) ∈ l -> isCreation c = true ->
       creationThreadIds c = mHintSessionThreadIds (hint s') /\
       creationTarget c = Some (mTargetDuration (hint s'))) /\
    (forall threadIds target r,
       (CreateHintSessionWithConfig threadIds target, r) ∈ l ->
       isOk r = false ->
       mSessionConfigSupported (hint s') = false ->
       exists r', (CreateHintSession threadIds target, r') ∈ l) /\
    (forall threadIds target r,
       (CreateHintSession threadIds target, r) ∈ l ->
       mSessionConfigSupported (hint s') && adpf_use_fmq_channel cfg = false) /\
    (forall threadIds target r,
       (CreateHintSessionWithConfig threadIds target, r) ∈ l ->
       adpf_use_fmq_channel cfg = true).

(** ** Concrete inputs *)

Definition exampleConfig : Config :=
  {| adpf_use_fmq_channel := true;
     adpf_gpu_sf := true;
     sUseReportActualDuration := true;
     sTargetSafetyMargin := 0;
     kFenceWaitStartDelayValidated := 150;
     kFenceWaitStartDelaySkippedValidate := 250;
     kRingCapacity := 1;
     hasScreenUpdateTimer := true |}.

(** A display in its first frame: the GPU start time is recorded and the
    end fence is set and pending, but no earlier frame has completed. *)
Definition firstFrameRecord : DisplayTimingData :=
  set_requiresRenderEngine true
    (set_gpuEndFenceTime (Some SIGNAL_TIME_PENDING)
       (set_gpuStartTime (Some 100) defaultDisplayTimingData)).

(** A display whose previous frame ran on the GPU from 1000 to 6000 and
    whose current frame started at 10000 with its fence still pending. *)
Definition pendingRecord : DisplayTimingData :=
  set_lastValidGpuEndTime (Some 6000)
    (set_lastValidGpuStartTime (Some 1000)
       (set_gpuStartTime (Some 10000) firstFrameRecord)).

(** A display presented from 1000 to 2000 without validate being skipped. *)
Definition presentedRecord : DisplayTimingData :=
  set_hwcPresentEndTime (Some 2000)
    (set_hwcPresentStartTime (Some 1000) defaultDisplayTimingData).

(** Two displays presented one after the other, the second finishing
    before the first: display 1 from 0 to 100, display 2 from 10 to 50.
    The frame was committed at 0, SurfaceFlinger finished presenting at 40,
    and the total-frame target equals the default target of 16 ms. *)
Definition overlappingFrame : FrameState :=
  {| mDisplayTimingData :=
       <[1%N := set_hwcPresentEndTime (Some 100)
                  (set_hwcPresentStartTime (Some 0) defaultDisplayTimingData)]>
         (<[2%N := set_hwcPresentEndTime (Some 50)
                     (set_hwcPresentStartTime (Some 10) defaultDisplayTimingData)]> ∅);
     mDisplayIds := [2%N; 1%N];
     mExpectedPresentTimes := [0];
     mCommitStartTimes := [0];
     mLastPresentFenceTime := 0;
     mLastSfPresentEndTime := 40;
     mLastPostcompDuration := 0;
     mFrameDelayDuration := 0;
     mTotalFrameTargetDuration := Some 16000000 |}.

(** A HAL on which every call succeeds; sessions get the handle 7. *)
Definition obligingHal : PowerHal := fun _ _ => HalOk 7.

(** A HAL without the configuration path. *)
Definition legacyOnlyHal : PowerHal :=
  fun _ c => match c with
             | CreateHintSessionWithConfig _ _ => HalUnsupported
             | _ => HalOk 7
             end.

(** A HAL whose configuration path fails without saying "unsupported". *)
Definition stubbornConfigHal : PowerHal :=
  fun _ c => match c with
             | CreateHintSessionWithConfig _ _ => HalFailed
             | _ => HalOk 7
             end.

(** A HAL on whose sessions the target cannot be updated. *)
Definition stubbornHal : PowerHal :=
  fun _ c => match c with
             | SessionUpdateTargetWorkDuration _ _ => HalFailed
             | _ => HalOk 7
             end.

(** The state a run leaves, or the state it started from when it does not
    end. *)
Definition stateAfter (cfg : Config) (hal : PowerHal) (ops : list Op) (s : PowerAdvisor)
  : PowerAdvisor :=
  match run cfg hal ops s with
  | Done s' => s'
  | _ => s
  end.

(** Default target of 16 ms, as for a 60 Hz display. *)
Definition freshAdvisor : PowerAdvisor := initial 16000000.

(** Booted, feature switched on, no thread registered yet. *)
Definition bootedAdvisor (hal : PowerHal) : PowerAdvisor :=
  stateAfter exampleConfig hal [OnBootFinished; EnablePowerHintSession true] freshAdvisor.

(** Booted and with a session for thread 1001. *)
Definition runningAdvisor (hal : PowerHal) : PowerAdvisor :=
  stateAfter exampleConfig hal [StartPowerHintSession [1001]] (bootedAdvisor hal).

(** Booted, with a session, and the target of 8333333 ns already sent. *)
Definition targetedAdvisor (hal : PowerHal) : PowerAdvisor :=
  stateAfter exampleConfig hal [UpdateTargetWorkDuration 8333333] (runningAdvisor hal).

(** The feature is switched on and a thread registered before boot has
    finished; then the target changes. *)
Definition earlyOps : list Op :=
  [EnablePowerHintSession true; StartPowerHintSession [1001];
   UpdateTargetWorkDuration 8333333].

(** Display 1 has rendered one frame whose fence signaled at 500. *)
Definition renderedOps : list Op :=
  [SetGpuStartTime 1%N 100; SetGpuFenceTime 1%N (Some 500) 0].

(** A display whose present call lasted from 1000 to 2000 and was held
    back until 1300 for the next vsync. *)
Definition delayedRecord : DisplayTimingData :=
  set_hwcPresentDelayedTime (Some 1300) presentedRecord.

(** A display that needs the render engine, whose previous frame ran on the
    GPU from 1000 to 6000 and whose current frame started at 10000 and had
    its fence signal at 15000. *)
Definition signaledRecord : DisplayTimingData :=
  set_gpuEndFenceTime (Some 15000) pendingRecord.

(** One display whose present call lasted from 1000 to 2000, was held back
    until 1300 and waited for the present fence of 1800; the frame was
    committed at 500 and SurfaceFlinger finished presenting at 2100.  No
    total-frame target is set. *)
Definition waitingFrame : FrameState :=
  {| mDisplayTimingData := <[1%N := delayedRecord]> ∅;
     mDisplayIds := [1%N];
     mExpectedPresentTimes := [0];
     mCommitStartTimes := [500];
     mLastPresentFenceTime := 1800;
     mLastSfPresentEndTime := 2100;
     mLastPostcompDuration := 0;
     mFrameDelayDuration := 0;
     mTotalFrameTargetDuration := None |}.

(** What [estimateWorkDuration] reports for that frame: 650 ns of idle
    time are taken off the 1600 ns from commit to the end of present. *)
Definition waitingEstimate : WorkDuration :=
  {| timeStampNanos := 0; durationNanos := 950;
     workPeriodStartTimestampNanos := 500;
     cpuDurationNanos := 950; gpuDurationNanos := 0 |}.

(** The configuration with GPU reporting switched off. *)
Definition cpuOnlyConfig : Config :=
  {| adpf_use_fmq_channel := true;
     adpf_gpu_sf := false;
     sUseReportActualDuration := true;
     sTargetSafetyMargin := 0;
     kFenceWaitStartDelayValidated := 150;
     kFenceWaitStartDelaySkippedValidate := 250;
     kRingCapacity := 1;
     hasScreenUpdateTimer := true |}.

(** A HAL without the expensive-rendering mode. *)
Definition modelessHal : PowerHal :=
  fun _ c => match c with
             | SetModeExpensiveRendering _ => HalUnsupported
             | _ => HalOk 7
             end.

(** A HAL without the update-imminent boost. *)
Definition boostlessHal : PowerHal :=
  fun _ c => match c with
             | SetBoostDisplayUpdateImminent => HalUnsupported
             | _ => HalOk 7
             end.

(** Two displays start to expect expensive rendering, then the first one
    stops. *)
Definition expensiveOps : list Op :=
  [SetExpensiveRenderingExpected 1%N true; SetExpensiveRenderingExpected 2%N true;
   SetExpensiveRenderingExpected 1%N false].

(** The screen is updated twice, 100 ns apart. *)
Definition updateOps : list Op :=
  [NotifyDisplayUpdateImminentAndCpuReset 100;
   NotifyDisplayUpdateImminentAndCpuReset 200].

(** A running session and one frame on record: committed at 0,
    SurfaceFlinger finished presenting at 2000. *)
Definition reportingAdvisor (hal : PowerHal) : PowerAdvisor :=
  stateAfter exampleConfig hal
    [SetExpectedPresentTime 16000; SetCommitStart 0; SetSfPresentTiming 1000 2000]
    (runningAdvisor hal).

(** The duration reported for that frame when the clock reads 3000. *)
Definition reportedDuration : WorkDuration :=
  {| timeStampNanos := 3000; durationNanos := 2000;
     workPeriodStartTimestampNanos := 0;
     cpuDurationNanos := 2000; gpuDurationNanos := 0 |}.

(** A HAL on whose sessions no duration can be reported. *)
Definition stubbornReportHal : PowerHal :=
  fun _ c => match c with
             | SessionReportActualWorkDuration _ _ => HalFailed
             | _ => HalOk 7
             end.


(** The configuration of a device whose update timeout is zero: the
    constructor creates no screen-update timer. *)
Definition untimedConfig : Config :=
  {| adpf_use_fmq_channel := true;
     adpf_gpu_sf := true;
     sUseReportActualDuration := true;
     sTargetSafetyMargin := 0;
     kFenceWaitStartDelayValidated := 150;
     kFenceWaitStartDelaySkippedValidate := 250;
     kRingCapacity := 1;
     hasScreenUpdateTimer := false |}.

(** ** Tactics *)

Ltac unfold_setters :=
  cbv beta delta [
    set_gpuEndFenceTime set_gpuStartTime set_lastValidGpuEndTime
    set_lastValidGpuStartTime set_hwcPresentStartTime set_hwcPresentEndTime
    set_hwcValidateStartTime set_hwcValidateEndTime set_hwcPresentDelayedTime
    set_requiresRenderEngine set_skippedValidate set_durationNanos
    set_mBootFinished set_mHintSessionEnabled set_mSupportsHintSession
    set_mSessionConfigSupported set_mFirstConfigSupportCheck set_mHintSession
    set_mHintSessionThreadIds set_mTargetDuration set_mLastTargetDurationSent
    set_mHintSessionQueue set_mDisplayTimingData set_mDisplayIds
    set_mExpectedPresentTimes set_mCommitStartTimes set_mLastPresentFenceTime
    set_mLastSfPresentEndTime set_mLastPostcompDuration set_mFrameDelayDuration
    set_mTotalFrameTargetDuration set_mHasExpensiveRendering
    set_mNotifiedExpensiveRendering set_mExpensiveDisplays
    set_mHasDisplayUpdateImminent set_mSendUpdateImminent
    set_mLastScreenUpdatedTime set_hint set_frame set_boost set_halLog
    withSession onHint onFrame onBoost ] in *.

Ltac unfold_monad :=
  unfold discard, onSession, dropSessionUnlessOk in *;
  unfold when in *;
  unfold bind, ret, gets, modify, liftR, halCall in *;
  unfold_setters; simpl in *.

Ltac unfold_ops :=
  unfold onBootFinished, enablePowerHintSession, startPowerHintSession,
    updateTargetWorkDuration, reportActualWorkDuration, notifyCpuLoadUp,
    notifyDisplayUpdateImminentAndCpuReset, setExpensiveRenderingExpected,
    timerResetCallback, timerTimeoutCallback, setGpuStartTime, setGpuFenceTime,
    gpuFenceResolves, setHwcValidateTiming, setHwcPresentTiming, setSkippedValidate,
    setRequiresRenderEngine, setHwcPresentDelayedTime, setExpectedPresentTime,
    setSfPresentTiming, setFrameDelay, setCommitStart, setCompositeEnd, setDisplays,
    setTotalFrameTargetWorkDuration, updateDisplay in *.

(** Case analysis on an innermost scrutinee of the goal. *)
Ltac branch :=
  match goal with
  | |- context [match ?x with _ => _ end] =>
      lazymatch x with
      | context [match _ with _ => _ end] => fail
      | _ => destruct x eqn:?
      end
  end; simplify_eq/=.

(** The log has grown by an explicit list of at most four calls. *)
Ltac grown :=
  simpl;
  first [ exists []; split; [by rewrite ?app_nil_r |]
        | eexists [_]; split; [by rewrite <- ?app_assoc |]
        | eexists [_; _]; split; [by rewrite <- ?app_assoc |]
        | eexists [_; _; _]; split; [by rewrite <- ?app_assoc |]
        | eexists [_; _; _; _]; split; [by rewrite <- ?app_assoc |] ].

Ltac tidy :=
  repeat match goal with
         | H : negb _ = true |- _ => apply negb_true_iff in H
         | H : negb _ = false |- _ => apply negb_false_iff in H
         | H : _ && _ = true |- _ => apply andb_true_iff in H; destruct H
         | H : (_ =? _) = false |- _ => apply Z.eqb_neq in H
         | H : (_ =? _) = true |- _ => apply Z.eqb_eq in H
         | H : bool_decide _ = false |- _ => apply bool_decide_eq_false in H
         | H : bool_decide _ = true |- _ => apply bool_decide_eq_true in H
         end; simplify_eq/=.

Ltac membership :=
  repeat match goal with
         | H : _ ∈ _ ++ _ |- _ => apply elem_of_app in H; destruct H
         | H : _ ∈ _ :: _ |- _ => apply elem_of_cons in H; destruct H
         | H : _ ∈ [] |- _ => apply elem_of_nil in H; destruct H
         end.

Ltac use_forall :=
  repeat match goal with
         | HF : Forall ?P ?l, Hin : ?e ∈ ?l |- _ =>
             apply (proj1 (Forall_forall P l) HF e) in Hin; simpl in Hin
         end.

(** The creations with configuration in a list of calls. *)
Lemma configAttempts_nil : configAttempts [] = [].
Proof. reflexivity. Qed.

Lemma configAttempts_cons e l :
  configAttempts (e :: l) =
  if isConfigCreation e.1 then e :: configAttempts l else configAttempts l.
Proof.
  unfold configAttempts. destruct (isConfigCreation e.1) eqn:kind.
  - by rewrite filter_cons_True.
  - rewrite filter_cons_False; [done|]. rewrite kind. discriminate.
Qed.

Lemma configAttempts_app l1 l2 :
  configAttempts (l1 ++ l2) = configAttempts l1 ++ configAttempts l2.
Proof. apply filter_app. Qed.

Lemma configAttempts_none l :
  Forall (fun e => isConfigCreation e.1 = false) l -> configAttempts l = [].
Proof.
  induction 1 as [|e l He _ IH]; [reflexivity|].
  by rewrite configAttempts_cons, He.
Qed.

Lemma probes_no_config l :
  Forall (fun e : HalCall * HalResult => e.1 = GetHintSessionPreferredRate) l ->
  configAttempts l = [].
Proof.
  intros H. apply configAttempts_none. eapply Forall_impl; [exact H|].
  intros [c r] E. simpl in *. by subst.
Qed.

Lemma no_configAttempts l :
  configAttempts l = [] -> Forall (fun e => isConfigCreation e.1 = false) l.
Proof.
  induction l as [|e l IH]; [constructor|].
  rewrite configAttempts_cons. destruct (isConfigCreation e.1) eqn:kind; [done|].
  intros none. constructor; [exact kind|by apply IH].
Qed.

(** The creations with configuration in a log made of probes, of what
    [ensurePowerHintSessionRunning] called, and of explicit calls. *)
Ltac count_attempts :=
  rewrite ?configAttempts_app;
  repeat match goal with
         | H : Forall (fun e => e.1 = GetHintSessionPreferredRate) ?l
           |- context [configAttempts ?l] =>
             rewrite (probes_no_config l H)
         end;
  repeat (rewrite ?configAttempts_cons, ?configAttempts_nil; simpl);
  rewrite ?app_nil_r; simpl.

Ltac finish :=
  repeat split; intros; simplify_eq/=;
  repeat match goal with
         | H : _ && _ = true |- _ => apply andb_true_iff in H; destruct H
         | H : _ || _ = false |- _ => apply orb_false_iff in H; destruct H
         | H : _ ∈ _ :: _ |- _ => apply elem_of_cons in H; destruct H
         | H : _ ∈ [] |- _ => apply elem_of_nil in H; destruct H
         | H : _ \/ _ |- _ => destruct H
         | |- _ => progress simplify_eq/=
         end;
  rewrite ?Forall_cons, ?Forall_nil; simpl;
  try done;
  first [ count_attempts; first [ lia | by left | right; discriminate ]
        | naive_solver ].

Ltac entries :=
  rewrite ?Forall_app, ?Forall_cons, ?Forall_nil; repeat split;
  first [ done
        | eapply Forall_impl; [eassumption|];
          let c := fresh "c" in let r := fresh "r" in let Hc := fresh "Hc" in
          intros [c r] Hc; destruct c; simpl in *; try done;
          destruct_and?; repeat split; subst; eauto ].

(** ** The per-display reconstruction *)

(** C2 (as stated) fails on a display in its first frame. *)
Lemma C2_first_frame_has_no_timing : ~ gpuTimingIffStartRecorded.
Proof.
  intros stated.
  destruct (stated firstFrameRecord None 300) as [_ back].
  assert (exists g, estimateGpuTiming firstFrameRecord None 300 = Done (Some g))
    as [g Hg].
  { apply back. repeat split; simpl; eauto. }
  vm_compute in Hg. discriminate Hg.
Qed.

(** C2 (amended): [estimateGpuTiming] yields no timing exactly when its
    guard fails, the guard being: render engine required, a last-valid GPU
    start time carried over from a completed frame, and the end fence set.
    When the guard holds and the current GPU start is recorded, it yields a
    timing. *)
Theorem C2_gpu_timing_guard (d : DisplayTimingData)
    (previousEndTime : option TimePoint) (now : TimePoint) :
  (estimateGpuTiming d previousEndTime now = Done None <-> gpuTimingGuard d = false) /\
  (gpuTimingGuard d = true -> is_Some (gpuStartTime d) ->
   exists g, estimateGpuTiming d previousEndTime now = Done (Some g)).
Proof.
  unfold estimateGpuTiming, gpuTimingGuard.
  destruct (requiresRenderEngine d && has_value (lastValidGpuStartTime d)
            && has_value (gpuEndFenceTime d)) eqn:guard; simpl.
  - split; [split; [|discriminate]|].
    + destruct (gpuStartTime d); simpl; [|discriminate].
      destruct (gpuEndFenceTime d) as [sig|]; simpl; [|discriminate].
      destruct (signaled sig); simpl; [discriminate|].
      destruct (lastValidGpuEndTime d); simpl; [|discriminate].
      destruct (lastValidGpuStartTime d); simpl; [|discriminate].
      destruct (sig =? SIGNAL_TIME_PENDING); discriminate.
    + intros _ [start ->]. simpl.
      apply andb_prop in guard as [guard fence].
      apply andb_prop in guard as [_ lastStart].
      destruct (gpuEndFenceTime d) as [sig|]; [|discriminate]. simpl.
      destruct (lastValidGpuStartTime d) as [ls|]; [|discriminate].
      destruct (signaled sig); simpl; [eauto|].
      destruct (lastValidGpuEndTime d); simpl; [|eauto].
      destruct (sig =? SIGNAL_TIME_PENDING); eauto.
  - split; [done|discriminate].
Qed.

Lemma C2_gpu_timing_guard_witness :
  exists g, estimateGpuTiming pendingRecord None 20000 = Done (Some g).
Proof.
  apply (proj2 (C2_gpu_timing_guard pendingRecord None 20000)).
  - reflexivity.
  - simpl. eauto.
Defined.

(** C5: for a display that passes the guard of [estimateGpuTiming] (it
    needs the render engine), with the end fence pending and a last-valid
    pair present, the estimate is the larger of the last valid duration and
    the time elapsed since the effective start, the effective start being
    the later of the previous end time and the recorded GPU start; it is
    never below the last valid duration, and it is the elapsed time once
    that exceeds the last valid duration. *)
Theorem C5_pending_fence_estimate (d : DisplayTimingData)
    (previousEndTime : option TimePoint) (now start lastStart lastEnd : TimePoint) :
  requiresRenderEngine d = true ->
  gpuEndFenceTime d = Some SIGNAL_TIME_PENDING ->
  gpuStartTime d = Some start ->
  lastValidGpuStartTime d = Some lastStart ->
  lastValidGpuEndTime d = Some lastEnd ->
  let effectiveStart := Z.max (value_or previousEndTime 0) start in
  estimateGpuTiming d previousEndTime now =
    Done (Some {| Gpu.duration := Z.max (lastEnd - lastStart) (now - effectiveStart);
                  Gpu.startTime := effectiveStart |}) /\
  lastEnd - lastStart <= Z.max (lastEnd - lastStart) (now - effectiveStart) /\
  (lastEnd - lastStart < now - effectiveStart ->
   Z.max (lastEnd - lastStart) (now - effectiveStart) = now - effectiveStart).
Proof.
  intros render fence gpuStart lastS lastE effectiveStart.
  unfold estimateGpuTiming.
  rewrite render, fence, gpuStart, lastS, lastE.
  cbn -[Z.max Z.sub].
  split; [reflexivity|]. lia.
Qed.

Lemma C5_pending_fence_estimate_witness :
  estimateGpuTiming pendingRecord (Some 12000) 20000 =
    Done (Some {| Gpu.duration := 8000; Gpu.startTime := 12000 |}).
Proof.
  exact (proj1 (C5_pending_fence_estimate pendingRecord (Some 12000) 20000 10000 1000 6000
                  eq_refl eq_refl eq_refl eq_refl eq_refl)).
Defined.

Section TimelineProperties.

Variable cfg : Config.

(** C6: the timeline's present start and end are the record's (validate's
    when validate was skipped); its delay is the time from the present start
    to the delayed present time when that lies strictly between the
    record's present start and end, and zero otherwise; its wait start is
    present start plus delay plus the constant chosen by [skippedValidate];
    and the frame probably waited on the present fence exactly when the
    fence time lies strictly between the wait start and the present end. *)
Theorem C6_probably_waits (d : DisplayTimingData) (fenceTime : TimePoint) :
  timestampsSet d ->
  exists tl,
    calculateDisplayTimeline cfg d fenceTime = Done tl /\
    Some (Timeline.hwcPresentStartTime tl) =
      (if skippedValidate d then hwcValidateStartTime d else hwcPresentStartTime d) /\
    Some (Timeline.hwcPresentEndTime tl) =
      (if skippedValidate d then hwcValidateEndTime d else hwcPresentEndTime d) /\
    Timeline.hwcPresentDelayDuration tl =
      match hwcPresentDelayedTime d, hwcPresentStartTime d, hwcPresentEndTime d with
      | Some delayed, Some start, Some finish =>
          if (delayed >? start) && (delayed <? finish) then delayed - start else 0
      | _, _, _ => 0
      end /\
    Timeline.presentFenceWaitStartTime tl =
      Timeline.hwcPresentStartTime tl + Timeline.hwcPresentDelayDuration tl
      + (if skippedValidate d then kFenceWaitStartDelaySkippedValidate cfg
         else kFenceWaitStartDelayValidated cfg) /\
    (Timeline.probablyWaitsForPresentFence tl = true <->
     Timeline.presentFenceWaitStartTime tl < fenceTime /\
     fenceTime < Timeline.hwcPresentEndTime tl).
Proof.
  intros ([ps Hps] & [pe Hpe] & validate).
  unfold calculateDisplayTimeline. rewrite Hps, Hpe. simpl.
  assert (forall a b c : Z, (a >? b) && (a <? c) = true <-> b < a /\ a < c) as between.
  { intros a b c. rewrite andb_true_iff, Z.gtb_ltb, !Z.ltb_lt. tauto. }
  destruct (skippedValidate d) eqn:skipped.
  - destruct (validate eq_refl) as [[vs Hvs] [ve Hve]]. rewrite Hvs, Hve.
    destruct (hwcPresentDelayedTime d) as [delayed|]; simpl;
      [destruct (delayed >? ps); simpl; [destruct (delayed <? pe); simpl|]|];
      eexists; (split; [reflexivity|]); simpl; auto 6.
  - destruct (hwcPresentDelayedTime d) as [delayed|]; simpl;
      [destruct (delayed >? ps); simpl; [destruct (delayed <? pe); simpl|]|];
      eexists; (split; [reflexivity|]); simpl; auto 6.
Qed.

End TimelineProperties.

Lemma C6_probably_waits_witness :
  exists tl,
    calculateDisplayTimeline exampleConfig delayedRecord 1400 = Done tl /\
    Timeline.hwcPresentDelayDuration tl = 300 /\
    Timeline.presentFenceWaitStartTime tl = 1450 /\
    Timeline.probablyWaitsForPresentFence tl = false.
Proof.
  destruct (C6_probably_waits exampleConfig delayedRecord 1400)
    as (tl & run & start & _ & delay & wait & waits).
  - repeat split; simpl; eauto; discriminate.
  - exists tl. split; [exact run|].
    injection start as start.
    rewrite wait, delay, start. split; [reflexivity|]. split; [reflexivity|].
    destruct (Timeline.probablyWaitsForPresentFence tl); [|reflexivity].
    destruct (proj1 waits eq_refl) as [late _].
    rewrite wait, delay, start in late. vm_compute in late. discriminate late.
Defined.

(** ** The estimator *)

Lemma calculateDisplayTimeline_returns cfg d fenceTime :
  timestampsSet d -> exists tl, calculateDisplayTimeline cfg d fenceTime = Done tl.
Proof.
  intros ([ps Hps] & [pe Hpe] & validate).
  unfold calculateDisplayTimeline. rewrite Hps, Hpe. simpl.
  destruct (skippedValidate d).
  - destruct (validate eq_refl) as [[vs Hvs] [ve Hve]]. rewrite Hvs, Hve.
    destruct (hwcPresentDelayedTime d) as [delayed|]; simpl;
      [destruct (delayed >? ps); simpl; [destruct (delayed <? pe); simpl|]|]; eauto.
  - destruct (hwcPresentDelayedTime d) as [delayed|]; simpl;
      [destruct (delayed >? ps); simpl; [destruct (delayed <? pe); simpl|]|]; eauto.
Qed.

Lemma estimateGpuTiming_returns d previousEndTime now :
  (gpuTimingGuard d = true -> is_Some (gpuStartTime d)) ->
  exists g, estimateGpuTiming d previousEndTime now = Done g.
Proof.
  unfold estimateGpuTiming, gpuTimingGuard.
  destruct (requiresRenderEngine d && has_value (lastValidGpuStartTime d)
            && has_value (gpuEndFenceTime d)) eqn:guard; simpl; [|eauto].
  intros start. destruct (start eq_refl) as [g ->]. simpl.
  apply andb_prop in guard as [guard fence].
  apply andb_prop in guard as [_ lastStart].
  destruct (gpuEndFenceTime d) as [sig|]; [|discriminate]. simpl.
  destruct (lastValidGpuStartTime d) as [ls|]; [|discriminate].
  destruct (signaled sig); simpl; [eauto|].
  destruct (lastValidGpuEndTime d); simpl; [|eauto].
  destruct (sig =? SIGNAL_TIME_PENDING); eauto.
Qed.

Lemma walkStep_hwc_end cfg f now acc id d :
  mDisplayTimingData f !! id = Some d ->
  timestampsSet d ->
  (gpuTimingGuard d = true -> is_Some (gpuStartTime d)) ->
  exists tl acc',
    calculateDisplayTimeline cfg d (mLastPresentFenceTime f) = Done tl /\
    walkStep cfg f now acc id = Done acc' /\
    estimatedHwcEndTime acc' = Timeline.hwcPresentEndTime tl.
Proof.
  intros lookup stamps gpu.
  destruct (calculateDisplayTimeline_returns cfg d (mLastPresentFenceTime f) stamps)
    as [tl Htl].
  destruct (estimateGpuTiming_returns d (previousValidGpuEndTime acc) now gpu) as [g Hg].
  unfold walkStep. rewrite lookup, Htl. simpl. rewrite Hg. simpl.
  destruct g; eauto.
Qed.

Lemma walkDisplays_hwc_end cfg f clock displayIds :
  walkable f displayIds ->
  forall k acc0, exists acc,
    walkDisplays cfg f clock k acc0 displayIds = Done acc /\
    estimatedHwcEndTime acc =
      default (estimatedHwcEndTime acc0) (last (predictedEnds cfg f displayIds)).
Proof.
  induction displayIds as [|id rest IH]; intros ok k acc0.
  - exists acc0. split; reflexivity.
  - assert (walkable f rest) as okRest.
    { intros i d Hi. apply ok. by apply list_elem_of_further. }
    simpl. unfold predictedEnds. simpl.
    destruct (mDisplayTimingData f !! id) as [d|] eqn:lookup.
    + destruct (ok id d (list_elem_of_here _ _) lookup) as [stamps gpu].
      destruct (walkStep_hwc_end cfg f (clock k) acc0 id d lookup stamps gpu)
        as (tl & acc' & Htl & Hstep & Hend).
      rewrite Hstep, Htl. simpl.
      destruct (IH okRest (S k) acc') as (acc & Hrun & Hlast).
      exists acc. split; [exact Hrun|].
      rewrite Hlast, Hend. fold (predictedEnds cfg f rest).
      destruct (predictedEnds cfg f rest) as [|e ends]; [reflexivity|].
      rewrite last_cons_cons.
      destruct (last (e :: ends)) eqn:Hl; [reflexivity|].
      apply last_None in Hl. discriminate Hl.
    + unfold walkStep at 1. rewrite lookup. simpl.
      destruct (IH okRest (S k) acc0) as (acc & Hrun & Hlast).
      exists acc. split; [exact Hrun|exact Hlast].
Qed.

Lemma last_le_maximum (l : list TimePoint) (x m : TimePoint) :
  last l = Some x -> maximum l = Some m -> x <= m.
Proof.
  revert x m. induction l as [|y rest IH]; intros x m; [discriminate|].
  destruct rest as [|z rest'].
  - simpl. intros [= ->] [= <-]. lia.
  - rewrite last_cons_cons. intros Hlast.
    change (maximum (y :: z :: rest')) with
      (Some (match maximum (z :: rest') with Some m' => Z.max y m' | None => y end)).
    destruct (maximum (z :: rest')) as [m'|] eqn:Hmax; [|discriminate].
    intros [= <-]. specialize (IH x m' Hlast eq_refl). lia.
Qed.

(** C3 (as stated) fails when a display presented earlier ends later. *)
Lemma C3_last_end_is_not_the_maximum : ~ hwcEndIsMaximum.
Proof.
  intros stated.
  specialize (stated exampleConfig overlappingFrame (fun _ => 0) 0
    {| estimatedHwcEndTime := 50; idleDuration := 0;
       previousValidGpuEndTime := None; estimatedGpuEndTime := None;
       firstGpuTimeline := None |} 100).
  assert (50 = 100) as absurd by (apply stated; vm_compute; reflexivity).
  discriminate absurd.
Qed.

(** C3 (amended): when the records of the walked displays can be read, the
    walk returns and the hwc end time it has accumulated is the predicted
    present end time of the display walked last (the starting value when
    no display is walked); it is at most the maximum of the predicted end
    times. *)
Theorem C3_hwc_end_is_last_walked (cfg : Config) (f : FrameState)
    (clock : nat -> TimePoint) (commitStart : TimePoint) :
  let displayIds := getOrderedDisplayIds hwcPresentStartTime f in
  walkable f displayIds ->
  exists acc,
    walkDisplays cfg f clock 0 (startOfWalk commitStart) displayIds = Done acc /\
    estimatedHwcEndTime acc = default commitStart (last (predictedEnds cfg f displayIds)) /\
    (forall latest, maximum (predictedEnds cfg f displayIds) = Some latest ->
                    estimatedHwcEndTime acc <= latest).
Proof.
  intros displayIds ok.
  destruct (walkDisplays_hwc_end cfg f clock displayIds ok 0%nat (startOfWalk commitStart))
    as (acc & Hrun & Hlast).
  exists acc. split; [exact Hrun|]. split; [exact Hlast|].
  intros latest Hmax. rewrite Hlast.
  destruct (last (predictedEnds cfg f displayIds)) as [x|] eqn:Hl.
  - simpl. eapply last_le_maximum; eauto.
  - apply last_None in Hl. rewrite Hl in Hmax. discriminate.
Qed.

Lemma C3_hwc_end_is_last_walked_witness :
  exists acc,
    walkDisplays exampleConfig overlappingFrame (fun _ => 0) 0 (startOfWalk 0)
      (getOrderedDisplayIds hwcPresentStartTime overlappingFrame) = Done acc /\
    estimatedHwcEndTime acc = 50.
Proof.
  destruct (C3_hwc_end_is_last_walked exampleConfig overlappingFrame (fun _ => 0) 0)
    as (acc & Hrun & Hlast & _).
  - intros id d Hid Hd. vm_compute in Hid.
    assert (id = 1%N \/ id = 2%N) as [-> | ->].
    { apply list_elem_of_In in Hid. simpl in Hid. intuition. }
    + vm_compute in Hd. injection Hd as <-.
      split; [repeat split; simpl; eauto; discriminate|discriminate].
    + vm_compute in Hd. injection Hd as <-.
      split; [repeat split; simpl; eauto; discriminate|discriminate].
  - exists acc. split; [exact Hrun|]. rewrite Hlast. reflexivity.
Defined.

(** On that frame the reported duration is 50, the end of the display
    presented last, where the maximum of the end times would give 100. *)
Example estimateWorkDuration_overlapping :
  estimateWorkDuration exampleConfig (hint freshAdvisor) overlappingFrame (fun _ => 200) =
  Done (Some {| timeStampNanos := 200;
                durationNanos := 50;
                workPeriodStartTimestampNanos := 0;
                cpuDurationNanos := 50;
                gpuDurationNanos := 0 |}).
Proof. vm_compute. reflexivity. Qed.

(** C4 (as stated) fails where the product leaves the 64-bit range:
    whatever an overflowing multiplication does, a duration cannot hold
    2^64. *)
Lemma C4_product_out_of_range : ~ combineIsExact.
Proof.
  intros stated.
  specialize (stated (2 ^ 32) (Some 1) (2 ^ 32) 0).
  vm_compute in stated. discriminate stated.
Qed.

(** C4 (amended): without a total-frame target the result is the
    compositor-only duration, for every input; with a non-zero target [t]
    and a product and a quotient that fit in 64 bits, it is the larger of
    the compositor-only duration and [target * total / t], the quotient
    truncated toward zero. *)
Theorem C4_combine_timing_estimates (target total flinger : Duration) :
  combineTimingEstimates target None total flinger = Done flinger /\
  (forall t, t <> 0 ->
     in_int64 (target * total) = true ->
     in_int64 ((target * total) ÷ t) = true ->
     combineTimingEstimates target (Some t) total flinger =
       Done (Z.max flinger ((target * total) ÷ t))).
Proof.
  split; [reflexivity|].
  intros t nonzero product quotient. unfold combineTimingEstimates.
  rewrite product. simpl.
  replace (t =? 0) with false by (symmetry; apply Z.eqb_neq; lia).
  destruct ((target * total =? INT64_MIN) && (t =? -1)) eqn:edge; [|reflexivity].
  apply andb_prop in edge as [atMin minusOne].
  apply Z.eqb_eq in atMin, minusOne. rewrite atMin, minusOne in quotient.
  vm_compute in quotient. discriminate quotient.
Qed.

Lemma C4_combine_timing_estimates_witness :
  combineTimingEstimates 16666666 (Some 25000000) 20000000 10000000 = Done 13333332.
Proof.
  apply (proj2 (C4_combine_timing_estimates 16666666 20000000 10000000) 25000000).
  - discriminate.
  - reflexivity.
  - reflexivity.
Defined.

(** ** The hint session *)

Lemma callsBetween_app (s s' : PowerAdvisor) l :
  halLog s' = halLog s ++ l -> callsBetween s s' = l.
Proof. intros E. unfold callsBetween. rewrite E. by rewrite drop_app_length. Qed.

Lemma targetUpdates_app l1 l2 :
  targetUpdates (l1 ++ l2) = targetUpdates l1 ++ targetUpdates l2.
Proof. apply filter_app. Qed.

Lemma targetUpdates_none l :
  Forall (fun e => isTargetUpdate e.1 = false) l -> targetUpdates l = [].
Proof.
  induction 1 as [|e l He _ IH]; [reflexivity|].
  unfold targetUpdates in *. rewrite filter_cons_False; [exact IH|].
  rewrite He. discriminate.
Qed.

Lemma probes_no_target_update l :
  Forall (fun e : HalCall * HalResult => e.1 = GetHintSessionPreferredRate) l ->
  targetUpdates l = [].
Proof.
  intros H. apply targetUpdates_none. eapply Forall_impl; [exact H|].
  intros [c r] E. simpl in *. by subst.
Qed.

Lemma creations_no_target_update s l :
  Forall (creationEntry s) l -> targetUpdates l = [].
Proof.
  intros H. apply targetUpdates_none. eapply Forall_impl; [exact H|].
  intros [c r] E. unfold creationEntry in E. by destruct c.
Qed.

Ltac close_facts :=
  tidy;
  unfold stepFacts, allowedEntry, creationGate, creationEntry in *; simpl in *;
  rewrite <- ?app_assoc;
  first [ exists []; split; [by rewrite app_nil_r|]
        | eexists; split; [reflexivity|] ];
  split; [entries|];
  split; [by auto|];
  split; [intros ? ? ? Hin ? ?; membership; simplify_eq/=;
          try match goal with
              | H : forall _ _ _, _ ∈ ?l -> _, Hin : _ ∈ ?l |- _ =>
                  exact (H _ _ _ Hin ltac:(assumption) ltac:(assumption))
              end;
          use_forall; simplify_eq/=|];
  split; [intros ?; first [ by left | count_attempts; by auto ]|];
  split; [count_attempts; first [ lia | done ]|];
  split; first [by left | by right].

Section SessionProperties.

Variable cfg : Config.
Variable hal : PowerHal.

(** [usePowerHintSession] always returns; it may probe the HAL once and
    cache the answer, and changes nothing else. *)
Lemma usePowerHintSession_spec s :
  exists b supports l,
    usePowerHintSession hal s = Done (b, withSession supports
      (mSessionConfigSupported (hint s)) (mFirstConfigSupportCheck (hint s))
      (mHintSession (hint s)) l s) /\
    Forall (fun e => e.1 = GetHintSessionPreferredRate) l /\
    (b = true -> mHintSessionEnabled (hint s) = Some true /\ supports = Some true) /\
    (forall x, mSupportsHintSession (hint s) = Some x -> supports = Some x /\ l = []) /\
    (mHintSessionEnabled (hint s) <> Some true ->
     b = false /\ supports = mSupportsHintSession (hint s) /\ l = []).
Proof.
  destruct s as [[boot enabled supports ? ? ? ? ? ? ?] f bo log].
  unfold usePowerHintSession, supportsPowerHintSession. unfold_monad.
  destruct enabled as [[|]|], supports as [x|]; simpl;
    eexists _, _; grown; repeat split; intros; simplify_eq/=;
    repeat constructor; try done; try congruence.
Qed.

(** [ensurePowerHintSessionRunning] always returns; what it calls and
    what it leaves in the four members it writes. *)
Lemma ensurePowerHintSessionRunning_spec s :
  exists running supports configSupported firstCheck session l,
    ensurePowerHintSessionRunning cfg hal s =
      Done (running, withSession supports configSupported firstCheck session l s) /\
    running = has_value session /\
    Forall (creationEntry s) l /\
    (forall h, mHintSession (hint s) = Some h ->
       supports = mSupportsHintSession (hint s) /\
       configSupported = mSessionConfigSupported (hint s) /\
       firstCheck = mFirstConfigSupportCheck (hint s) /\
       session = Some h /\ l = []) /\
    (forall x, mSupportsHintSession (hint s) = Some x -> supports = Some x) /\
    (mSessionConfigSupported (hint s) = false -> configSupported = false) /\
    (forall threadIds target r,
       (CreateHintSessionWithConfig threadIds target, r) ∈ l ->
       isOk r = false ->
       mFirstConfigSupportCheck (hint s) = true \/ r = HalUnsupported ->
       configSupported = false) /\
    (mFirstConfigSupportCheck (hint s) = true ->
     firstCheck = true \/ configAttempts l <> []) /\
    (length (configAttempts l) <= 1)%nat.
Proof.
  destruct s as [[boot enabled sup cs fc session tids target last queue] f bo log].
  unfold ensurePowerHintSessionRunning, shouldCreateSessionWithConfig,
    usePowerHintSession, supportsPowerHintSession, creationEntry.
  unfold_monad.
  destruct session as [h|]; simpl; [eexists _, _, _, _, _; grown; finish|].
  destruct (bool_decide (tids = [])) eqn:empty; simpl;
    [eexists _, _, _, _, _; grown; finish|].
  apply bool_decide_eq_false in empty.
  repeat (case_match; simplify_eq/=); eexists _, _, _, _, _; grown; finish.
Qed.

(** Symbolic execution of an operation: the two functions above are
    replaced by what the lemmas say about them. *)
Ltac call_specs :=
  repeat (first
    [ match goal with
      | |- context [usePowerHintSession hal ?s] =>
          let E := fresh "Euse" in
          destruct (usePowerHintSession_spec s) as (? & ? & ? & E & ? & ? & ? & ?);
          rewrite E; clear E
      | |- context [ensurePowerHintSessionRunning cfg hal ?s] =>
          let E := fresh "Eens" in
          destruct (ensurePowerHintSessionRunning_spec s)
            as (? & ? & ? & ? & ? & ? & E & ? & ? & ? & ? & ? & ? & ? & ?);
          rewrite E; clear E
      end; unfold_setters; simpl in *
    | branch ]).

Lemma step_facts op s :
  match step cfg hal op s with
  | Done (_, s') => stepFacts op s s'
  | _ => True
  end.
Proof.
  destruct s as [[boot enabled sup cs fc session tids target last queue] f bo log].
  destruct op; simpl; unfold_ops; unfold_monad; call_specs; try done; close_facts.
Qed.

Lemma step_facts_done op s u s' :
  step cfg hal op s = Done (u, s') -> stepFacts op s s'.
Proof. intros E. pose proof (step_facts op s) as F. by rewrite E in F. Qed.

(** The log only grows. *)
Lemma run_grows ops :
  forall s s', run cfg hal ops s = Done s' -> exists l, halLog s' = halLog s ++ l.
Proof.
  induction ops as [|op ops IH]; simpl; intros s s' E.
  - injection E as <-. exists []. by rewrite app_nil_r.
  - destruct (step cfg hal op s) as [[u s1]| |] eqn:Estep; try discriminate.
    destruct (step_facts_done _ _ _ _ Estep) as (l1 & Hlog & _).
    destruct (IH s1 s' E) as [l2 Hlog2].
    exists (l1 ++ l2). by rewrite Hlog2, Hlog, app_assoc.
Qed.

(** Once the configuration path is marked unsupported it stays so, and no
    operation calls it. *)
Lemma run_config_abandoned ops :
  forall s s',
    mSessionConfigSupported (hint s) = false ->
    run cfg hal ops s = Done s' ->
    mSessionConfigSupported (hint s') = false /\
    exists l, halLog s' = halLog s ++ l /\
              Forall (fun e => isConfigCreation e.1 = false) l.
Proof.
  induction ops as [|op ops IH]; simpl; intros s s' off E.
  - injection E as <-. split; [exact off|]. exists []. by rewrite app_nil_r.
  - destruct (step cfg hal op s) as [[u s1]| |] eqn:Estep; try discriminate.
    destruct (step_facts_done _ _ _ _ Estep) as (l1 & Hlog & Hall & Hoff & _).
    destruct (IH s1 s' (Hoff off) E) as (off' & l2 & Hlog2 & Hno).
    split; [exact off'|]. exists (l1 ++ l2). split.
    + by rewrite Hlog2, Hlog, app_assoc.
    + apply Forall_app. split; [|exact Hno].
      eapply Forall_impl; [exact Hall|].
      intros [c r] Hc. unfold allowedEntry in Hc. destruct c; simpl in *; try done.
      destruct Hc as (_ & on & _). congruence.
Qed.

(** As long as every [updateTargetWorkDuration] asks for the target that
    was sent last, no target is sent. *)
Lemma run_same_target t ops :
  forall s s',
    mLastTargetDurationSent (hint s) = t ->
    Forall (sameTargetOnly t) ops ->
    run cfg hal ops s = Done s' ->
    mLastTargetDurationSent (hint s') = t /\
    exists l, halLog s' = halLog s ++ l /\ targetUpdates l = [].
Proof.
  induction ops as [|op ops IH]; simpl; intros s s' last same E.
  - injection E as <-. split; [exact last|]. exists []. by rewrite app_nil_r.
  - destruct (step cfg hal op s) as [[u s1]| |] eqn:Estep; try discriminate.
    apply Forall_cons in same as [sameOp same].
    destruct (step_facts_done _ _ _ _ Estep) as (l1 & Hlog & Hall & _ & _ & _ & _ & Hlast & _).
    assert (mLastTargetDurationSent (hint s1) = t) as last1.
    { destruct Hlast as [-> | ->]; [exact last|]. exact (sameOp _ eq_refl). }
    destruct (IH s1 s' last1 same E) as (last' & l2 & Hlog2 & Hno).
    split; [exact last'|]. exists (l1 ++ l2). split.
    + by rewrite Hlog2, Hlog, app_assoc.
    + rewrite targetUpdates_app, Hno, app_nil_r. apply targetUpdates_none.
      eapply Forall_impl; [exact Hall|].
      intros [c r] Hc. unfold allowedEntry in Hc. destruct c; simpl in *; try done.
      destruct Hc as [-> differs]. rewrite last in differs.
      destruct differs. by apply sameOp.
Qed.

(** The first-check flag stays set until the configuration path is tried. *)
Lemma run_first_check ops :
  forall s s',
    mFirstConfigSupportCheck (hint s) = true ->
    run cfg hal ops s = Done s' ->
    exists l, halLog s' = halLog s ++ l /\
      (mFirstConfigSupportCheck (hint s') = true \/ configAttempts l <> []).
Proof.
  induction ops as [|op ops IH]; simpl; intros s s' first E.
  - injection E as <-. exists []. rewrite app_nil_r. by auto.
  - destruct (step cfg hal op s) as [[u s1]| |] eqn:Estep; try discriminate.
    destruct (step_facts_done _ _ _ _ Estep) as (l1 & Hlog & _ & _ & _ & Hfirst & _).
    destruct (Hfirst first) as [first1 | tried].
    + destruct (IH s1 s' first1 E) as (l2 & Hlog2 & Hl2).
      exists (l1 ++ l2). split; [by rewrite Hlog2, Hlog, app_assoc|].
      destruct Hl2 as [first' | tried]; [by left|right].
      rewrite configAttempts_app. intros none.
      by apply app_eq_nil in none as [_ none].
    + destruct (run_grows ops s1 s' E) as [l2 Hlog2].
      exists (l1 ++ l2). split; [by rewrite Hlog2, Hlog, app_assoc|].
      right. rewrite configAttempts_app. intros none.
      by apply app_eq_nil in none as [none _].
Qed.

(** Before the configuration path has been tried for the first time, the
    first-check flag is still set. *)
Lemma first_attempt_flag s :
  firstAttemptFrom cfg hal s -> mFirstConfigSupportCheck (hint s) = true.
Proof.
  intros (target & ops & E & none).
  destruct (run_first_check ops (initial target) s eq_refl E) as (l & Hlog & Hl).
  simpl in Hlog. subst l. by destruct Hl.
Qed.

(** An operation tries the configuration path at most once. *)
Lemma one_attempt_per_step op s u s1 e :
  step cfg hal op s = Done (u, s1) ->
  e ∈ callsBetween s s1 -> isConfigCreation e.1 = true ->
  configAttempts (callsBetween s s1) = [e].
Proof.
  intros E Hin kind.
  destruct (step_facts_done _ _ _ _ E) as (l & Hlog & _ & _ & _ & _ & Hone & _).
  rewrite (callsBetween_app _ _ _ Hlog) in *.
  assert (e ∈ configAttempts l) as Hin' by (by apply list_elem_of_filter).
  destruct (configAttempts l) as [|x [|y rest]]; simpl in Hone.
  - by apply elem_of_nil in Hin'.
  - apply list_elem_of_singleton in Hin'. by subst.
  - lia.
Qed.

(** A failure of the configuration path on the first check, or an
    "unsupported" reply, clears [mSessionConfigSupported]. *)
Lemma config_failure_marked op s u s1 threadIds target r :
  step cfg hal op s = Done (u, s1) ->
  (CreateHintSessionWithConfig threadIds target, r) ∈ callsBetween s s1 ->
  isOk r = false ->
  mFirstConfigSupportCheck (hint s) = true \/ r = HalUnsupported ->
  mSessionConfigSupported (hint s1) = false.
Proof.
  intros E Hin failed first.
  destruct (step_facts_done _ _ _ _ E) as (l & Hlog & _ & _ & Hoff & _).
  rewrite (callsBetween_app _ _ _ Hlog) in Hin.
  exact (Hoff _ _ _ Hin failed first).
Qed.

(** Every creation call carries at least one thread id and, except in
    [updateTargetWorkDuration], is made with the boot gate open. *)
Lemma creation_gate op s u s' e :
  step cfg hal op s = Done (u, s') ->
  e ∈ callsBetween s s' -> isCreation e.1 = true ->
  creationThreadIds e.1 <> [] /\
  (mBootFinished (hint s) = true \/ exists t, op = UpdateTargetWorkDuration t).
Proof.
  intros E Hin create.
  destruct (step_facts_done _ _ _ _ E) as (l & Hlog & Hall & _).
  rewrite (callsBetween_app _ _ _ Hlog) in Hin.
  apply (proj1 (Forall_forall _ _) Hall) in Hin.
  destruct e as [c r]. unfold allowedEntry, creationGate in Hin.
  destruct c; simpl in *; try discriminate; tauto.
Qed.

(** One call of [updateTargetWorkDuration]: it returns, and it either
    sends no target or sends [t] once, having recorded it as sent. *)
Lemma updateTargetWorkDuration_calls t s :
  exists s1 l,
    updateTargetWorkDuration cfg hal t s = Done (tt, s1) /\
    halLog s1 = halLog s ++ l /\
    (targetUpdates l = [] \/
     exists h r,
       targetUpdates l = [(SessionUpdateTargetWorkDuration h t, r)] /\
       t <> mLastTargetDurationSent (hint s) /\
       mLastTargetDurationSent (hint s1) = t /\
       mTargetDuration (hint s1) = t /\
       mHintSessionEnabled (hint s1) = Some true /\
       mSupportsHintSession (hint s1) = Some true /\
       (isOk r = false -> mHintSession (hint s1) = None)).
Proof.
  destruct s as [[boot enabled sup cs fc session tids target last queue] f bo log].
  unfold updateTargetWorkDuration. unfold_monad. call_specs; tidy.
  all: try match goal with
           | H : deref ?o = _ |- _ => destruct o; simplify_eq/=
           end.
  all: repeat match goal with
              | H : context [(_ ++ _) ++ _] |- _ => rewrite <- app_assoc in H
              end.
  all: eexists _, _; (split; [reflexivity|]); simpl; rewrite <- ?app_assoc;
    (split; [first [by rewrite app_nil_r | reflexivity]|]).
  all: rewrite ?targetUpdates_app.
  all: repeat match goal with
              | H : Forall (fun e => e.1 = GetHintSessionPreferredRate) ?l |- _ =>
                  rewrite (probes_no_target_update l H); clear H
              | H : Forall (creationEntry ?s) ?l |- _ =>
                  rewrite (creations_no_target_update s l H); clear H
              end.
  all: first [ by left | right ].
  all: eexists _, _; (split; [reflexivity|]); simpl.
  all: repeat match goal with
              | H : ?a = ?a -> _ |- _ => specialize (H eq_refl)
              end; destruct_and?.
  all: repeat split; try done; try congruence.
  all: match goal with
       | H : forall x, ?o = Some x -> _, E : ?o = Some _ |- _ => exact (H _ E)
       end.
Qed.

(** With the target already sent and the support probe cached, the call
    returns at once and leaves the object as it is. *)
Lemma updateTargetWorkDuration_throttled t s :
  mLastTargetDurationSent (hint s) = t ->
  mTargetDuration (hint s) = t ->
  mHintSessionEnabled (hint s) = Some true ->
  mSupportsHintSession (hint s) = Some true ->
  updateTargetWorkDuration cfg hal t s = Done (tt, s).
Proof.
  destruct s as [[boot enabled sup cs fc session tids target last queue] f bo log].
  simpl. intros -> -> -> ->.
  unfold updateTargetWorkDuration, usePowerHintSession, supportsPowerHintSession.
  unfold_monad. by rewrite Z.eqb_refl.
Qed.

(** C7: when a creation with configuration fails and it is the first
    creation with configuration since the object was constructed, or when
    the reply is "unsupported", the operation makes no other attempt of
    that kind, the configuration path is marked unsupported from then on,
    and whatever operations follow, none of their calls is a creation with
    configuration: every later creation is a legacy [createHintSession]. *)
Theorem C7_config_path_abandoned op s s1 threadIds target r ops s2 :
  step cfg hal op s = Done (tt, s1) ->
  (CreateHintSessionWithConfig threadIds target, r) ∈ callsBetween s s1 ->
  isOk r = false ->
  firstAttemptFrom cfg hal s \/ r = HalUnsupported ->
  run cfg hal ops s1 = Done s2 ->
  configAttempts (callsBetween s s1) = [(CreateHintSessionWithConfig threadIds target, r)] /\
  mSessionConfigSupported (hint s1) = false /\
  mSessionConfigSupported (hint s2) = false /\
  Forall (fun e => isConfigCreation e.1 = false) (callsBetween s1 s2).
Proof.
  intros E Hin failed first Erun.
  split; [by apply (one_attempt_per_step op s tt)|].
  assert (mSessionConfigSupported (hint s1) = false) as off.
  { apply (config_failure_marked op s tt s1 threadIds target r E Hin failed).
    destruct first as [first | unsupported]; [left|by right].
    by apply first_attempt_flag. }
  split; [exact off|].
  destruct (run_config_abandoned ops s1 s2 off Erun) as (off2 & l2 & Hlog2 & Hno).
  split; [exact off2|]. by rewrite (callsBetween_app _ _ _ Hlog2).
Qed.


(** C10: when the service call of [updateTargetWorkDuration] fails, the
    session is dropped but the target stays recorded as sent: calling again
    with the same target returns without any call to the service, and no
    target is sent until a different one is asked for. *)
Theorem C10_failed_target_not_resent t s s1 h r :
  updateTargetWorkDuration cfg hal t s = Done (tt, s1) ->
  (SessionUpdateTargetWorkDuration h t, r) ∈ callsBetween s s1 ->
  isOk r = false ->
  mHintSession (hint s1) = None /\
  mLastTargetDurationSent (hint s1) = t /\
  updateTargetWorkDuration cfg hal t s1 = Done (tt, s1) /\
  forall ops s2,
    Forall (sameTargetOnly t) ops ->
    run cfg hal ops s1 = Done s2 ->
    targetUpdates (callsBetween s1 s2) = [] /\
    mLastTargetDurationSent (hint s2) = t.
Proof.
  intros E Hin failed.
  destruct (updateTargetWorkDuration_calls t s) as (s1' & l & E' & Hlog & sent).
  rewrite E in E'. injection E' as <-.
  rewrite (callsBetween_app _ _ _ Hlog) in Hin.
  assert ((SessionUpdateTargetWorkDuration h t, r) ∈ targetUpdates l) as Hsent.
  { apply list_elem_of_filter. by split. }
  destruct sent as [none | (h' & r' & one & _ & last & target & enabled & supports & drop)].
  { rewrite none in Hsent. by apply elem_of_nil in Hsent. }
  rewrite one in Hsent. apply list_elem_of_singleton in Hsent. injection Hsent as -> ->.
  split; [by apply drop|]. split; [exact last|].
  split; [by apply updateTargetWorkDuration_throttled|].
  intros ops s2 same Erun.
  destruct (run_same_target t ops s1 s2 last same Erun) as (last2 & l2 & Hlog2 & none).
  split; [|exact last2]. by rewrite (callsBetween_app _ _ _ Hlog2).
Qed.

End SessionProperties.

(** C1: with the feature switched on and a thread registered before boot
    has finished, [updateTargetWorkDuration] creates a session although
    the boot gate is still closed. *)
Theorem C1_session_created_before_boot :
  exists s,
    run exampleConfig obligingHal earlyOps freshAdvisor = Done s /\
    mBootFinished (hint s) = false /\
    halLog s =
      [(GetHintSessionPreferredRate, HalOk 7);
       (CreateHintSessionWithConfig [1001] 8333333, HalOk 7);
       (SessionUpdateTargetWorkDuration 7 8333333, HalOk 7)].
Proof.
  eexists. split; [vm_compute; reflexivity|]. split; reflexivity.
Qed.

Lemma C7_config_path_abandoned_witness :
  mSessionConfigSupported
    (hint (stateAfter exampleConfig stubbornConfigHal
             [UpdateTargetWorkDuration 8333333; NotifyCpuLoadUp]
             (runningAdvisor stubbornConfigHal))) = false.
Proof.
  refine (proj1 (proj2 (proj2 (C7_config_path_abandoned exampleConfig
    stubbornConfigHal (StartPowerHintSession [1001])
    (bootedAdvisor stubbornConfigHal) (runningAdvisor stubbornConfigHal)
    [1001] 16000000 HalFailed
    [UpdateTargetWorkDuration 8333333; NotifyCpuLoadUp]
    (stateAfter exampleConfig stubbornConfigHal
       [UpdateTargetWorkDuration 8333333; NotifyCpuLoadUp]
       (runningAdvisor stubbornConfigHal)) _ _ _ _ _)))).
  - vm_compute. reflexivity.
  - vm_compute. apply list_elem_of_In. simpl. tauto.
  - reflexivity.
  - left. exists 16000000, [OnBootFinished; EnablePowerHintSession true].
    split; vm_compute; reflexivity.
  - vm_compute. reflexivity.
Defined.



Lemma C10_failed_target_not_resent_witness :
  updateTargetWorkDuration exampleConfig stubbornHal 8333333
    (stateAfter exampleConfig stubbornHal [UpdateTargetWorkDuration 8333333]
       (runningAdvisor stubbornHal)) =
  Done (tt, stateAfter exampleConfig stubbornHal [UpdateTargetWorkDuration 8333333]
              (runningAdvisor stubbornHal)).
Proof.
  refine (proj1 (proj2 (proj2 (C10_failed_target_not_resent exampleConfig stubbornHal
    8333333 (runningAdvisor stubbornHal) _ 7 HalFailed _ _ _)))).
  - vm_compute. reflexivity.
  - vm_compute. apply list_elem_of_In. simpl. tauto.
  - reflexivity.
Defined.

(** ** The last-valid GPU times *)

Lemma lastValidPair_displayData f displayId :
  (lastValidGpuStartTime (displayData f displayId),
   lastValidGpuEndTime (displayData f displayId)) = lastValidPair f displayId.
Proof.
  unfold displayData, lastValidPair.
  by destruct (mDisplayTimingData f !! displayId).
Qed.

Lemma recordedFence_displayData f displayId :
  gpuEndFenceTime (displayData f displayId) = recordedFence f displayId.
Proof.
  unfold displayData, recordedFence.
  by destruct (mDisplayTimingData f !! displayId).
Qed.

(** Storing a record changes the pair of no other display, and not the
    pair of this display when the record carries the pair it had. *)
Lemma lastValidPair_store f stored d displayId :
  stored <> displayId \/
  (lastValidGpuStartTime d, lastValidGpuEndTime d) = lastValidPair f stored ->
  lastValidPair (storeDisplayData stored d f) displayId = lastValidPair f displayId.
Proof.
  intros same. unfold lastValidPair at 1, storeDisplayData.
  change (mDisplayTimingData (set_mDisplayTimingData ?m f)) with m.
  rewrite lookup_insert. case_decide as Heq; [|reflexivity].
  subst. destruct same as [differs | same]; [done|exact same].
Qed.

Section FrameProperties.

Variable cfg : Config.
Variable hal : PowerHal.

(** C9: whatever the operation, the last-valid GPU times of a display
    change only when the fence the display has recorded has signaled, that
    is when its signal time is neither pending nor invalid; the change is
    made by [setGpuStartTime] or [setGpuFenceTime] for that display. *)
Theorem C9_last_valid_only_after_signal op s s' displayId :
  step cfg hal op s = Done (tt, s') ->
  lastValidPair (frame s') displayId <> lastValidPair (frame s) displayId ->
  fenceHasSignaled (frame s) displayId /\
  ((exists startTime, op = SetGpuStartTime displayId startTime) \/
   (exists fenceTime now, op = SetGpuFenceTime displayId fenceTime now)).
Proof.
  intros E changed.
  destruct (touchesFrame op) eqn:touches.
  2: { destruct (step_facts_done cfg hal _ _ _ _ E) as (l & _ & _ & _ & _ & _ & _ & _ & Hframe).
       destruct Hframe as [Hf | Hf]; [congruence|]. by rewrite Hf in changed. }
  destruct s as [h f bo log].
  destruct op; try discriminate touches; simpl in E; unfold_ops;
    unfold bind, ret, gets, modify, liftR, onFrame in E; simpl in E.
  all: try (injection E as <-; simpl in changed; destruct changed;
            first [ reflexivity
                  | apply lastValidPair_store; right;
                    rewrite <- lastValidPair_displayData; reflexivity ]).
  - (* setGpuStartTime *)
    destruct (decide (displayId0 = displayId)) as [-> | differs].
    2: { exfalso. apply changed. clear changed.
         repeat (case_match; simplify_eq/=); apply lastValidPair_store; by left. }
    destruct (gpuEndFenceTime (displayData f displayId)) as [signalTime|] eqn:fence.
    2: { simpl in E. injection E as <-. destruct changed. simpl.
         apply lastValidPair_store. right.
         rewrite <- lastValidPair_displayData. reflexivity. }
    destruct (signaled signalTime) eqn:sig.
    2: { simpl in E. injection E as <-. destruct changed. simpl.
         apply lastValidPair_store. right.
         rewrite <- lastValidPair_displayData. reflexivity. }
    split; [|left; eauto].
    exists signalTime. by rewrite <- recordedFence_displayData.
  - (* setGpuFenceTime *)
    destruct (decide (displayId0 = displayId)) as [-> | differs].
    2: { exfalso. apply changed. clear changed.
         repeat (case_match; simplify_eq/=); apply lastValidPair_store; by left. }
    destruct (gpuEndFenceTime (displayData f displayId)) as [signalTime|] eqn:fence.
    2: { simpl in E. injection E as <-. destruct changed. simpl.
         apply lastValidPair_store. right.
         destruct (adpf_gpu_sf cfg); simpl; rewrite <- lastValidPair_displayData; reflexivity. }
    destruct (negb (adpf_gpu_sf cfg) && signaled signalTime) eqn:sig.
    2: { simpl in E. injection E as <-. destruct changed. simpl.
         apply lastValidPair_store. right.
         destruct (adpf_gpu_sf cfg); simpl; rewrite <- lastValidPair_displayData; reflexivity. }
    apply andb_true_iff in sig as [_ sig].
    split; [|right; eauto].
    exists signalTime. by rewrite <- recordedFence_displayData.
  - (* a pending fence resolves *)
    destruct (mDisplayTimingData f !! displayId0) as [d|] eqn:lookup; simpl in E.
    2: { injection E as <-. by destruct changed. }
    unfold when in E. case_match; unfold modify, onFrame in E; simpl in E;
      injection E as <-; destruct changed; [|reflexivity].
    simpl. apply lastValidPair_store. right.
    unfold lastValidPair. by rewrite lookup.
Qed.

End FrameProperties.

Section ReachableRecords.

Variable cfg : Config.
Variable hal : PowerHal.

Lemma store_consistent f displayId d :
  recordsConsistent f ->
  (is_Some (lastValidGpuStartTime d) -> is_Some (gpuStartTime d)) ->
  recordsConsistent (storeDisplayData displayId d f).
Proof.
  intros ok okd id d' lookup. unfold storeDisplayData in lookup.
  change (mDisplayTimingData (set_mDisplayTimingData ?m f)) with m in lookup.
  rewrite lookup_insert in lookup. case_decide; [by simplify_eq|by eapply ok].
Qed.

Lemma displayData_consistent f displayId :
  recordsConsistent f ->
  is_Some (lastValidGpuStartTime (displayData f displayId)) ->
  is_Some (gpuStartTime (displayData f displayId)).
Proof.
  intros ok. unfold displayData.
  destruct (mDisplayTimingData f !! displayId) as [d|] eqn:lookup; simpl.
  - by eapply ok.
  - by intros [? ?].
Qed.

(** The setters keep the records consistent: the only writes of the
    last-valid start are followed by a write of the start time, or happen
    in [setGpuFenceTime] when it also records the start time. *)
Lemma step_records_consistent op s u s' :
  recordsConsistent (frame s) ->
  step cfg hal op s = Done (u, s') ->
  recordsConsistent (frame s').
Proof.
  intros ok E.
  destruct (touchesFrame op) eqn:touches.
  2: { destruct (step_facts_done cfg hal _ _ _ _ E) as (l & _ & _ & _ & _ & _ & _ & _ & Hframe).
       destruct Hframe as [Hf | Hf]; [congruence|]. by rewrite Hf. }
  destruct s as [h f bo log]. simpl in ok.
  pose proof (fun id => displayData_consistent f id ok) as okd.
  destruct op; try discriminate touches; simpl in E; unfold_ops;
    unfold bind, ret, gets, modify, liftR, onFrame in E; simpl in E.
  all: try (injection E as <- <-; simpl;
            first [ exact ok | apply store_consistent; [exact ok|]; simpl; by auto ]).
  - (* setGpuStartTime *)
    repeat (case_match; simplify_eq/=); apply store_consistent; try done; simpl; eauto.
  - (* setGpuFenceTime *)
    destruct (adpf_gpu_sf cfg); simpl in E.
    + repeat (case_match; simplify_eq/=); apply store_consistent; try done; simpl; by auto.
    + repeat (case_match; simplify_eq/=); apply store_consistent; try done; simpl; eauto.
  - (* a pending fence resolves *)
    unfold when, modify, onFrame, ret in E.
    repeat (case_match; simplify_eq/=); try done.
    apply store_consistent; [done|]. simpl. by eapply ok.
Qed.

Lemma run_records_consistent ops :
  forall s s',
    recordsConsistent (frame s) ->
    run cfg hal ops s = Done s' ->
    recordsConsistent (frame s').
Proof.
  induction ops as [|op ops IH]; simpl; intros s s' ok E.
  - by injection E as <-.
  - destruct (step cfg hal op s) as [[u s1]| |] eqn:Estep; try discriminate.
    eapply IH; [|exact E]. by eapply step_records_consistent.
Qed.

(** On every record of an object that has been operated on since its
    construction, [estimateGpuTiming] returns, and it yields a timing
    exactly when its guard holds. *)
Lemma gpu_timing_on_reachable_records target ops s displayId d previousEndTime now :
  run cfg hal ops (initial target) = Done s ->
  mDisplayTimingData (frame s) !! displayId = Some d ->
  (exists g, estimateGpuTiming d previousEndTime now = Done (Some g)) <->
  gpuTimingGuard d = true.
Proof.
  intros E lookup.
  assert (recordsConsistent (frame s)) as ok.
  { eapply run_records_consistent; [|exact E]. intros id d' H. by simplify_map_eq. }
  specialize (ok displayId d lookup).
  unfold estimateGpuTiming, gpuTimingGuard in *.
  destruct (requiresRenderEngine d && has_value (lastValidGpuStartTime d)
            && has_value (gpuEndFenceTime d)) eqn:guard; simpl.
  - split; [done|]. intros _.
    apply andb_prop in guard as [guard fence].
    apply andb_prop in guard as [_ lastStart].
    destruct (lastValidGpuStartTime d) as [ls|]; [|discriminate].
    destruct ok as [g ->]; [by eauto|]. simpl.
    destruct (gpuEndFenceTime d) as [sig|]; [|discriminate]. simpl.
    destruct (signaled sig); simpl; [eauto|].
    destruct (lastValidGpuEndTime d); simpl; [|eauto].
    destruct (sig =? SIGNAL_TIME_PENDING); eauto.
  - split; [|discriminate]. by intros [g Hg].
Qed.

End ReachableRecords.

Lemma C9_last_valid_only_after_signal_witness :
  fenceHasSignaled
    (frame (stateAfter exampleConfig obligingHal renderedOps freshAdvisor)) 1%N.
Proof.
  refine (proj1 (C9_last_valid_only_after_signal exampleConfig obligingHal
    (SetGpuStartTime 1%N 1000)
    (stateAfter exampleConfig obligingHal renderedOps freshAdvisor)
    (stateAfter exampleConfig obligingHal (renderedOps ++ [SetGpuStartTime 1%N 1000])
       freshAdvisor) 1%N _ _)).
  - vm_compute. reflexivity.
  - vm_compute. discriminate.
Defined.

(** * Further properties of the code *)

(** ** The display timeline *)

(** X1: [calculateDisplayTimeline] returns a timeline exactly when the
    optionals it dereferences hold a value, whatever the fence time: the
    validate pair when validate was skipped and the present pair
    otherwise, the present start when a delayed time is recorded, and the
    present end when the delayed time is later than the present start.  In
    every other case it reads an empty optional. *)
Theorem X1_timeline_defined (cfg : Config) (d : DisplayTimingData)
    (fenceTime : TimePoint) :
  ((exists tl, calculateDisplayTimeline cfg d fenceTime = Done tl) <->
   timelineReadable d = true) /\
  (timelineReadable d = false ->
   calculateDisplayTimeline cfg d fenceTime = Undefined).
Proof.
  unfold calculateDisplayTimeline, timelineReadable.
  destruct (skippedValidate d), (hwcValidateStartTime d), (hwcValidateEndTime d),
    (hwcPresentStartTime d) as [start|], (hwcPresentEndTime d) as [finish|],
    (hwcPresentDelayedTime d) as [delayed|]; simpl;
    try destruct (delayed >? start) eqn:later; simpl;
    try destruct (delayed <? finish); simpl;
    (split; [split; [intros [tl H]; first [done | discriminate H] | intros H; first [by eauto | discriminate H]] | intros H; first [done | discriminate H]]).
Qed.

(** X2: in the timeline [calculateDisplayTimeline] returns, the present
    delay is never negative and, when positive, is shorter than the present
    call of the display; the time spent after the present fence is at most
    the time between the start of the fence wait and the end of present,
    and is positive when the frame waits for the fence. *)
Theorem X2_timeline_bounds (cfg : Config) (d : DisplayTimingData)
    (fenceTime : TimePoint) (tl : Timeline.t) :
  calculateDisplayTimeline cfg d fenceTime = Done tl ->
  0 <= Timeline.hwcPresentDelayDuration tl /\
  (0 < Timeline.hwcPresentDelayDuration tl ->
   exists start finish,
     hwcPresentStartTime d = Some start /\ hwcPresentEndTime d = Some finish /\
     Timeline.hwcPresentDelayDuration tl < finish - start) /\
  Timeline.postPresentFenceHwcPresentDuration tl <=
    Timeline.hwcPresentEndTime tl - Timeline.presentFenceWaitStartTime tl /\
  (Timeline.probablyWaitsForPresentFence tl = true ->
   0 < Timeline.postPresentFenceHwcPresentDuration tl).
Proof.
  unfold calculateDisplayTimeline.
  destruct (skippedValidate d), (hwcValidateStartTime d), (hwcValidateEndTime d),
    (hwcPresentStartTime d) as [start|], (hwcPresentEndTime d) as [finish|],
    (hwcPresentDelayedTime d) as [delayed|]; simpl;
    try destruct (delayed >? start) eqn:later; simpl;
    try destruct (delayed <? finish) eqn:earlier; simpl;
    try discriminate; intros [= <-]; simpl.
  all: repeat match goal with
              | |- context [?a >? ?b] => destruct (Z.gtb_spec a b)
              | |- context [?a <? ?b] => destruct (Z.ltb_spec a b)
              | H : (?a >? ?b) = _ |- _ =>
                  let H' := fresh in
                  pose proof (Z.gtb_spec a b) as H'; rewrite H in H'; inversion H'; clear H
              | H : (?a <? ?b) = _ |- _ =>
                  let H' := fresh in
                  pose proof (Z.ltb_spec a b) as H'; rewrite H in H'; inversion H'; clear H
              end; simpl.
  all: repeat split; intros; try lia; try discriminate; eauto with lia.
Qed.

Lemma X2_timeline_bounds_witness :
  exists start finish,
    hwcPresentStartTime delayedRecord = Some start /\
    hwcPresentEndTime delayedRecord = Some finish /\
    300 < finish - start.
Proof.
  refine (proj1 (proj2 (X2_timeline_bounds exampleConfig delayedRecord 1800
    {| Timeline.hwcPresentStartTime := 1000;
       Timeline.hwcPresentEndTime := 2000;
       Timeline.hwcPresentDelayDuration := 300;
       Timeline.presentFenceWaitStartTime := 1450;
       Timeline.probablyWaitsForPresentFence := true;
       Timeline.postPresentFenceHwcPresentDuration := 200 |} _)) _).
  - reflexivity.
  - simpl. lia.
Defined.

(** X3: when the guard of [estimateGpuTiming] holds, the GPU start is
    recorded and the end fence has signaled, the estimated GPU interval
    starts at the later of the previous display's end and the recorded
    start, and ends exactly at the signal time of the fence, whatever the
    clock reads. *)
Theorem X3_signaled_gpu_interval (d : DisplayTimingData)
    (previousEndTime : option TimePoint) (now start signalTime : TimePoint) :
  gpuTimingGuard d = true ->
  gpuStartTime d = Some start ->
  gpuEndFenceTime d = Some signalTime ->
  signaled signalTime = true ->
  exists g,
    estimateGpuTiming d previousEndTime now = Done (Some g) /\
    Gpu.startTime g = Z.max (value_or previousEndTime 0) start /\
    Gpu.startTime g + Gpu.duration g = signalTime.
Proof.
  unfold gpuTimingGuard, estimateGpuTiming.
  intros guard started fence sig. rewrite guard, started, fence. simpl.
  rewrite sig. simpl.
  eexists. split; [reflexivity|]. simpl. split; [reflexivity|lia].
Qed.

Lemma X3_signaled_gpu_interval_witness :
  exists g,
    estimateGpuTiming signaledRecord (Some 12000) 20000 = Done (Some g) /\
    Gpu.startTime g = 12000 /\
    Gpu.startTime g + Gpu.duration g = 15000.
Proof.
  apply (X3_signaled_gpu_interval signaledRecord (Some 12000) 20000 10000 15000);
    reflexivity.
Defined.

(** ** Idle time in the estimate *)

(** The idle time one display adds to the walk is not negative. *)
Lemma timeline_idle_nonneg cfg d fenceTime tl :
  calculateDisplayTimeline cfg d fenceTime = Done tl ->
  0 <= (if Timeline.probablyWaitsForPresentFence tl
        then fenceTime - Timeline.presentFenceWaitStartTime tl else 0)
       + Timeline.hwcPresentDelayDuration tl.
Proof.
  unfold calculateDisplayTimeline.
  destruct (skippedValidate d), (hwcValidateStartTime d), (hwcValidateEndTime d),
    (hwcPresentStartTime d) as [start|], (hwcPresentEndTime d) as [finish|],
    (hwcPresentDelayedTime d) as [delayed|]; simpl;
    try destruct (delayed >? start) eqn:later; simpl;
    try destruct (delayed <? finish) eqn:earlier; simpl;
    try discriminate; intros [= <-]; simpl.
  all: try (apply Z.gtb_lt in later).
  all: match goal with
       | |- context [(?a >? ?b) && ?c] =>
           destruct (Z.gtb_spec a b); simpl; [destruct c|]; lia
       end.
Qed.

Lemma walkStep_idle cfg f now acc id acc' :
  walkStep cfg f now acc id = Done acc' -> idleDuration acc <= idleDuration acc'.
Proof.
  unfold walkStep.
  destruct (mDisplayTimingData f !! id) as [d|]; [|intros [= <-]; lia].
  destruct (calculateDisplayTimeline cfg d (mLastPresentFenceTime f)) as [tl| |] eqn:Htl;
    simpl; try discriminate.
  pose proof (timeline_idle_nonneg _ _ _ _ Htl) as idle.
  destruct (estimateGpuTiming d (previousValidGpuEndTime acc) now) as [[g|]| |];
    simpl; try discriminate; intros [= <-]; simpl; lia.
Qed.

Lemma walkDisplays_idle cfg f clock displayIds :
  forall k acc acc',
    walkDisplays cfg f clock k acc displayIds = Done acc' ->
    idleDuration acc <= idleDuration acc'.
Proof.
  induction displayIds as [|id rest IH]; simpl; intros k acc acc' E.
  - injection E as <-. lia.
  - destruct (walkStep cfg f (clock k) acc id) as [acc1| |] eqn:Estep;
      simpl in E; try discriminate.
    apply walkStep_idle in Estep. apply IH in E. lia.
Qed.

(** What the estimate is made of when no total-frame target is set: the
    time from the oldest commit start to the end of SurfaceFlinger's
    present, plus the post-composition time, minus the idle time of the
    walk. *)
Lemma estimateWorkDuration_flinger cfg h f clock w :
  estimateWorkDuration cfg h f clock = Done (Some w) ->
  exists commitStart idle,
    mCommitStartTimes f !! 0%nat = Some commitStart /\
    0 <= idle /\
    workPeriodStartTimestampNanos w = commitStart /\
    (mTotalFrameTargetDuration f = None ->
     durationNanos w =
       mLastSfPresentEndTime f - idle + mLastPostcompDuration f - commitStart).
Proof.
  unfold estimateWorkDuration, RingBuffer.get. intros E.
  destruct (negb _ || negb _); [discriminate|].
  destruct (mCommitStartTimes f !! 0%nat) as [commitStart|]; simpl in E; [|discriminate].
  destruct (walkDisplays cfg f clock 0 _ _) as [acc| |] eqn:walk; simpl in E;
    try discriminate.
  apply walkDisplays_idle in walk. simpl in walk.
  exists commitStart, (idleDuration acc).
  split; [reflexivity|]. split; [exact walk|].
  destruct (combineTimingEstimates _ _ (_ + Z.max _ _ - _) _) as [total| |] eqn:combined;
    simpl in E; try discriminate.
  destruct (combineTimingEstimates _ _ (_ + (_ - _) - _) _) as [cpu| |];
    simpl in E; try discriminate.
  injection E as <-. simpl. split; [reflexivity|].
  intros none. rewrite none in combined. by injection combined as <-.
Qed.

(** X4: when no total-frame target is set, the duration
    [estimateWorkDuration] reports is measured from the oldest commit start
    in the ring buffer and is never longer than the time from that commit
    start to the end of SurfaceFlinger's present plus the post-composition
    time: the idle time taken off is never negative. *)
Theorem X4_idle_only_shortens (cfg : Config) (h : HintState) (f : FrameState)
    (clock : nat -> TimePoint) (w : WorkDuration) :
  estimateWorkDuration cfg h f clock = Done (Some w) ->
  mTotalFrameTargetDuration f = None ->
  exists commitStart,
    mCommitStartTimes f !! 0%nat = Some commitStart /\
    workPeriodStartTimestampNanos w = commitStart /\
    durationNanos w <= mLastSfPresentEndTime f + mLastPostcompDuration f - commitStart.
Proof.
  intros E none.
  destruct (estimateWorkDuration_flinger _ _ _ _ _ E)
    as (commitStart & idle & oldest & nonneg & start & duration).
  exists commitStart. split; [exact oldest|]. split; [exact start|].
  rewrite (duration none). lia.
Qed.

Lemma X4_idle_only_shortens_witness :
  exists commitStart,
    mCommitStartTimes waitingFrame !! 0%nat = Some commitStart /\
    workPeriodStartTimestampNanos waitingEstimate = commitStart /\
    durationNanos waitingEstimate <= 2100 + 0 - commitStart.
Proof.
  apply (X4_idle_only_shortens exampleConfig (hint freshAdvisor) waitingFrame
           (fun _ => 0) waitingEstimate); reflexivity.
Defined.

(** Normalising to the target keeps the order of two durations when the
    target is not negative and the total-frame target is positive. *)
Lemma combineTimingEstimates_monotone target totalFrameTarget shorter longer flinger a b :
  0 <= target ->
  (forall t, totalFrameTarget = Some t -> 0 < t) ->
  shorter <= longer ->
  combineTimingEstimates target totalFrameTarget shorter flinger = Done a ->
  combineTimingEstimates target totalFrameTarget longer flinger = Done b ->
  a <= b.
Proof.
  intros nonneg positive ordered. unfold combineTimingEstimates.
  destruct totalFrameTarget as [t|]; [|intros [= <-] [= <-]; lia].
  specialize (positive t eq_refl).
  repeat (case_match; try discriminate). intros [= <-] [= <-].
  assert ((target * shorter) ÷ t <= (target * longer) ÷ t)
    by (apply Z.quot_le_mono; nia).
  lia.
Qed.

(** X26: of the durations [estimateWorkDuration] reports, the CPU duration
    never exceeds the total duration when GPU reporting is on, the target
    is not negative and the total-frame target, if set, is positive; when
    GPU reporting is off the CPU and GPU durations are both reported as
    zero. *)
Theorem X26_cpu_duration_within_total (cfg : Config) (h : HintState) (f : FrameState)
    (clock : nat -> TimePoint) (w : WorkDuration) :
  estimateWorkDuration cfg h f clock = Done (Some w) ->
  0 <= mTargetDuration h ->
  (forall t, mTotalFrameTargetDuration f = Some t -> 0 < t) ->
  if adpf_gpu_sf cfg
  then cpuDurationNanos w <= durationNanos w
  else cpuDurationNanos w = 0 /\ gpuDurationNanos w = 0.
Proof.
  unfold estimateWorkDuration, RingBuffer.get. intros E nonneg positive.
  destruct (negb _ || negb _); [discriminate|].
  destruct (mCommitStartTimes f !! 0%nat) as [commitStart|]; simpl in E; [|discriminate].
  destruct (walkDisplays cfg f clock 0 _ _) as [acc| |]; simpl in E; try discriminate.
  destruct (combineTimingEstimates _ _ (_ + Z.max _ _ - _) _) as [total| |] eqn:combined;
    simpl in E; try discriminate.
  destruct (combineTimingEstimates _ _ (_ + (_ - _) - _) _) as [cpu| |] eqn:cpuOnly;
    simpl in E; try discriminate.
  injection E as <-. simpl.
  destruct (adpf_gpu_sf cfg); [|by split].
  eapply combineTimingEstimates_monotone;
    [exact nonneg|exact positive| |exact cpuOnly|exact combined].
  lia.
Qed.

Lemma X26_cpu_duration_within_total_witness :
  cpuDurationNanos waitingEstimate <= durationNanos waitingEstimate.
Proof.
  refine (X26_cpu_duration_within_total exampleConfig (hint freshAdvisor) waitingFrame
            (fun _ => 0) waitingEstimate _ _ _).
  - reflexivity.
  - simpl. lia.
  - discriminate.
Defined.



(** ** The order of the displays *)

Section DisplayOrder.

Variable sortBy : DisplayTimingData -> option TimePoint.
Variable f : FrameState.

Lemma insertByKey_perm x l : insertByKey x l ≡ₚ x :: l.
Proof.
  induction l as [|y rest IH]; simpl; [reflexivity|].
  destruct (y.1 <? x.1); [|reflexivity].
  rewrite IH. apply Permutation_swap.
Qed.

Lemma sortByKey_perm l : sortByKey l ≡ₚ l.
Proof.
  induction l as [|x rest IH]; simpl; [reflexivity|].
  unfold sortByKey in *. simpl. rewrite insertByKey_perm. by rewrite IH.
Qed.

Lemma insertByKey_sorted x l :
  StronglySorted (fun a b : TimePoint * DisplayId => a.1 <= b.1) l ->
  StronglySorted (fun a b : TimePoint * DisplayId => a.1 <= b.1) (insertByKey x l).
Proof.
  induction 1 as [|y rest sorted IH least]; simpl.
  - repeat constructor.
  - destruct (Z.ltb_spec y.1 x.1) as [below | above].
    + constructor; [exact IH|].
      rewrite insertByKey_perm. constructor; [lia|exact least].
    + constructor; [by constructor|].
      constructor; [exact above|].
      eapply Forall_impl; [exact least|]. simpl. intros z Hz. lia.
Qed.

Lemma sortByKey_sorted l :
  StronglySorted (fun a b : TimePoint * DisplayId => a.1 <= b.1) (sortByKey l).
Proof.
  induction l as [|x rest IH]; [constructor|].
  unfold sortByKey in *. simpl. by apply insertByKey_sorted.
Qed.

Lemma keyed_ids displayIds :
  (keyedDisplays sortBy f displayIds).*2 =
  filter (fun id => is_Some (sortKey sortBy f id)) displayIds.
Proof.
  induction displayIds as [|id rest IH]; [reflexivity|].
  unfold keyedDisplays in *. simpl.
  destruct (mDisplayTimingData f !! id) as [d|] eqn:lookup; simpl.
  - destruct (sortBy d) as [key|] eqn:set; simpl.
    + rewrite filter_cons_True
        by (unfold sortKey; rewrite lookup; simpl; rewrite set; eauto).
      by rewrite <- IH.
    + rewrite filter_cons_False; [exact IH|].
      unfold sortKey. rewrite lookup. simpl. rewrite set. by intros [? ?].
  - rewrite filter_cons_False; [exact IH|].
    unfold sortKey. rewrite lookup. simpl. by intros [? ?].
Qed.

Lemma keyed_keys displayIds :
  Forall (fun e => sortKey sortBy f e.2 = Some e.1) (keyedDisplays sortBy f displayIds).
Proof.
  induction displayIds as [|id rest IH]; [constructor|].
  unfold keyedDisplays in *. simpl.
  destruct (mDisplayTimingData f !! id) as [d|] eqn:lookup; simpl; [|exact IH].
  destruct (sortBy d) as [key|] eqn:set; simpl; [|exact IH].
  constructor; [|exact IH]. unfold sortKey. simpl. by rewrite lookup.
Qed.

(** X5: [getOrderedDisplayIds] returns the displays of [mDisplayIds] that
    have a record in which the chosen timestamp is set, each as often as it
    is listed and no other: a display without a record or without the
    timestamp is left out. *)
Theorem X5_ordered_ids_are_the_set_ones :
  getOrderedDisplayIds sortBy f ≡ₚ
  filter (fun id => is_Some (sortKey sortBy f id)) (mDisplayIds f).
Proof.
  unfold getOrderedDisplayIds. fold (keyedDisplays sortBy f (mDisplayIds f)).
  rewrite sortByKey_perm. by rewrite keyed_ids.
Qed.

(** X6: the displays [getOrderedDisplayIds] returns are in ascending order
    of the chosen timestamp: every display of the result has the timestamp
    set, and the timestamps read along the result never decrease. *)
Theorem X6_ordered_ids_ascend :
  exists keys,
    Forall2 (fun id key => sortKey sortBy f id = Some key)
      (getOrderedDisplayIds sortBy f) keys /\
    StronglySorted Z.le keys.
Proof.
  unfold getOrderedDisplayIds. fold (keyedDisplays sortBy f (mDisplayIds f)).
  exists (sortByKey (keyedDisplays sortBy f (mDisplayIds f))).*1. split.
  - apply Forall2_fmap. apply Forall_Forall2_diag.
    rewrite sortByKey_perm. apply keyed_keys.
  - pose proof (sortByKey_sorted (keyedDisplays sortBy f (mDisplayIds f))) as sorted.
    induction sorted as [|e rest _ IH least]; simpl; constructor; [exact IH|].
    apply Forall_fmap. exact least.
Qed.

End DisplayOrder.

(** ** The timing records *)

Section TimingRecords.

Variable cfg : Config.
Variable hal : PowerHal.

(** What a timing operation leaves in the map of records: the map it
    found, or that map with the record of the display it names replaced. *)
Lemma step_records op s u s' :
  step cfg hal op s = Done (u, s') ->
  mDisplayTimingData (frame s') = mDisplayTimingData (frame s) \/
  exists displayId d,
    recordTouched op = Some displayId /\
    mDisplayTimingData (frame s') = <[displayId := d]> (mDisplayTimingData (frame s)) /\
    (recordWritten op = None -> is_Some (mDisplayTimingData (frame s) !! displayId)).
Proof.
  intros E.
  destruct (touchesFrame op) eqn:touches.
  2: { destruct (step_facts_done cfg hal _ _ _ _ E) as (l & _ & _ & _ & _ & _ & _ & _ & Hframe).
       destruct Hframe as [Hf | Hf]; [congruence|]. left. by rewrite Hf. }
  destruct s as [h f bo log].
  destruct op; try discriminate touches; simpl in E; unfold_ops;
    unfold updateDisplay, when in E;
    unfold bind, ret, gets, modify, liftR, onFrame in E; simpl in E.
  all: repeat (case_match; simplify_eq/=); simplify_eq/=.
  all: first [ by left
             | right; eexists _, _; split; [reflexivity|];
               split; [reflexivity|]; first [done | eauto] ].
Qed.

(** X7: an operation changes no record but that of the display it names;
    a timing setter creates the record of its display when there is none,
    and no operation removes a record. *)
Theorem X7_records_of_other_displays_kept op s s' :
  step cfg hal op s = Done (tt, s') ->
  dom (mDisplayTimingData (frame s')) =
    match recordWritten op with
    | Some displayId => {[displayId]} ∪ dom (mDisplayTimingData (frame s))
    | None => dom (mDisplayTimingData (frame s))
    end /\
  forall other,
    recordTouched op <> Some other ->
    mDisplayTimingData (frame s') !! other = mDisplayTimingData (frame s) !! other.
Proof.
  intros E.
  assert (recordWritten op = None \/
          exists displayId d, recordWritten op = Some displayId /\
            mDisplayTimingData (frame s') =
              <[displayId := d]> (mDisplayTimingData (frame s))) as written.
  { destruct s as [h f bo log].
    destruct op; try (by left); right; simpl in E; unfold_ops;
      unfold updateDisplay, when in E;
      unfold bind, ret, gets, modify, liftR, onFrame in E; simpl in E.
    all: repeat (case_match; simplify_eq/=); simplify_eq/=.
    all: eexists _, _; split; reflexivity. }
  destruct (step_records op s tt s' E) as [same | (id & d & touched & stored & known)].
  - split; [|by rewrite same].
    destruct written as [-> | (id & d & -> & stored)]; [by rewrite same|].
    rewrite stored, dom_insert_L. reflexivity.
  - split.
    + destruct written as [none | (id' & d' & -> & stored')].
      * rewrite none, stored, dom_insert_L.
        apply subseteq_union_1_L, singleton_subseteq_l, elem_of_dom.
        exact (known none).
      * rewrite stored', dom_insert_L. reflexivity.
    + intros other differs. rewrite stored, lookup_insert_ne; [reflexivity|].
      congruence.
Qed.

(** *** Reading the GPU times *)

Lemma overlappingGpuEnd_returns checksEnd start records :
  Forall (fun d => is_Some (lastValidGpuStartTime d) ->
                   is_Some (lastValidGpuEndTime d)) records ->
  exists found,
    overlappingGpuEnd checksEnd (Some start) records = Done found /\
    forall otherEnd, found = Some otherEnd -> start < otherEnd.
Proof.
  induction 1 as [|other rest paired _ IH]; simpl.
  - exists None. split; [reflexivity|discriminate].
  - destruct (lastValidGpuStartTime other) as [otherStart|]; simpl; [|exact IH].
    destruct paired as [otherEnd ->]; [by eauto|].
    rewrite andb_false_r. simpl.
    destruct (otherStart <? start); simpl; [|exact IH].
    destruct (Z.gtb_spec otherEnd start); [|exact IH].
    exists (Some otherEnd). split; [reflexivity|]. by intros ? [= <-].
Qed.

Lemma ready_displayData f displayId :
  gpuRecordsReady f ->
  (is_Some (gpuEndFenceTime (displayData f displayId)) ->
   is_Some (gpuStartTime (displayData f displayId))) /\
  (is_Some (lastValidGpuStartTime (displayData f displayId)) ->
   is_Some (lastValidGpuEndTime (displayData f displayId))).
Proof.
  intros ready. unfold displayData.
  destruct (mDisplayTimingData f !! displayId) as [d|] eqn:lookup; simpl.
  - by eapply ready.
  - split; by intros [? ?].
Qed.

Lemma ready_store f displayId d :
  gpuRecordsReady f ->
  (is_Some (gpuEndFenceTime d) -> is_Some (gpuStartTime d)) ->
  (is_Some (lastValidGpuStartTime d) -> is_Some (lastValidGpuEndTime d)) ->
  gpuRecordsReady (storeDisplayData displayId d f).
Proof.
  intros ready fence paired id d' lookup. unfold storeDisplayData in lookup.
  change (mDisplayTimingData (set_mDisplayTimingData ?m f)) with m in lookup.
  rewrite lookup_insert in lookup. case_decide; [by simplify_eq|by eapply ready].
Qed.

(** The promotion of the previous frame returns when the frame's GPU start
    is recorded; it writes the two last-valid times only, and never moves
    the start to an earlier time. *)
Lemma promoteLastValid_returns checksEnd f displayId d signalTime start :
  gpuRecordsReady f ->
  gpuStartTime d = Some start ->
  exists lastStart,
    promoteLastValid checksEnd f displayId d signalTime =
      Done (set_lastValidGpuStartTime (Some lastStart)
              (set_lastValidGpuEndTime (Some signalTime) d)) /\
    start <= lastStart.
Proof.
  intros ready started. unfold promoteLastValid.
  destruct (overlappingGpuEnd_returns checksEnd start
    (map_to_list (<[displayId :=
        set_lastValidGpuEndTime (Some signalTime)
          (set_lastValidGpuStartTime (gpuStartTime d) d)]>
        (mDisplayTimingData f))).*2) as (found & Hfound & later).
  { apply Forall_forall. intros other Hin.
    apply list_elem_of_fmap in Hin as ([id other'] & -> & Hin).
    apply elem_of_map_to_list in Hin. simpl.
    rewrite lookup_insert in Hin. case_decide.
    - simplify_eq. simpl. by eauto.
    - by eapply ready. }
  simpl. rewrite started in *. rewrite Hfound. simpl.
  destruct found as [otherEnd|].
  - exists otherEnd. split; [reflexivity|]. specialize (later _ eq_refl). lia.
  - exists start. split; [reflexivity|lia].
Qed.

(** X8: in an object whose records pair every fence with a GPU start time
    and every last-valid start with a last-valid end, a timing setter never
    reads an empty optional, and it leaves the records paired in the same
    way, provided a fence is handed over only for a display whose GPU start
    time is recorded; with [adpf_gpu_sf] off [setGpuFenceTime] records the
    start time itself and nothing is asked of the caller. *)
Theorem X8_setters_read_no_empty_optional op s :
  gpuRecordsReady (frame s) ->
  fenceAfterStart cfg s op ->
  touchesFrame op = true ->
  exists s',
    step cfg hal op s = Done (tt, s') /\ gpuRecordsReady (frame s').
Proof.
  intros ready ordered touches.
  destruct s as [h f bo log]. simpl in ready.
  pose proof (fun id => ready_displayData f id ready) as readyData.
  destruct op; try discriminate touches; simpl; unfold_ops;
    unfold updateDisplay, when; unfold bind, ret, gets, modify, liftR, onFrame; simpl.
  all: try (eexists; split; [reflexivity|]; simpl;
            first [ exact ready
                  | apply ready_store; [exact ready| |]; simpl; apply readyData ]).
  - (* setGpuStartTime *)
    destruct (readyData displayId) as [fence paired].
    destruct (gpuEndFenceTime (displayData f displayId)) as [signalTime|] eqn:held; simpl.
    2: { eexists. split; [reflexivity|]. simpl.
         apply ready_store; [exact ready| |]; simpl; [by eauto|exact paired]. }
    destruct (signaled signalTime); simpl.
    2: { eexists. split; [reflexivity|]. simpl.
         apply ready_store; [exact ready| |]; simpl; [by eauto|exact paired]. }
    destruct fence as [start started]; [by eauto|].
    destruct (promoteLastValid_returns true f displayId _ signalTime start ready started)
      as (lastStart & -> & _). simpl.
    eexists. split; [reflexivity|]. simpl.
    apply ready_store; [exact ready| |]; simpl; by eauto.
  - (* setGpuFenceTime *)
    destruct (readyData displayId) as [fence paired]. simpl in ordered.
    destruct (adpf_gpu_sf cfg) eqn:flag; simpl.
    + assert (exists d, match gpuEndFenceTime (displayData f displayId) with
                        | Some _ => Done (displayData f displayId)
                        | None => Done (displayData f displayId)
                        end = Done d /\ d = displayData f displayId) as (d & -> & ->).
      { destruct (gpuEndFenceTime (displayData f displayId)); eauto. }
      eexists. split; [reflexivity|]. simpl.
      apply ready_store; [exact ready| |]; simpl; [|exact paired].
      intros _. by apply ordered.
    + destruct (gpuEndFenceTime (displayData f displayId)) as [signalTime|] eqn:held; simpl.
      2: { eexists. split; [reflexivity|]. simpl.
           apply ready_store; [exact ready| |]; simpl; [by eauto|exact paired]. }
      destruct (signaled signalTime); simpl.
      2: { eexists. split; [reflexivity|]. simpl.
           apply ready_store; [exact ready| |]; simpl; [by eauto|exact paired]. }
      destruct fence as [start started]; [by eauto|].
      destruct (promoteLastValid_returns false f displayId _ signalTime start ready started)
        as (lastStart & -> & _). simpl.
      eexists. split; [reflexivity|]. simpl.
      apply ready_store; [exact ready| |]; simpl; by eauto.
  - (* a pending fence resolves *)
    destruct (mDisplayTimingData f !! displayId) as [d|] eqn:lookup; simpl.
    2: { eexists. split; [reflexivity|]. exact ready. }
    destruct (bool_decide (gpuEndFenceTime d = Some SIGNAL_TIME_PENDING)) eqn:pending;
      simpl.
    2: { eexists. split; [reflexivity|]. exact ready. }
    apply bool_decide_eq_true in pending.
    eexists. split; [reflexivity|]. simpl.
    destruct (ready displayId d lookup) as [fence paired].
    apply ready_store; [exact ready| |]; simpl; [|exact paired].
    intros _. apply fence. rewrite pending. by eauto.
Qed.

Lemma overlappingGpuEnd_later checksEnd start records otherEnd :
  overlappingGpuEnd checksEnd (Some start) records = Done (Some otherEnd) ->
  start < otherEnd.
Proof.
  induction records as [|other rest IH]; simpl; [discriminate|].
  destruct (negb (has_value (lastValidGpuStartTime other))
            || checksEnd && negb (has_value (lastValidGpuEndTime other)));
    [exact IH|].
  destruct (lastValidGpuStartTime other) as [otherStart|]; simpl; [|discriminate].
  destruct (otherStart <? start); [|exact IH].
  destruct (lastValidGpuEndTime other) as [e|]; simpl; [|discriminate].
  destruct (Z.gtb_spec e start); [|exact IH].
  by intros [= <-].
Qed.

Lemma promoteLastValid_shape checksEnd f displayId d signalTime start d' :
  promoteLastValid checksEnd f displayId d signalTime = Done d' ->
  gpuStartTime d = Some start ->
  exists lastStart,
    d' = set_lastValidGpuStartTime (Some lastStart)
           (set_lastValidGpuEndTime (Some signalTime) d) /\
    start <= lastStart.
Proof.
  unfold promoteLastValid. intros E started. simpl in E. rewrite started in E.
  destruct (overlappingGpuEnd checksEnd (Some start) _) as [[otherEnd|]| |] eqn:found;
    simpl in E; try discriminate; injection E as <-.
  - exists otherEnd. split; [reflexivity|].
    apply overlappingGpuEnd_later in found. lia.
  - exists start. split; [reflexivity|lia].
Qed.

(** X9: when [setGpuStartTime], or [setGpuFenceTime] with [adpf_gpu_sf]
    off, finds that the fence of the display has signaled, the frame that
    fence belongs to becomes the last valid one: its end is the signal time
    of the fence, and its start is the recorded GPU start of that frame or
    a later time, never an earlier one. *)
Theorem X9_signaled_frame_becomes_last_valid op s s' displayId signalTime start :
  step cfg hal op s = Done (tt, s') ->
  promotes cfg op displayId ->
  recordedFence (frame s) displayId = Some signalTime ->
  signaled signalTime = true ->
  gpuStartTime (displayData (frame s) displayId) = Some start ->
  exists lastStart,
    lastValidPair (frame s') displayId = (Some lastStart, Some signalTime) /\
    start <= lastStart.
Proof.
  intros E runs fence sig started.
  rewrite <- recordedFence_displayData in fence.
  destruct s as [h f bo log]. simpl in fence, started.
  destruct op; try (by destruct runs); simpl in runs, E; unfold_ops;
    unfold bind, ret, gets, modify, liftR, onFrame in E; simpl in E.
  - subst displayId0. rewrite fence, sig in E. simpl in E.
    destruct (promoteLastValid true f displayId _ signalTime) as [d'| |] eqn:promoted;
      simpl in E; try discriminate.
    destruct (promoteLastValid_shape _ _ _ _ _ _ _ promoted started)
      as (lastStart & -> & later).
    injection E as <-. exists lastStart. split; [|exact later].
    unfold lastValidPair. simpl. by rewrite lookup_insert_eq.
  - destruct runs as [-> flag]. rewrite fence, flag, sig in E. simpl in E.
    destruct (promoteLastValid false f displayId _ signalTime) as [d'| |] eqn:promoted;
      simpl in E; try discriminate.
    destruct (promoteLastValid_shape _ _ _ _ _ _ _ promoted started)
      as (lastStart & -> & later).
    injection E as <-. exists lastStart. split; [|exact later].
    unfold lastValidPair. simpl. by rewrite lookup_insert_eq.
Qed.

End TimingRecords.

Lemma X7_records_of_other_displays_kept_witness :
  mDisplayTimingData
    (frame (stateAfter exampleConfig obligingHal
              (renderedOps ++ [SetGpuStartTime 2%N 1000]) freshAdvisor)) !! 1%N =
  mDisplayTimingData
    (frame (stateAfter exampleConfig obligingHal renderedOps freshAdvisor)) !! 1%N.
Proof.
  refine (proj2 (X7_records_of_other_displays_kept exampleConfig obligingHal
    (SetGpuStartTime 2%N 1000)
    (stateAfter exampleConfig obligingHal renderedOps freshAdvisor)
    (stateAfter exampleConfig obligingHal (renderedOps ++ [SetGpuStartTime 2%N 1000])
       freshAdvisor) _) 1%N _).
  - vm_compute. reflexivity.
  - discriminate.
Defined.

Lemma X8_setters_read_no_empty_optional_witness :
  exists s',
    step cpuOnlyConfig obligingHal (SetGpuFenceTime 1%N (Some 900) 600)
      (stateAfter cpuOnlyConfig obligingHal
         [SetGpuFenceTime 1%N (Some 500) 100] freshAdvisor) = Done (tt, s') /\
    gpuRecordsReady (frame s').
Proof.
  apply (X8_setters_read_no_empty_optional cpuOnlyConfig obligingHal
           (SetGpuFenceTime 1%N (Some 900) 600)
           (stateAfter cpuOnlyConfig obligingHal
              [SetGpuFenceTime 1%N (Some 500) 100] freshAdvisor)).
  - intros id d lookup.
    change (<[1%N := set_gpuStartTime (Some 100)
                       (set_gpuEndFenceTime (Some 500) defaultDisplayTimingData)]>
              (∅ : gmap DisplayId DisplayTimingData) !! id = Some d) in lookup.
    apply lookup_insert_Some in lookup as [[_ <-] | [_ lookup]];
      [split; simpl; eauto|].
    by rewrite lookup_empty in lookup.
  - discriminate.
  - reflexivity.
Defined.

Lemma X9_signaled_frame_becomes_last_valid_witness :
  exists lastStart,
    lastValidPair
      (frame (stateAfter exampleConfig obligingHal
                (renderedOps ++ [SetGpuStartTime 1%N 1000]) freshAdvisor)) 1%N =
      (Some lastStart, Some 500) /\
    100 <= lastStart.
Proof.
  apply (X9_signaled_frame_becomes_last_valid exampleConfig obligingHal
           (SetGpuStartTime 1%N 1000)
           (stateAfter exampleConfig obligingHal renderedOps freshAdvisor)).
  - vm_compute. reflexivity.
  - reflexivity.
  - reflexivity.
  - reflexivity.
  - reflexivity.
Defined.

(** ** The calls on the power HAL *)

Lemma probes_nil : probes [] = [].
Proof. reflexivity. Qed.

Lemma probes_cons e l :
  probes (e :: l) = if isProbe e.1 then e :: probes l else probes l.
Proof.
  unfold probes. destruct (isProbe e.1) eqn:kind.
  - by rewrite filter_cons_True.
  - rewrite filter_cons_False; [done|]. rewrite kind. discriminate.
Qed.

Lemma probes_app l1 l2 : probes (l1 ++ l2) = probes l1 ++ probes l2.
Proof. apply filter_app. Qed.

Ltac count_probes :=
  rewrite ?probes_app;
  repeat (rewrite ?probes_cons, ?probes_nil; simpl);
  rewrite ?app_nil_r; simpl.

Ltac finish_session :=
  repeat split; intros; simplify_eq/=;
  repeat match goal with
         | H : _ && _ = true |- _ => apply andb_true_iff in H; destruct H
         | H : _ || _ = false |- _ => apply orb_false_iff in H; destruct H
         | H : _ ∈ _ :: _ |- _ => apply elem_of_cons in H; destruct H
         | H : _ ∈ [] |- _ => apply elem_of_nil in H; destruct H
         | |- _ => progress simplify_eq/=
         end;
  rewrite ?Forall_cons, ?Forall_nil; simpl;
  try done;
  first [ count_probes; lia
        | by left
        | right; eexists; split; [|apply list_elem_of_In; simpl; by eauto]; reflexivity
        | eexists; apply list_elem_of_In; simpl; by eauto 6
        | match goal with
          | H : negb ?b = true |- ?b = false => by destruct b
          end
        | naive_solver ].

Lemma negotiation_probes l :
  Forall (fun e : HalCall * HalResult => e.1 = GetHintSessionPreferredRate) l ->
  Forall (fun e => isNegotiation e.1 = true) l.
Proof.
  intros H. eapply Forall_impl; [exact H|]. intros [c r] E. simpl in *. by subst.
Qed.

Lemma negotiation_creations s l :
  Forall (creationEntry s) l -> Forall (fun e => isNegotiation e.1 = true) l.
Proof.
  intros H. eapply Forall_impl; [exact H|].
  intros [c r] E. unfold creationEntry in E. by destruct c.
Qed.

Lemma modeCalls_app l1 l2 : modeCalls (l1 ++ l2) = modeCalls l1 ++ modeCalls l2.
Proof. apply filter_app. Qed.

Lemma boostCalls_app l1 l2 : boostCalls (l1 ++ l2) = boostCalls l1 ++ boostCalls l2.
Proof. apply filter_app. Qed.

Lemma resetHints_app l1 l2 : resetHints (l1 ++ l2) = resetHints l1 ++ resetHints l2.
Proof. apply filter_app. Qed.

Lemma modeCalls_cons e l :
  modeCalls (e :: l) = if isModeCall e.1 then e :: modeCalls l else modeCalls l.
Proof.
  unfold modeCalls. destruct (isModeCall e.1) eqn:kind.
  - by rewrite filter_cons_True.
  - rewrite filter_cons_False; [done|]. rewrite kind. discriminate.
Qed.

Lemma boostCalls_cons e l :
  boostCalls (e :: l) = if isBoostCall e.1 then e :: boostCalls l else boostCalls l.
Proof.
  unfold boostCalls. destruct (isBoostCall e.1) eqn:kind.
  - by rewrite filter_cons_True.
  - rewrite filter_cons_False; [done|]. rewrite kind. discriminate.
Qed.

Lemma resetHints_cons e l :
  resetHints (e :: l) = if isResetHint e.1 then e :: resetHints l else resetHints l.
Proof.
  unfold resetHints. destruct (isResetHint e.1) eqn:kind.
  - by rewrite filter_cons_True.
  - rewrite filter_cons_False; [done|]. rewrite kind. discriminate.
Qed.

Lemma negotiation_modeCalls l :
  Forall (fun e => isNegotiation e.1 = true) l -> modeCalls l = [].
Proof.
  induction 1 as [|[c r] l kind _ IH]; [reflexivity|].
  rewrite modeCalls_cons. by destruct c.
Qed.

Lemma negotiation_boostCalls l :
  Forall (fun e => isNegotiation e.1 = true) l -> boostCalls l = [].
Proof.
  induction 1 as [|[c r] l kind _ IH]; [reflexivity|].
  rewrite boostCalls_cons. by destruct c.
Qed.

Lemma negotiation_resetHints l :
  Forall (fun e => isNegotiation e.1 = true) l -> resetHints l = [].
Proof.
  induction 1 as [|[c r] l kind _ IH]; [reflexivity|].
  rewrite resetHints_cons. by destruct c.
Qed.

Lemma modeAfter_app notified l1 l2 :
  modeAfter notified (l1 ++ l2) =
  modeAfter notified l1 ≫= fun acknowledged => modeAfter acknowledged l2.
Proof.
  revert notified. induction l1 as [|[c r] l1 IH]; intros notified; [reflexivity|].
  destruct c; simpl; try apply IH.
  destruct (eqb enabled notified); [reflexivity|apply IH].
Qed.

Lemma negotiation_modeAfter notified l :
  Forall (fun e => isNegotiation e.1 = true) l -> modeAfter notified l = Some notified.
Proof.
  induction 1 as [|[c r] l kind _ IH]; [reflexivity|].
  by destruct c.
Qed.

Lemma reportCalls_app l1 l2 : reportCalls (l1 ++ l2) = reportCalls l1 ++ reportCalls l2.
Proof. apply filter_app. Qed.

Lemma reportCalls_cons e l :
  reportCalls (e :: l) = if isReport e.1 then e :: reportCalls l else reportCalls l.
Proof.
  unfold reportCalls. destruct (isReport e.1) eqn:kind.
  - by rewrite filter_cons_True.
  - rewrite filter_cons_False; [done|]. rewrite kind. discriminate.
Qed.

Lemma negotiation_reportCalls l :
  Forall (fun e => isNegotiation e.1 = true) l -> reportCalls l = [].
Proof.
  induction 1 as [|[c r] l kind _ IH]; [reflexivity|].
  rewrite reportCalls_cons. by destruct c.
Qed.

(** The estimate reads no member of the session state but the target. *)
Lemma estimateWorkDuration_target cfg h h' f clock :
  mTargetDuration h = mTargetDuration h' ->
  estimateWorkDuration cfg h f clock = estimateWorkDuration cfg h' f clock.
Proof. intros same. unfold estimateWorkDuration. by rewrite same. Qed.

(** The calls of [usePowerHintSession] and
    [ensurePowerHintSessionRunning] are calls of negotiation. *)
Ltac negotiation :=
  repeat match goal with
         | H : Forall (fun e => e.1 = GetHintSessionPreferredRate) ?l |- _ =>
             apply negotiation_probes in H
         | H : Forall (creationEntry _) ?l |- _ =>
             apply negotiation_creations in H
         end;
  repeat (progress (
    rewrite ?modeCalls_app, ?boostCalls_app, ?resetHints_app, ?reportCalls_app,
      ?modeAfter_app;
    repeat match goal with
           | H : Forall (fun e => isNegotiation e.1 = true) ?l
             |- context [reportCalls ?l] => rewrite (negotiation_reportCalls l H)
           | H : Forall (fun e => isNegotiation e.1 = true) ?l
             |- context [modeCalls ?l] => rewrite (negotiation_modeCalls l H)
           | H : Forall (fun e => isNegotiation e.1 = true) ?l
             |- context [boostCalls ?l] => rewrite (negotiation_boostCalls l H)
           | H : Forall (fun e => isNegotiation e.1 = true) ?l
             |- context [resetHints ?l] => rewrite (negotiation_resetHints l H)
           | H : Forall (fun e => isNegotiation e.1 = true) ?l
             |- context [modeAfter ?n ?l] => rewrite (negotiation_modeAfter n l H)
           end;
    rewrite ?modeCalls_cons, ?boostCalls_cons, ?resetHints_cons, ?reportCalls_cons;
    simpl)).

(** An entry of the log that is a call of negotiation is neither a
    [setMode] nor a [setBoost] call. *)
Ltac other_kind :=
  membership;
  repeat match goal with
         | H : Forall (fun e => isNegotiation e.1 = true) ?l, Hin : ?e ∈ ?l |- _ =>
             apply (proj1 (Forall_forall _ l) H e) in Hin; simpl in Hin
         end;
  simplify_eq/=.

Section HalCalls.

Variable cfg : Config.
Variable hal : PowerHal.

(** [usePowerHintSession] once more, with the count of the probes. *)
Lemma usePowerHintSession_probes s :
  exists b supports l,
    usePowerHintSession hal s = Done (b, withSession supports
      (mSessionConfigSupported (hint s)) (mFirstConfigSupportCheck (hint s))
      (mHintSession (hint s)) l s) /\
    Forall (fun e => e.1 = GetHintSessionPreferredRate) l /\
    (length (probes l) + cachedAnswers (mSupportsHintSession (hint s)) =
     cachedAnswers supports)%nat /\
    (b = true -> mHintSessionEnabled (hint s) = Some true /\ supports = Some true) /\
    (forall x, mSupportsHintSession (hint s) = Some x -> supports = Some x /\ l = []) /\
    (mHintSessionEnabled (hint s) <> Some true ->
     b = false /\ supports = mSupportsHintSession (hint s) /\ l = []).
Proof.
  destruct s as [[boot enabled supports ? ? ? ? ? ? ?] f bo log].
  unfold usePowerHintSession, supportsPowerHintSession. unfold_monad.
  destruct enabled as [[|]|], supports as [x|]; simpl;
    eexists _, _; grown; repeat split; intros; simplify_eq/=;
    repeat constructor; try done; try congruence.
Qed.

(** [ensurePowerHintSessionRunning] once more, with the count of the probes
    and the origin of the session it leaves. *)
Lemma ensurePowerHintSessionRunning_session s :
  exists running supports configSupported firstCheck session l,
    ensurePowerHintSessionRunning cfg hal s =
      Done (running, withSession supports configSupported firstCheck session l s) /\
    running = has_value session /\
    Forall (creationEntry s) l /\
    (forall h, mHintSession (hint s) = Some h ->
       supports = mSupportsHintSession (hint s) /\
       configSupported = mSessionConfigSupported (hint s) /\
       firstCheck = mFirstConfigSupportCheck (hint s) /\
       session = Some h /\ l = []) /\
    (length (probes l) + cachedAnswers (mSupportsHintSession (hint s)) =
     cachedAnswers supports)%nat /\
    (forall x, mSupportsHintSession (hint s) = Some x -> supports = Some x) /\
    (forall v, session = Some v ->
       mHintSession (hint s) = Some v \/
       exists c, isCreation c = true /\ (c, HalOk v) ∈ l) /\
    (forall threadIds target r,
       (CreateHintSessionWithConfig threadIds target, r) ∈ l ->
       isOk r = false -> configSupported = false ->
       exists r', (CreateHintSession threadIds target, r') ∈ l) /\
    (forall threadIds target r,
       (CreateHintSession threadIds target, r) ∈ l ->
       configSupported && adpf_use_fmq_channel cfg = false) /\
    (forall threadIds target r,
       (CreateHintSessionWithConfig threadIds target, r) ∈ l ->
       adpf_use_fmq_channel cfg = true).
Proof.
  destruct s as [[boot enabled sup cs fc session tids target last queue] f bo log].
  unfold ensurePowerHintSessionRunning, shouldCreateSessionWithConfig,
    usePowerHintSession, supportsPowerHintSession, creationEntry.
  unfold_monad.
  destruct session as [h|]; simpl; [eexists _, _, _, _, _; grown; finish_session|].
  destruct (bool_decide (tids = [])) eqn:empty; simpl;
    [eexists _, _, _, _, _; grown; finish_session|].
  apply bool_decide_eq_false in empty.
  repeat (case_match; simplify_eq/=); eexists _, _, _, _, _; grown; finish_session.
Qed.

(** Symbolic execution of an operation with the two lemmas above. *)
Ltac call_effects :=
  repeat (first
    [ match goal with
      | |- context [usePowerHintSession hal ?s] =>
          let E := fresh "Euse" in
          destruct (usePowerHintSession_probes s) as (? & ? & ? & E & ? & ? & ? & ? & ?);
          rewrite E; clear E
      | |- context [ensurePowerHintSessionRunning cfg hal ?s] =>
          let E := fresh "Eens" in
          destruct (ensurePowerHintSessionRunning_session s)
            as (? & ? & ? & ? & ? & ? & E & ? & ? & ? & ? & ? & ? & ? & ? & ?);
          rewrite E; clear E
      end; unfold_setters; simpl in *
    | branch ]).

Ltac log_grown :=
  tidy; simpl in *; rewrite ?app_nil_r in *; rewrite <- ?app_assoc in *;
  first [ exists []; split; [by rewrite app_nil_r|]
        | eexists; split; [reflexivity|] ].

(** Every probe fills the cache of the answer, and a cached answer
    stays. *)
Lemma step_probes op s :
  match step cfg hal op s with
  | Done (_, s') =>
      exists l, halLog s' = halLog s ++ l /\
        (length (probes l) + cachedAnswers (mSupportsHintSession (hint s)) =
         cachedAnswers (mSupportsHintSession (hint s')))%nat /\
        (forall x, mSupportsHintSession (hint s) = Some x ->
                   mSupportsHintSession (hint s') = Some x)
  | _ => True
  end.
Proof.
  destruct s as [[boot enabled sup cs fc session tids target last queue] f bo log].
  destruct op; simpl; unfold_ops; unfold_monad; call_effects; try done.
  all: log_grown; split;
    [count_probes; rewrite ?length_app; simpl; lia|].
  all: intros answer ->;
    repeat match goal with
           | H : forall x, Some ?a = Some x -> _ |- _ =>
               specialize (H _ eq_refl); destruct_and?; simplify_eq/=
           end;
    congruence.
Qed.

Lemma run_probes ops :
  forall s s',
    run cfg hal ops s = Done s' ->
    exists l, halLog s' = halLog s ++ l /\
      (length (probes l) + cachedAnswers (mSupportsHintSession (hint s)) =
       cachedAnswers (mSupportsHintSession (hint s')))%nat /\
      (forall x, mSupportsHintSession (hint s) = Some x ->
                 mSupportsHintSession (hint s') = Some x).
Proof.
  induction ops as [|op ops IH]; simpl; intros s s' E.
  - injection E as <-. exists []. rewrite app_nil_r, probes_nil.
    split; [reflexivity|]. split; [simpl; lia|done].
  - pose proof (step_probes op s) as first.
    destruct (step cfg hal op s) as [[u s1]| |]; try discriminate.
    destruct first as (l1 & Hlog1 & count1 & kept1).
    destruct (IH s1 s' E) as (l2 & Hlog2 & count2 & kept2).
    exists (l1 ++ l2). split; [by rewrite Hlog2, Hlog1, app_assoc|].
    split; [rewrite probes_app, length_app; lia|].
    intros x cached. apply kept2, kept1, cached.
Qed.

(** X10: whatever the operations, the power HAL is asked at most once
    whether it supports hint sessions: [getHintSessionPreferredRate] is
    never called while an answer is cached, a call fills the cache, and a
    cached answer is never replaced. *)
Theorem X10_support_probed_once ops s s' :
  run cfg hal ops s = Done s' ->
  (length (probes (callsBetween s s')) <= 1)%nat /\
  (is_Some (mSupportsHintSession (hint s)) -> probes (callsBetween s s') = []) /\
  (probes (callsBetween s s') <> [] -> is_Some (mSupportsHintSession (hint s'))) /\
  (forall answer, mSupportsHintSession (hint s) = Some answer ->
                  mSupportsHintSession (hint s') = Some answer).
Proof.
  intros E. destruct (run_probes ops s s' E) as (l & Hlog & count & kept).
  rewrite (callsBetween_app _ _ _ Hlog).
  unfold cachedAnswers in count.
  split; [|split; [|split; [|exact kept]]].
  - destruct (mSupportsHintSession (hint s)), (mSupportsHintSession (hint s')); lia.
  - intros [answer cached]. rewrite cached, (kept _ cached) in count.
    destruct (probes l); [reflexivity|simpl in count; lia].
  - intros probed. destruct (mSupportsHintSession (hint s')); [by eauto|].
    destruct (probes l); [done|].
    destruct (mSupportsHintSession (hint s)); simpl in count; lia.
Qed.

(** What the lemmas say once it is known whether a session is held. *)
Ltac known_session :=
  repeat match goal with
         | H : forall h, Some ?a = Some h -> _ |- _ =>
             specialize (H _ eq_refl); destruct_and?; simplify_eq/=
         | H : forall h, None = Some h -> _ |- _ => clear H
         | H : Some ?a = Some ?b -> _ |- _ =>
             specialize (H eq_refl); destruct_and?; simplify_eq/=
         end.

(** The kind of an entry of the log. *)
Ltac entry_kind :=
  membership; use_forall; simplify_eq/=;
  repeat match goal with
         | H : creationEntry _ (?c, _) |- _ =>
             unfold creationEntry in H; simpl in H; destruct c; simplify_eq/=
         | H : match ?c with _ => _ end |- _ => destruct c; simplify_eq/=
         end;
  try done.

Ltac in_log := rewrite ?elem_of_app, ?elem_of_cons; simpl; by eauto 8.

Ltac close_session :=
  repeat split; intros; entry_kind; known_session;
  repeat match goal with
         | H : forall v, ?x = Some v -> _, E : deref ?x = Done _ |- _ =>
             destruct x; simplify_eq/=
         | H : forall v, Some ?a = Some v -> _ |- _ =>
             specialize (H _ eq_refl)
         | H : None = Some _ \/ _ |- _ =>
             destruct H as [? | (? & ? & ?)]; simplify_eq/=
         end;
  first [ done
        | by left
        | congruence
        | match goal with
          | H : isOk ?r = _ |- context [if isOk ?r then _ else _] =>
              rewrite H; reflexivity
          end
        | right; split; [reflexivity|]; eexists; split; [eassumption|in_log]
        | right; eexists; split; [eassumption|in_log]
        | right; split; [reflexivity|];
          match goal with
          | H : isOk (hal ?l ?c) = false |- _ =>
              exists c, (hal l c); split; [in_log|]; split; [reflexivity|exact H]
          end ].

Lemma step_session op s :
  match step cfg hal op s with
  | Done (_, s') => sessionFacts s s'
  | _ => True
  end.
Proof.
  destruct s as [[boot enabled sup cs fc session tids target last queue] f bo log].
  destruct op; simpl; unfold_ops; unfold_monad; call_effects; try done.
  all: unfold sessionFacts; log_grown.
  all: destruct session as [held|]; known_session.
  all: close_session.
Qed.

Lemma step_session_done op s u s' :
  step cfg hal op s = Done (u, s') -> sessionFacts s s'.
Proof. intros E. pose proof (step_session op s) as F. by rewrite E in F. Qed.

(** X11: every call an operation makes on a session is made on the
    session that was held when the operation started or, when none was
    held, on the session a creation call of the same operation has just
    returned; after the call that session is held if the call succeeded and
    no session is held if it failed. *)
Theorem X11_calls_on_the_session_held op s s' c r h :
  step cfg hal op s = Done (tt, s') ->
  (c, r) ∈ callsBetween s s' ->
  sessionOf c = Some h ->
  (mHintSession (hint s) = Some h \/
   (mHintSession (hint s) = None /\
    exists c', isCreation c' = true /\ (c', HalOk h) ∈ callsBetween s s')) /\
  mHintSession (hint s') = (if isOk r then Some h else None).
Proof.
  intros E called on.
  destruct (step_session_done _ _ _ _ E) as (l & Hlog & held & _ & _ & _ & after).
  rewrite (callsBetween_app _ _ _ Hlog) in *.
  split; [exact (held c r h called on)|exact (after c r h called on)].
Qed.

(** A session is kept by an operation whose calls on it succeed, and the
    operation creates no other. *)
Lemma step_keeps_session op s u s' h :
  step cfg hal op s = Done (u, s') ->
  mHintSession (hint s) = Some h ->
  sessionCallsSucceed (callsBetween s s') ->
  mHintSession (hint s') = Some h /\
  Forall (fun e => isCreation e.1 = false) (callsBetween s s').
Proof.
  intros E held succeed.
  destruct (step_session_done _ _ _ _ E) as (l & Hlog & _ & kept & _ & created & _).
  rewrite (callsBetween_app _ _ _ Hlog) in *. split.
  - destruct (kept h held) as [still | (_ & c & r & called & on & failed)];
      [exact still|].
    pose proof (proj1 (Forall_forall _ _) succeed _ called) as succeeded.
    simpl in succeeded. rewrite on in succeeded.
    rewrite succeeded in failed by eauto. discriminate failed.
  - apply Forall_forall. intros [c r] called. simpl.
    destruct (isCreation c) eqn:kind; [|reflexivity].
    rewrite (created c r called kind) in held. discriminate held.
Qed.

(** X12: a session that is held is kept for as long as the calls made on
    it succeed, whatever the operations, and no session is created while
    it is held: only a failed call on the session makes the class let go
    of it. *)
Theorem X12_session_kept_while_calls_succeed ops :
  forall s s' h,
    run cfg hal ops s = Done s' ->
    mHintSession (hint s) = Some h ->
    sessionCallsSucceed (callsBetween s s') ->
    mHintSession (hint s') = Some h /\
    Forall (fun e => isCreation e.1 = false) (callsBetween s s').
Proof.
  induction ops as [|op ops IH]; simpl; intros s s' h E held succeed.
  - injection E as <-. split; [exact held|].
    unfold callsBetween. rewrite drop_all. constructor.
  - destruct (step cfg hal op s) as [[u s1]| |] eqn:Estep; try discriminate.
    destruct (step_session_done _ _ _ _ Estep) as (l1 & Hlog1 & _).
    destruct (run_grows cfg hal ops s1 s' E) as [l2 Hlog2].
    assert (halLog s' = halLog s ++ l1 ++ l2) as Hlog
      by (by rewrite Hlog2, Hlog1, app_assoc).
    rewrite (callsBetween_app _ _ _ Hlog) in *.
    apply Forall_app in succeed as [succeed1 succeed2].
    rewrite <- (callsBetween_app _ _ _ Hlog1) in succeed1.
    rewrite <- (callsBetween_app _ _ _ Hlog2) in succeed2.
    destruct (step_keeps_session op s u s1 h Estep held succeed1) as [held1 none1].
    destruct (IH s1 s' h E held1 succeed2) as [held' none2].
    split; [exact held'|].
    rewrite (callsBetween_app _ _ _ Hlog1) in none1.
    rewrite (callsBetween_app _ _ _ Hlog2) in none2.
    apply Forall_app. by split.
Qed.

(** *** The mode and the boost *)

Lemma step_boost op s :
  match step cfg hal op s with
  | Done (_, s') => boostFacts cfg op s s'
  | _ => True
  end.
Proof.
  destruct s as [[boot enabled sup cs fc session tids target last queue] f bo log].
  destruct bo as [hasMode notified expensive hasBoost send updated].
  destruct op; simpl; unfold_ops; unfold_monad; call_effects; try done.
  all: unfold boostFacts, pendingNotifications; log_grown.
  all: negotiation.
  all: repeat split; intros; other_kind; try done; try congruence.
  all: try (destruct send; simpl; lia).
  all: try lia.
  all: try match goal with
           | H1 : isOk ?r = true, H2 : isUnsupported ?r = true |- _ =>
               destruct r; discriminate
           end.
  all: repeat match goal with
              | H : isOk ?r = _ |- context [isOk ?r] => rewrite H
              end.
  all: repeat match goal with
              | H : context [bool_decide ?P] |- _ => destruct (bool_decide P)
              end; destruct notified; simpl in *; congruence.
Qed.

Lemma step_boost_done op s u s' :
  step cfg hal op s = Done (u, s') -> boostFacts cfg op s s'.
Proof. intros E. pose proof (step_boost op s) as F. by rewrite E in F. Qed.


Lemma run_mode_follows ops :
  forall s s',
    run cfg hal ops s = Done s' ->
    exists l, halLog s' = halLog s ++ l /\
      modeAfter (mNotifiedExpensiveRendering (boost s)) l =
        Some (mNotifiedExpensiveRendering (boost s')).
Proof.
  induction ops as [|op ops IH]; simpl; intros s s' E.
  - injection E as <-. exists []. by rewrite app_nil_r.
  - destruct (step cfg hal op s) as [[u s1]| |] eqn:Estep; try discriminate.
    destruct (step_boost_done _ _ _ _ Estep) as (l1 & Hlog1 & _ & _ & follows1 & _).
    destruct (IH s1 s' E) as (l2 & Hlog2 & follows2).
    exists (l1 ++ l2). split; [by rewrite Hlog2, Hlog1, app_assoc|].
    rewrite modeAfter_app, follows1. exact follows2.
Qed.

(** X13: whatever the operations, every
    [setMode(EXPENSIVE_RENDERING, enabled)] call asks for the opposite of
    the mode the HAL has acknowledged last, and
    [mNotifiedExpensiveRendering] is the mode of the last call the HAL has
    acknowledged: the HAL is never asked for a mode it is already in. *)
Theorem X13_mode_never_repeated ops s s' :
  run cfg hal ops s = Done s' ->
  modeAfter (mNotifiedExpensiveRendering (boost s)) (callsBetween s s') =
    Some (mNotifiedExpensiveRendering (boost s')) /\
  forall before enabled r after,
    callsBetween s s' = before ++ (SetModeExpensiveRendering enabled, r) :: after ->
    modeAfter (mNotifiedExpensiveRendering (boost s)) before = Some (negb enabled).
Proof.
  intros E. destruct (run_mode_follows ops s s' E) as (l & Hlog & follows).
  rewrite (callsBetween_app _ _ _ Hlog). split; [exact follows|].
  intros before enabled r after ->.
  rewrite modeAfter_app in follows.
  destruct (modeAfter (mNotifiedExpensiveRendering (boost s)) before)
    as [acknowledged|]; [|discriminate follows].
  simpl in follows. destruct enabled, acknowledged; simpl in *; done.
Qed.

(** X14: after [setExpensiveRenderingExpected] on an object whose HAL
    supports the mode, the display is in the set of displays that expect
    expensive rendering exactly when [expected] is set, the other displays
    being as before; and when the [setMode] call it makes, if any,
    succeeds, the mode acknowledged by the HAL is on exactly when that set
    is not empty. *)
Theorem X14_mode_reflects_displays displayId expected s s' :
  step cfg hal (SetExpensiveRenderingExpected displayId expected) s = Done (tt, s') ->
  mHasExpensiveRendering (boost s) = true ->
  mExpensiveDisplays (boost s') =
    (if expected then {[displayId]} ∪ mExpensiveDisplays (boost s)
     else mExpensiveDisplays (boost s) ∖ {[displayId]}) /\
  (Forall (fun e => isOk e.2 = true) (callsBetween s s') ->
   mNotifiedExpensiveRendering (boost s') =
     negb (bool_decide (mExpensiveDisplays (boost s') = ∅))).
Proof.
  destruct s as [h f [hasMode notified expensive hasBoost send updated] log].
  simpl. intros E ->. revert E.
  unfold setExpensiveRenderingExpected. unfold_monad.
  set (displays := if expected then {[displayId]} ∪ expensive
                   else expensive ∖ {[displayId]}).
  replace (if expected
           then Done ((), {| hint := h; frame := f;
                             boost := {| mHasExpensiveRendering := true;
                                         mNotifiedExpensiveRendering := notified;
                                         mExpensiveDisplays := {[displayId]} ∪ expensive;
                                         mHasDisplayUpdateImminent := hasBoost;
                                         mSendUpdateImminent := send;
                                         mLastScreenUpdatedTime := updated |};
                             halLog := log |})
           else Done ((), {| hint := h; frame := f;
                             boost := {| mHasExpensiveRendering := true;
                                         mNotifiedExpensiveRendering := notified;
                                         mExpensiveDisplays := expensive ∖ {[displayId]};
                                         mHasDisplayUpdateImminent := hasBoost;
                                         mSendUpdateImminent := send;
                                         mLastScreenUpdatedTime := updated |};
                             halLog := log |}))
    with (Done ((), {| hint := h; frame := f;
                       boost := {| mHasExpensiveRendering := true;
                                   mNotifiedExpensiveRendering := notified;
                                   mExpensiveDisplays := displays;
                                   mHasDisplayUpdateImminent := hasBoost;
                                   mSendUpdateImminent := send;
                                   mLastScreenUpdatedTime := updated |};
                       halLog := log |}) : result (unit * PowerAdvisor))
    by (unfold displays; by destruct expected).
  simpl.
  destruct (eqb notified (negb (bool_decide (displays = ∅)))) eqn:same; simpl.
  - intros [= <-]. simpl. split; [reflexivity|]. intros _.
    by apply eqb_prop in same.
  - destruct (isOk (hal log _)) eqn:ok; simpl.
    + intros [= <-]. simpl. by split.
    + unfold callsBetween.
      destruct (isUnsupported (hal log _)); simpl; intros [= <-]; simpl;
        (split; [reflexivity|]); rewrite drop_app_length;
        intros succeeded; apply Forall_cons in succeeded as [succeeded _];
        simpl in succeeded; congruence.
Qed.

Lemma run_mode_unsupported ops :
  forall s s',
    mHasExpensiveRendering (boost s) = false ->
    run cfg hal ops s = Done s' ->
    mHasExpensiveRendering (boost s') = false /\
    mExpensiveDisplays (boost s') = mExpensiveDisplays (boost s) /\
    exists l, halLog s' = halLog s ++ l /\ modeCalls l = [].
Proof.
  induction ops as [|op ops IH]; simpl; intros s s' off E.
  - injection E as <-. repeat split; [exact off|]. exists []. by rewrite app_nil_r.
  - destruct (step cfg hal op s) as [[u s1]| |] eqn:Estep; try discriminate.
    destruct (step_boost_done _ _ _ _ Estep) as (l1 & Hlog1 & unsupported & _).
    destruct (unsupported off) as (off1 & displays1 & none1).
    destruct (IH s1 s' off1 E) as (off' & displays' & l2 & Hlog2 & none2).
    split; [exact off'|]. split; [congruence|].
    exists (l1 ++ l2). split; [by rewrite Hlog2, Hlog1, app_assoc|].
    by rewrite modeCalls_app, none1, none2.
Qed.

(** X15: once the HAL has answered a [setMode(EXPENSIVE_RENDERING, _)]
    call with "unsupported", the mode is given up for good: whatever the
    operations that follow, [setMode] is not called again and the set of
    displays that expect expensive rendering is no longer updated. *)
Theorem X15_unsupported_mode_given_up op s s1 enabled r ops s2 :
  step cfg hal op s = Done (tt, s1) ->
  (SetModeExpensiveRendering enabled, r) ∈ callsBetween s s1 ->
  isUnsupported r = true ->
  run cfg hal ops s1 = Done s2 ->
  mHasExpensiveRendering (boost s2) = false /\
  modeCalls (callsBetween s1 s2) = [] /\
  mExpensiveDisplays (boost s2) = mExpensiveDisplays (boost s1).
Proof.
  intros E called unsupported Erun.
  destruct (step_boost_done _ _ _ _ E) as (l & Hlog & _ & marks & _).
  rewrite (callsBetween_app _ _ _ Hlog) in called.
  pose proof (marks _ _ called unsupported) as off.
  destruct (run_mode_unsupported ops s1 s2 off Erun) as (off2 & displays & l2 & Hlog2 & none).
  rewrite (callsBetween_app _ _ _ Hlog2). by repeat split.
Qed.

Lemma run_boost_unsupported ops :
  forall s s',
    mHasDisplayUpdateImminent (boost s) = false ->
    run cfg hal ops s = Done s' ->
    mHasDisplayUpdateImminent (boost s') = false /\
    exists l, halLog s' = halLog s ++ l /\ boostCalls l = [].
Proof.
  induction ops as [|op ops IH]; simpl; intros s s' off E.
  - injection E as <-. split; [exact off|]. exists []. by rewrite app_nil_r.
  - destruct (step cfg hal op s) as [[u s1]| |] eqn:Estep; try discriminate.
    destruct (step_boost_done _ _ _ _ Estep)
      as (l1 & Hlog1 & _ & _ & _ & unsupported & _).
    destruct (unsupported off) as (off1 & none1).
    destruct (IH s1 s' off1 E) as (off' & l2 & Hlog2 & none2).
    split; [exact off'|].
    exists (l1 ++ l2). split; [by rewrite Hlog2, Hlog1, app_assoc|].
    by rewrite boostCalls_app, none1, none2.
Qed.

(** X16: once the HAL has answered
    [setBoost(DISPLAY_UPDATE_IMMINENT)] with "unsupported", the boost is
    given up for good: whatever the operations that follow, [setBoost] is
    not called again. *)
Theorem X16_unsupported_boost_given_up op s s1 r ops s2 :
  step cfg hal op s = Done (tt, s1) ->
  (SetBoostDisplayUpdateImminent, r) ∈ callsBetween s s1 ->
  isUnsupported r = true ->
  run cfg hal ops s1 = Done s2 ->
  mHasDisplayUpdateImminent (boost s2) = false /\
  boostCalls (callsBetween s1 s2) = [].
Proof.
  intros E called unsupported Erun.
  destruct (step_boost_done _ _ _ _ E) as (l & Hlog & _ & _ & _ & _ & marks & _).
  rewrite (callsBetween_app _ _ _ Hlog) in called.
  pose proof (marks _ called unsupported) as off.
  destruct (run_boost_unsupported ops s1 s2 off Erun) as (off2 & l2 & Hlog2 & none).
  rewrite (callsBetween_app _ _ _ Hlog2). by split.
Qed.

Lemma run_throttled ops :
  hasScreenUpdateTimer cfg = true ->
  Forall (fun op => op <> TimerTimeoutCallback) ops ->
  forall s s',
    run cfg hal ops s = Done s' ->
    exists l, halLog s' = halLog s ++ l /\
      (length (boostCalls l) + pendingNotifications s' <= pendingNotifications s)%nat /\
      (length (resetHints l) + pendingNotifications s' <= pendingNotifications s)%nat.
Proof.
  intros timer. induction 1 as [|op ops other _ IH]; simpl; intros s s' E.
  - injection E as <-. exists []. rewrite app_nil_r. repeat split; simpl; lia.
  - destruct (step cfg hal op s) as [[u s1]| |] eqn:Estep; try discriminate.
    destruct (step_boost_done _ _ _ _ Estep)
      as (l1 & Hlog1 & _ & _ & _ & _ & _ & throttled & _).
    destruct (throttled timer other) as [boosts1 hints1].
    destruct (IH s1 s' E) as (l2 & Hlog2 & boosts2 & hints2).
    exists (l1 ++ l2). split; [by rewrite Hlog2, Hlog1, app_assoc|].
    rewrite boostCalls_app, resetHints_app, !length_app. lia.
Qed.

(** X17: with the screen-update timer, the update-imminent notification
    is throttled: between two timeouts of the timer, whatever the
    operations, at most one [setBoost(DISPLAY_UPDATE_IMMINENT)] call and at
    most one [CPU_LOAD_RESET] hint are sent, and none once
    [mSendUpdateImminent] is cleared. *)
Theorem X17_update_imminent_throttled ops s s' :
  hasScreenUpdateTimer cfg = true ->
  Forall (fun op => op <> TimerTimeoutCallback) ops ->
  run cfg hal ops s = Done s' ->
  (length (boostCalls (callsBetween s s')) <= 1)%nat /\
  (length (resetHints (callsBetween s s')) <= 1)%nat /\
  (mSendUpdateImminent (boost s) = false ->
   boostCalls (callsBetween s s') = [] /\ resetHints (callsBetween s s') = []).
Proof.
  intros timer other E.
  destruct (run_throttled ops timer other s s' E) as (l & Hlog & boosts & hints).
  rewrite (callsBetween_app _ _ _ Hlog).
  unfold pendingNotifications in *.
  split; [destruct (mSendUpdateImminent (boost s)); lia|].
  split; [destruct (mSendUpdateImminent (boost s)); lia|].
  intros cleared. rewrite cleared in *.
  destruct (boostCalls l), (resetHints l); simpl in *; try lia. done.
Qed.

Lemma run_unthrottled ops :
  hasScreenUpdateTimer cfg = false ->
  forall s s',
    run cfg hal ops s = Done s' ->
    mSendUpdateImminent (boost s) = true ->
    mSendUpdateImminent (boost s') = true.
Proof.
  intros none. induction ops as [|op ops IH]; simpl; intros s s' E set.
  - by injection E as <-.
  - destruct (step cfg hal op s) as [[u s1]| |] eqn:Estep; try discriminate.
    destruct (step_boost_done _ _ _ _ Estep)
      as (l1 & _ & _ & _ & _ & _ & _ & _ & kept).
    exact (IH s1 s' E (kept none set)).
Qed.

Lemma notify_unthrottled now s :
  hasScreenUpdateTimer cfg = false ->
  mBootFinished (hint s) = true ->
  mSendUpdateImminent (boost s) = true ->
  mHasDisplayUpdateImminent (boost s) = true ->
  exists s',
    notifyDisplayUpdateImminentAndCpuReset cfg hal now s = Done (tt, s') /\
    length (boostCalls (callsBetween s s')) = 1%nat.
Proof.
  destruct s as [[boot enabled sup cs fc session tids target last queue] f bo log].
  destruct bo as [hasMode notified expensive hasBoost send updated].
  simpl. intros none -> -> ->.
  unfold notifyDisplayUpdateImminentAndCpuReset. unfold_monad. rewrite none. simpl.
  call_effects; tidy.
  all: repeat match goal with
              | H : deref ?x = _ |- _ => destruct x; simplify_eq/=
              end.
  all: rewrite ?app_nil_r in *; rewrite <- ?app_assoc in *.
  all: eexists; (split; [reflexivity|]); unfold callsBetween; simpl;
    rewrite drop_app_length; negotiation; reflexivity.
Qed.

(** X28: without the screen-update timer nothing is throttled:
    [mSendUpdateImminent] stays set whatever the operations, and every
    [notifyDisplayUpdateImminentAndCpuReset] made after boot on a HAL that
    supports the boost returns and sends exactly one
    [setBoost(DISPLAY_UPDATE_IMMINENT)]. *)
Theorem X28_no_timer_no_throttle ops s s1 now :
  hasScreenUpdateTimer cfg = false ->
  mSendUpdateImminent (boost s) = true ->
  run cfg hal ops s = Done s1 ->
  mBootFinished (hint s1) = true ->
  mHasDisplayUpdateImminent (boost s1) = true ->
  mSendUpdateImminent (boost s1) = true /\
  exists s2,
    step cfg hal (NotifyDisplayUpdateImminentAndCpuReset now) s1 = Done (tt, s2) /\
    length (boostCalls (callsBetween s1 s2)) = 1%nat.
Proof.
  intros none set E booted supported.
  pose proof (run_unthrottled ops none s s1 E set) as set1.
  split; [exact set1|].
  exact (notify_unthrottled now s1 none booted set1 supported).
Qed.

(** *** The durations reported *)

Lemma step_report op s :
  match step cfg hal op s with
  | Done (_, s') => reportFacts cfg op s s'
  | _ => True
  end.
Proof.
  destruct s as [[boot enabled sup cs fc session tids target last queue] f bo log].
  destruct op; simpl; unfold_ops; unfold_monad; call_effects; try done.
  all: unfold reportFacts; log_grown.
  all: negotiation.
  all: repeat split; intros; other_kind; try done; try lia.
  all: try match goal with
           | H : isOk ?r = _ |- context [isOk ?r] => by rewrite H
           end.
  all: match goal with
       | E : estimateWorkDuration _ _ _ ?clock = Done (Some ?w),
         low : (durationNanos ?w <? 0) = false |- _ =>
           exists clock, w; split; [reflexivity|];
           split; [rewrite <- E; by apply estimateWorkDuration_target|];
           split; [by apply Z.ltb_ge|reflexivity]
       end.
Qed.

Lemma step_report_done op s u s' :
  step cfg hal op s = Done (u, s') -> reportFacts cfg op s s'.
Proof. intros E. pose proof (step_report op s) as F. by rewrite E in F. Qed.

(** X18: when an operation calls [reportActualWorkDuration] on the
    session, the operation is [reportActualWorkDuration], boot has
    finished and the property switch is on; the estimate of the frame is
    not negative, and what is reported is the queue of the durations whose
    report failed before, followed by the estimate with the safety margin
    added.  The queue is emptied when the report succeeds and kept,
    the new duration included, when it fails. *)
Theorem X18_reports_queue_and_estimate op s s' h queue r :
  step cfg hal op s = Done (tt, s') ->
  (SessionReportActualWorkDuration h queue, r) ∈ callsBetween s s' ->
  mBootFinished (hint s) = true /\
  sUseReportActualDuration cfg = true /\
  (exists clock w,
     op = ReportActualWorkDuration clock /\
     estimateWorkDuration cfg (hint s) (frame s) clock = Done (Some w) /\
     0 <= durationNanos w /\
     queue = mHintSessionQueue (hint s) ++ [withSafetyMargin cfg w]) /\
  mHintSessionQueue (hint s') = (if isOk r then [] else queue).
Proof.
  intros E called.
  destruct (step_report_done _ _ _ _ E) as (l & Hlog & _ & _ & reports).
  rewrite (callsBetween_app _ _ _ Hlog) in called.
  exact (reports h queue r called).
Qed.

Lemma step_margin op s u s' :
  step cfg hal op s = Done (u, s') ->
  Forall (fun w => sTargetSafetyMargin cfg <= durationNanos w)
    (mHintSessionQueue (hint s)) ->
  Forall (fun w => sTargetSafetyMargin cfg <= durationNanos w)
    (mHintSessionQueue (hint s')) /\
  forall h queue r,
    (SessionReportActualWorkDuration h queue, r) ∈ callsBetween s s' ->
    queue <> [] /\
    Forall (fun w => sTargetSafetyMargin cfg <= durationNanos w) queue.
Proof.
  intros E above.
  destruct (step_report_done _ _ _ _ E) as (l & Hlog & _ & quiet & reports).
  rewrite (callsBetween_app _ _ _ Hlog).
  assert (forall h queue r,
            (SessionReportActualWorkDuration h queue, r) ∈ l ->
            queue <> [] /\
            Forall (fun w => sTargetSafetyMargin cfg <= durationNanos w) queue)
    as reported.
  { intros h queue r called.
    destruct (reports h queue r called) as (_ & _ & (clock & w & _ & _ & low & ->) & _).
    split; [by destruct (mHintSessionQueue (hint s))|].
    apply Forall_app. split; [exact above|].
    constructor; [|constructor]. unfold withSafetyMargin. simpl. lia. }
  split; [|exact reported].
  destruct (reportCalls l) as [|[c r] rest] eqn:calls.
  - by rewrite (quiet eq_refl).
  - assert ((c, r) ∈ reportCalls l) as called by (rewrite calls; left).
    apply list_elem_of_filter in called as [kind called]. simpl in kind.
    destruct c; try discriminate kind.
    destruct (reports _ _ _ called) as (_ & _ & _ & ->).
    destruct (isOk r); [constructor|].
    by apply (reported _ _ _ called).
Qed.

(** X19: no duration below the safety margin is ever reported or queued:
    if every duration in the queue is at least the margin, then whatever
    the operations every [reportActualWorkDuration] call on a session
    carries a queue that is not empty and holds only durations of at least
    the margin, and so does the queue left behind. *)
Theorem X19_reported_durations_above_margin ops :
  forall s s',
    run cfg hal ops s = Done s' ->
    Forall (fun w => sTargetSafetyMargin cfg <= durationNanos w)
      (mHintSessionQueue (hint s)) ->
    Forall (fun w => sTargetSafetyMargin cfg <= durationNanos w)
      (mHintSessionQueue (hint s')) /\
    forall h queue r,
      (SessionReportActualWorkDuration h queue, r) ∈ callsBetween s s' ->
      queue <> [] /\
      Forall (fun w => sTargetSafetyMargin cfg <= durationNanos w) queue.
Proof.
  induction ops as [|op ops IH]; simpl; intros s s' E above.
  - injection E as <-. split; [exact above|].
    intros h queue r called. unfold callsBetween in called.
    rewrite drop_all in called. by apply elem_of_nil in called.
  - destruct (step cfg hal op s) as [[u s1]| |] eqn:Estep; try discriminate.
    destruct (step_margin op s u s1 Estep above) as [above1 reported1].
    destruct (IH s1 s' E above1) as [above' reported2].
    split; [exact above'|].
    destruct (step_report_done _ _ _ _ Estep) as (l1 & Hlog1 & _).
    destruct (run_grows cfg hal ops s1 s' E) as [l2 Hlog2].
    rewrite (callsBetween_app _ _ _ Hlog1) in reported1.
    rewrite (callsBetween_app _ _ _ Hlog2) in reported2.
    rewrite (callsBetween_app s s' (l1 ++ l2))
      by (by rewrite Hlog2, Hlog1, app_assoc).
    intros h queue r called. apply elem_of_app in called as [called | called];
      eauto.
Qed.

(** *** Switched off, not booted, no thread *)

Lemma step_quiet op s :
  mHintSessionEnabled (hint s) <> Some true ->
  op <> EnablePowerHintSession true ->
  match step cfg hal op s with
  | Done (_, s') =>
      exists l,
        halLog s' = halLog s ++ l /\
        Forall (fun e => isPowerHint e.1 = true) l /\
        mHintSessionEnabled (hint s') <> Some true /\
        mHintSession (hint s') = mHintSession (hint s) /\
        mSupportsHintSession (hint s') = mSupportsHintSession (hint s)
  | _ => True
  end.
Proof.
  destruct s as [[boot enabled sup cs fc session tids target last queue] f bo log].
  simpl. intros off other.
  destruct op; simpl; unfold_ops; unfold_monad; call_effects; try done.
  all: repeat match goal with
              | H : ?P -> _, H' : ?P |- _ => specialize (H H'); destruct_and?
              | H : true = true -> _ |- _ => specialize (H eq_refl); destruct_and?
              end; simplify_eq/=; try done.
  all: log_grown; repeat split; try done; try congruence.
  all: try (repeat constructor; fail).
  all: try (intros [= ->]; by destruct other).
Qed.

(** X20: while power hint sessions are not switched on, the class makes
    no call that belongs to them: whatever the operations, as long as
    [enablePowerHintSession(true)] is not among them, the only calls on the
    HAL are [setMode] and [setBoost]; the support probe is not made and no
    session is created or used. *)
Theorem X20_nothing_sent_while_switched_off ops :
  forall s s',
    run cfg hal ops s = Done s' ->
    mHintSessionEnabled (hint s) <> Some true ->
    Forall (fun op => op <> EnablePowerHintSession true) ops ->
    Forall (fun e => isPowerHint e.1 = true) (callsBetween s s') /\
    mHintSession (hint s') = mHintSession (hint s) /\
    mSupportsHintSession (hint s') = mSupportsHintSession (hint s).
Proof.
  induction ops as [|op ops IH]; simpl; intros s s' E off others.
  - injection E as <-. unfold callsBetween. rewrite drop_all. by repeat split.
  - apply Forall_cons in others as [other others].
    pose proof (step_quiet op s off other) as quiet.
    destruct (step cfg hal op s) as [[u s1]| |] eqn:Estep; try discriminate.
    destruct quiet as (l1 & Hlog1 & hints1 & off1 & session1 & support1).
    destruct (IH s1 s' E off1 others) as (hints2 & session2 & support2).
    destruct (run_grows cfg hal ops s1 s' E) as [l2 Hlog2].
    rewrite (callsBetween_app _ _ _ Hlog2) in hints2.
    rewrite (callsBetween_app s s' (l1 ++ l2))
      by (by rewrite Hlog2, Hlog1, app_assoc).
    split; [by apply Forall_app|]. split; congruence.
Qed.

(** X21: every operation returns, in every state and whatever the HAL
    answers, except the three that read optionals
    ([reportActualWorkDuration], [setGpuStartTime], [setGpuFenceTime]) and
    [startPowerHintSession] without a thread id: in particular no call is
    ever made through [mHintSession] while it is null. *)
Theorem X21_operations_return op s :
  readsOptionals op = false ->
  op <> StartPowerHintSession [] ->
  exists s', step cfg hal op s = Done (tt, s').
Proof.
  destruct s as [[boot enabled sup cs fc session tids target last queue] f bo log].
  intros total threads.
  destruct op; try discriminate total; simpl; unfold_ops; unfold_monad;
    call_effects; tidy.
  all: repeat match goal with
              | H : deref ?x = _ |- _ => destruct x; simplify_eq/=
              end.
  all: try (eexists; reflexivity).
  all: by destruct threads.
Qed.

(** X22: [startPowerHintSession] without a thread id aborts the process
    exactly when boot has finished and hint sessions are in use (switched
    on and supported by the HAL); otherwise it returns, having cleared the
    list of thread ids and made no call but, possibly, the support
    probe. *)
Theorem X22_no_threads_is_fatal s :
  (step cfg hal (StartPowerHintSession []) s = Fatal <->
   mBootFinished (hint s) = true /\ sessionsInUse hal s) /\
  (step cfg hal (StartPowerHintSession []) s <> Fatal ->
   exists s',
     step cfg hal (StartPowerHintSession []) s = Done (tt, s') /\
     mHintSessionThreadIds (hint s') = [] /\
     probes (callsBetween s s') = callsBetween s s' /\
     mHintSession (hint s') = mHintSession (hint s)).
Proof.
  destruct s as [[boot enabled sup cs fc session tids target last queue] f bo log].
  unfold sessionsInUse, callsBetween. simpl.
  unfold startPowerHintSession, usePowerHintSession, supportsPowerHintSession.
  unfold_monad.
  destruct boot; simpl.
  2: { split; [split; [discriminate|by intros [? _]]|].
       intros _. eexists. split; [reflexivity|]. simpl.
       rewrite drop_all. by repeat split. }
  destruct enabled as [[|]|]; simpl.
  2,3: split; [split; [discriminate|by intros [_ [? _]]]|];
       intros _; eexists; (split; [reflexivity|]); simpl;
       rewrite drop_all; by repeat split.
  destruct sup as [[|]|]; simpl.
  - split; [by repeat split|]. by intros absurd.
  - split; [split; [discriminate|by intros [_ [_ ?]]]|].
    intros _. eexists. split; [reflexivity|]. simpl.
    rewrite drop_all. by repeat split.
  - destruct (isOk (hal log GetHintSessionPreferredRate)) eqn:ok; simpl.
    + split; [by repeat split|]. by intros absurd.
    + split; [split; [discriminate|by intros [_ [_ ?]]]|].
      intros _. eexists. split; [reflexivity|]. simpl.
      rewrite drop_app_length. by repeat split.
Qed.

(** X23: before boot has finished, [notifyCpuLoadUp],
    [notifyDisplayUpdateImminentAndCpuReset] and [reportActualWorkDuration]
    return at once and leave the object as it is, and
    [startPowerHintSession] only stores the thread ids: none of them calls
    the HAL. *)
Theorem X23_nothing_before_boot op s :
  mBootFinished (hint s) = false ->
  (bootGated op = true -> step cfg hal op s = Done (tt, s)) /\
  (forall threadIds,
     op = StartPowerHintSession threadIds ->
     step cfg hal op s =
       Done (tt, onHint (set_mHintSessionThreadIds threadIds) s)).
Proof.
  destruct s as [[boot enabled sup cs fc session tids target last queue] f bo log].
  simpl. intros ->. split.
  - destruct op; try discriminate; intros _; simpl; unfold_ops; by unfold_monad.
  - intros threadIds ->. simpl. unfold_ops. by unfold_monad.
Qed.

(** *** Creating the session *)

Ltac close_creation :=
  repeat split; intros; membership; simplify_eq/=;
  try match goal with
      | HF : Forall ?P ?l, Hin : ?e ∈ ?l |- _ =>
          let kind := fresh "kind" in
          pose proof (proj1 (Forall_forall P l) HF e Hin) as kind;
          simpl in kind; unfold creationEntry in kind; simpl in kind
      end;
  simplify_eq/=;
  try match goal with
      | kind : match ?c with _ => _ end |- _ =>
          destruct c; try done; destruct_and?; simplify_eq/=
      end;
  first [ done
        | congruence
        | match goal with
          | H : forall threadIds target r,
                  (CreateHintSessionWithConfig threadIds target, r) ∈ ?l -> _,
            Hin : (CreateHintSessionWithConfig ?ids ?t, _) ∈ ?l |- _ =>
              let r' := fresh "r" in
              assert (exists r', (CreateHintSession ids t, r') ∈ l) as [r' ?]
                by (eapply H; [exact Hin|first [assumption|reflexivity]..]);
              exists r'; in_log
          end
        | match goal with
          | H : forall threadIds target r,
                  (CreateHintSession threadIds target, r) ∈ ?l -> _,
            Hin : (CreateHintSession _ _, _) ∈ ?l |- _ =>
              exact (H _ _ _ Hin)
          end
        | match goal with
          | H : forall threadIds target r,
                  (CreateHintSessionWithConfig threadIds target, r) ∈ ?l ->
                  adpf_use_fmq_channel _ = true,
            Hin : (CreateHintSessionWithConfig _ _, _) ∈ ?l |- _ =>
              exact (H _ _ _ Hin)
          end ].

Lemma step_creation op s :
  match step cfg hal op s with
  | Done (_, s') => creationFacts cfg s s'
  | _ => True
  end.
Proof.
  destruct s as [[boot enabled sup cs fc session tids target last queue] f bo log].
  destruct op; simpl; unfold_ops; unfold_monad; call_effects; try done.
  all: unfold creationFacts; log_grown.
  all: close_creation.
Qed.

Lemma step_creation_done op s u s' :
  step cfg hal op s = Done (u, s') -> creationFacts cfg s s'.
Proof. intros E. pose proof (step_creation op s) as F. by rewrite E in F. Qed.

(** X24: a session is created for the thread ids and with the target the
    object holds when the operation ends: the ids given to the last
    [startPowerHintSession] and the target given to the last
    [updateTargetWorkDuration] that was let through, this operation
    included. *)
Theorem X24_created_for_current_threads_and_target op s s' c r :
  step cfg hal op s = Done (tt, s') ->
  (c, r) ∈ callsBetween s s' ->
  isCreation c = true ->
  creationThreadIds c = mHintSessionThreadIds (hint s') /\
  creationTarget c = Some (mTargetDuration (hint s')).
Proof.
  intros E called kind.
  destruct (step_creation_done _ _ _ _ E) as (l & Hlog & carries & _).
  rewrite (callsBetween_app _ _ _ Hlog) in called.
  exact (carries c r called kind).
Qed.

(** X25: when a creation with configuration fails, the legacy creation is
    tried at once, in the same operation and with the same thread ids and
    target, if the failure has marked the configuration path unsupported;
    if it has not (a failure other than "unsupported" after the first
    attempt), the operation tries no legacy creation and ends without a
    session. *)
Theorem X25_legacy_creation_follows_at_once op s s' threadIds target r :
  step cfg hal op s = Done (tt, s') ->
  (CreateHintSessionWithConfig threadIds target, r) ∈ callsBetween s s' ->
  isOk r = false ->
  if mSessionConfigSupported (hint s')
  then Forall (fun e => e.1 <> CreateHintSession threadIds target) (callsBetween s s') /\
       mHintSession (hint s') = None
  else exists r', (CreateHintSession threadIds target, r') ∈ callsBetween s s'.
Proof.
  intros E called failed.
  destruct (step_creation_done _ _ _ _ E)
    as (l & Hlog & _ & follows & legacy & flag).
  destruct (step_session_done _ _ _ _ E)
    as (l' & Hlog' & _ & _ & origin & fresh & _).
  assert (l' = l) as -> by (rewrite Hlog in Hlog'; by apply app_inv_head in Hlog').
  rewrite (callsBetween_app _ _ _ Hlog) in *.
  destruct (mSessionConfigSupported (hint s')) eqn:supported;
    [|by apply (follows _ _ _ called failed)].
  pose proof (flag _ _ _ called) as on.
  assert (forall ids t r', (CreateHintSession ids t, r') ∉ l) as none.
  { intros ids t r' tried. pose proof (legacy _ _ _ tried) as off.
    rewrite on in off. discriminate off. }
  split.
  - apply Forall_forall. intros [c r'] tried. simpl. intros ->. by eapply none.
  - destruct (mHintSession (hint s')) as [v|] eqn:held; [|reflexivity].
    destruct (origin v eq_refl) as [before | (c & kind & created)].
    + rewrite (fresh _ _ called eq_refl) in before. discriminate before.
    + destruct c; try discriminate kind.
      * rewrite <- (callsBetween_app _ _ _ Hlog) in called, created.
        pose proof (one_attempt_per_step cfg hal op s tt s' _ E called eq_refl) as one.
        pose proof (one_attempt_per_step cfg hal op s tt s' _ E created eq_refl) as one'.
        rewrite one in one'. injection one' as _ _ ->. discriminate failed.
      * by destruct (none _ _ _ created).
Qed.

End HalCalls.

Lemma X10_support_probed_once_witness :
  (length (probes (callsBetween freshAdvisor
     (stateAfter exampleConfig obligingHal
        (earlyOps ++ [OnBootFinished; NotifyCpuLoadUp]) freshAdvisor))) <= 1)%nat.
Proof.
  refine (proj1 (X10_support_probed_once exampleConfig obligingHal
    (earlyOps ++ [OnBootFinished; NotifyCpuLoadUp]) freshAdvisor
    (stateAfter exampleConfig obligingHal
       (earlyOps ++ [OnBootFinished; NotifyCpuLoadUp]) freshAdvisor) _)).
  vm_compute. reflexivity.
Defined.

Lemma X11_calls_on_the_session_held_witness :
  mHintSession (hint (targetedAdvisor stubbornHal)) = None.
Proof.
  refine (proj2 (X11_calls_on_the_session_held exampleConfig stubbornHal
    (UpdateTargetWorkDuration 8333333) (runningAdvisor stubbornHal)
    (targetedAdvisor stubbornHal)
    (SessionUpdateTargetWorkDuration 7 8333333) HalFailed 7 _ _ _)).
  - vm_compute. reflexivity.
  - vm_compute. apply list_elem_of_In. simpl. tauto.
  - reflexivity.
Defined.

Lemma X12_session_kept_while_calls_succeed_witness :
  mHintSession
    (hint (stateAfter exampleConfig obligingHal
             [UpdateTargetWorkDuration 8333333; NotifyCpuLoadUp]
             (runningAdvisor obligingHal))) = Some 7.
Proof.
  refine (proj1 (X12_session_kept_while_calls_succeed exampleConfig obligingHal
    [UpdateTargetWorkDuration 8333333; NotifyCpuLoadUp]
    (runningAdvisor obligingHal)
    (stateAfter exampleConfig obligingHal
       [UpdateTargetWorkDuration 8333333; NotifyCpuLoadUp]
       (runningAdvisor obligingHal)) 7 _ _ _)).
  - vm_compute. reflexivity.
  - reflexivity.
  - vm_compute. repeat constructor.
Defined.

Lemma X13_mode_never_repeated_witness :
  modeAfter false
    (callsBetween freshAdvisor
       (stateAfter exampleConfig obligingHal expensiveOps freshAdvisor)) = Some true.
Proof.
  refine (proj1 (X13_mode_never_repeated exampleConfig obligingHal expensiveOps
    freshAdvisor (stateAfter exampleConfig obligingHal expensiveOps freshAdvisor) _)).
  vm_compute. reflexivity.
Defined.

Lemma X14_mode_reflects_displays_witness :
  mExpensiveDisplays
    (boost (stateAfter exampleConfig obligingHal
              [SetExpensiveRenderingExpected 1%N true] freshAdvisor)) =
  {[1%N]} ∪ ∅.
Proof.
  refine (proj1 (X14_mode_reflects_displays exampleConfig obligingHal 1%N true
    freshAdvisor
    (stateAfter exampleConfig obligingHal
       [SetExpensiveRenderingExpected 1%N true] freshAdvisor) _ _)).
  - vm_compute. reflexivity.
  - reflexivity.
Defined.

Lemma X15_unsupported_mode_given_up_witness :
  modeCalls
    (callsBetween
       (stateAfter exampleConfig modelessHal
          [SetExpensiveRenderingExpected 1%N true] freshAdvisor)
       (stateAfter exampleConfig modelessHal expensiveOps freshAdvisor)) = [].
Proof.
  refine (proj1 (proj2 (X15_unsupported_mode_given_up exampleConfig modelessHal
    (SetExpensiveRenderingExpected 1%N true) freshAdvisor
    (stateAfter exampleConfig modelessHal
       [SetExpensiveRenderingExpected 1%N true] freshAdvisor)
    true HalUnsupported
    [SetExpensiveRenderingExpected 2%N true; SetExpensiveRenderingExpected 1%N false]
    (stateAfter exampleConfig modelessHal expensiveOps freshAdvisor) _ _ _ _))).
  - vm_compute. reflexivity.
  - vm_compute. apply list_elem_of_In. simpl. tauto.
  - reflexivity.
  - vm_compute. reflexivity.
Defined.

Lemma X16_unsupported_boost_given_up_witness :
  boostCalls
    (callsBetween
       (stateAfter exampleConfig boostlessHal
          [NotifyDisplayUpdateImminentAndCpuReset 100] (bootedAdvisor boostlessHal))
       (stateAfter exampleConfig boostlessHal
          [NotifyDisplayUpdateImminentAndCpuReset 100; TimerTimeoutCallback;
           NotifyDisplayUpdateImminentAndCpuReset 200] (bootedAdvisor boostlessHal))) = [].
Proof.
  refine (proj2 (X16_unsupported_boost_given_up exampleConfig boostlessHal
    (NotifyDisplayUpdateImminentAndCpuReset 100) (bootedAdvisor boostlessHal)
    (stateAfter exampleConfig boostlessHal
       [NotifyDisplayUpdateImminentAndCpuReset 100] (bootedAdvisor boostlessHal))
    HalUnsupported
    [TimerTimeoutCallback; NotifyDisplayUpdateImminentAndCpuReset 200]
    (stateAfter exampleConfig boostlessHal
       [NotifyDisplayUpdateImminentAndCpuReset 100; TimerTimeoutCallback;
        NotifyDisplayUpdateImminentAndCpuReset 200] (bootedAdvisor boostlessHal))
    _ _ _ _)).
  - vm_compute. reflexivity.
  - vm_compute. apply list_elem_of_In. simpl. tauto.
  - reflexivity.
  - vm_compute. reflexivity.
Defined.

Lemma X17_update_imminent_throttled_witness :
  (length (boostCalls
     (callsBetween (bootedAdvisor obligingHal)
        (stateAfter exampleConfig obligingHal updateOps (bootedAdvisor obligingHal))))
   <= 1)%nat.
Proof.
  refine (proj1 (X17_update_imminent_throttled exampleConfig obligingHal updateOps
    (bootedAdvisor obligingHal)
    (stateAfter exampleConfig obligingHal updateOps (bootedAdvisor obligingHal))
    _ _ _)).
  - reflexivity.
  - repeat constructor; discriminate.
  - vm_compute. reflexivity.
Defined.

Lemma X18_reports_queue_and_estimate_witness :
  mHintSessionQueue
    (hint (stateAfter exampleConfig obligingHal
             [ReportActualWorkDuration (fun _ => 3000)]
             (reportingAdvisor obligingHal))) = [].
Proof.
  refine (proj2 (proj2 (proj2 (X18_reports_queue_and_estimate exampleConfig obligingHal
    (ReportActualWorkDuration (fun _ => 3000)) (reportingAdvisor obligingHal)
    (stateAfter exampleConfig obligingHal
       [ReportActualWorkDuration (fun _ => 3000)] (reportingAdvisor obligingHal))
    7 [reportedDuration] (HalOk 7) _ _)))).
  - vm_compute. reflexivity.
  - vm_compute. apply list_elem_of_In. simpl. tauto.
Defined.

Lemma X19_reported_durations_above_margin_witness :
  Forall (fun w => sTargetSafetyMargin exampleConfig <= durationNanos w)
    (mHintSessionQueue
       (hint (stateAfter exampleConfig stubbornReportHal
                [ReportActualWorkDuration (fun _ => 3000)]
                (reportingAdvisor stubbornReportHal)))).
Proof.
  refine (proj1 (X19_reported_durations_above_margin exampleConfig stubbornReportHal
    [ReportActualWorkDuration (fun _ => 3000)] (reportingAdvisor stubbornReportHal)
    (stateAfter exampleConfig stubbornReportHal
       [ReportActualWorkDuration (fun _ => 3000)]
       (reportingAdvisor stubbornReportHal)) _ _)).
  - vm_compute. reflexivity.
  - constructor.
Defined.

Lemma X20_nothing_sent_while_switched_off_witness :
  Forall (fun e => isPowerHint e.1 = true)
    (callsBetween freshAdvisor
       (stateAfter exampleConfig obligingHal
          [OnBootFinished; StartPowerHintSession [1001]; NotifyCpuLoadUp;
           SetExpensiveRenderingExpected 1%N true] freshAdvisor)).
Proof.
  refine (proj1 (X20_nothing_sent_while_switched_off exampleConfig obligingHal
    [OnBootFinished; StartPowerHintSession [1001]; NotifyCpuLoadUp;
     SetExpensiveRenderingExpected 1%N true] freshAdvisor
    (stateAfter exampleConfig obligingHal
       [OnBootFinished; StartPowerHintSession [1001]; NotifyCpuLoadUp;
        SetExpensiveRenderingExpected 1%N true] freshAdvisor) _ _ _)).
  - vm_compute. reflexivity.
  - discriminate.
  - repeat constructor; discriminate.
Defined.

Lemma X21_operations_return_witness :
  exists s', step exampleConfig stubbornHal NotifyCpuLoadUp
               (targetedAdvisor stubbornHal) = Done (tt, s').
Proof.
  apply (X21_operations_return exampleConfig stubbornHal NotifyCpuLoadUp
           (targetedAdvisor stubbornHal)).
  - reflexivity.
  - discriminate.
Defined.

Lemma X23_nothing_before_boot_witness :
  step exampleConfig obligingHal NotifyCpuLoadUp
    (stateAfter exampleConfig obligingHal earlyOps freshAdvisor) =
  Done (tt, stateAfter exampleConfig obligingHal earlyOps freshAdvisor).
Proof.
  refine (proj1 (X23_nothing_before_boot exampleConfig obligingHal NotifyCpuLoadUp
    (stateAfter exampleConfig obligingHal earlyOps freshAdvisor) _) _).
  - reflexivity.
  - reflexivity.
Defined.

Lemma X24_created_for_current_threads_and_target_witness :
  creationThreadIds (CreateHintSessionWithConfig [1001] 16000000) =
  mHintSessionThreadIds (hint (runningAdvisor obligingHal)).
Proof.
  refine (proj1 (X24_created_for_current_threads_and_target exampleConfig obligingHal
    (StartPowerHintSession [1001]) (bootedAdvisor obligingHal)
    (runningAdvisor obligingHal)
    (CreateHintSessionWithConfig [1001] 16000000) (HalOk 7) _ _ _)).
  - vm_compute. reflexivity.
  - vm_compute. apply list_elem_of_In. simpl. tauto.
  - reflexivity.
Defined.

Lemma X25_legacy_creation_follows_at_once_witness :
  exists r',
    (CreateHintSession [1001] 16000000, r') ∈
      callsBetween (bootedAdvisor stubbornConfigHal) (runningAdvisor stubbornConfigHal).
Proof.
  refine (X25_legacy_creation_follows_at_once exampleConfig stubbornConfigHal
    (StartPowerHintSession [1001]) (bootedAdvisor stubbornConfigHal)
    (runningAdvisor stubbornConfigHal) [1001] 16000000 HalFailed _ _ _).
  - vm_compute. reflexivity.
  - vm_compute. apply list_elem_of_In. simpl. tauto.
  - reflexivity.
Defined.

Lemma X28_no_timer_no_throttle_witness :
  exists s2,
    step untimedConfig obligingHal (NotifyDisplayUpdateImminentAndCpuReset 200)
      (stateAfter untimedConfig obligingHal
         [OnBootFinished; NotifyDisplayUpdateImminentAndCpuReset 100] freshAdvisor) =
      Done (tt, s2) /\
    length (boostCalls
      (callsBetween
         (stateAfter untimedConfig obligingHal
            [OnBootFinished; NotifyDisplayUpdateImminentAndCpuReset 100] freshAdvisor)
         s2)) = 1%nat.
Proof.
  refine (proj2 (X28_no_timer_no_throttle untimedConfig obligingHal
    [OnBootFinished; NotifyDisplayUpdateImminentAndCpuReset 100] freshAdvisor
    (stateAfter untimedConfig obligingHal
       [OnBootFinished; NotifyDisplayUpdateImminentAndCpuReset 100] freshAdvisor)
    200 _ _ _ _ _)).
  - reflexivity.
  - reflexivity.
  - vm_compute. reflexivity.
  - reflexivity.
  - reflexivity.
Defined.
